(** * opensource-bot: a shallow embedding of the GitHub client and of the
      OAuth verification flow, with the properties of its specification.

    Layout of the development:
    - [Go]         the pieces of the Go standard library the code calls
                   ([strings], [strconv], [fmt] verbs, [encoding/base64],
                   [net/url], [float64] arithmetic, [net/http] messages);
    - [githubapi]  package githubapi: errors, client core, profile and
                   repository objects;
    - [bot]        package main of the Telegram bot: the session map, the
                   state token and the OAuth callback handler;
    - the theorems, grouped by component.

    Go strings are byte strings; they are modelled by [string], one [ascii]
    per byte (a literal holding UTF-8 text is the sequence of its bytes). *)

From Stdlib Require Import ZArith NArith String Ascii List Bool Lia.
From Stdlib Require Import DecimalString DecimalZ DecimalPos DecimalFacts SpecFloat.
From stdpp Require Import base option list gmap strings.

Local Open Scope Z_scope.

(* ===================================================================== *)
(** * The Go standard library, as far as the program uses it             *)
(* ===================================================================== *)

Module Go.

(** ** Bytes *)

Definition byte_val (c : ascii) : Z := Z.of_N (N_of_ascii c).
Definition byte_of (z : Z) : ascii := ascii_of_N (Z.to_N z).

Definition in_range (lo hi c : ascii) : bool :=
  (byte_val lo <=? byte_val c) && (byte_val c <=? byte_val hi).

Definition eqb_byte (a b : ascii) : bool := Ascii.eqb a b.

(** ** package strings *)

(** [strings.HasPrefix]. *)
Fixpoint HasPrefix (s p : string) : bool :=
  match p, s with
  | EmptyString, _ => true
  | String _ _, EmptyString => false
  | String b p', String a s' => eqb_byte a b && HasPrefix s' p'
  end.

Fixpoint rev_string_acc (s acc : string) : string :=
  match s with
  | EmptyString => acc
  | String c s' => rev_string_acc s' (String c acc)
  end.

Definition rev_string (s : string) : string := rev_string_acc s EmptyString.

(** [strings.HasSuffix]: the suffix is a prefix of the reversed string. *)
Definition HasSuffix (s suffix : string) : bool :=
  HasPrefix (rev_string s) (rev_string suffix).

(** The byte sequences that [unicode.IsSpace] accepts once decoded from
    UTF-8: the six ASCII blanks, U+0085, U+00A0, U+1680, U+2000..U+200A,
    U+2028, U+2029, U+202F, U+205F and U+3000.  Only the first byte of each
    sequence is a rune start, so stripping these sequences from either end
    is what [strings.TrimSpace] does on every byte string. *)
Definition asciiSpace (c : ascii) : bool :=
  match byte_val c with
  | 9 | 10 | 11 | 12 | 13 | 32 => true
  | _ => false
  end.

(** Width in bytes of the white-space rune that starts [s], 0 if none. *)
Definition leading_space (s : string) : nat :=
  match s with
  | EmptyString => 0%nat
  | String a r =>
      if asciiSpace a then 1%nat
      else match byte_val a, r with
      | 194, String b _ =>
          match byte_val b with 133 | 160 => 2%nat | _ => 0%nat end
      | 225, String b (String c _) =>
          match byte_val b, byte_val c with
          | 154, 128 => 3%nat
          | _, _ => 0%nat
          end
      | 226, String b (String c _) =>
          match byte_val b with
          | 128 =>
              if ((128 <=? byte_val c) && (byte_val c <=? 138))
                 || (byte_val c =? 168) || (byte_val c =? 169)
                 || (byte_val c =? 175)
              then 3%nat else 0%nat
          | 129 => if byte_val c =? 159 then 3%nat else 0%nat
          | _ => 0%nat
          end
      | 227, String b (String c _) =>
          match byte_val b, byte_val c with
          | 128, 128 => 3%nat
          | _, _ => 0%nat
          end
      | _, _ => 0%nat
      end
  end.

(** Width of the white-space rune that ends the string whose reversal is
    [r], 0 if none. *)
Definition trailing_space_rev (r : string) : nat :=
  match r with
  | EmptyString => 0%nat
  | String a _ =>
      if asciiSpace a then 1%nat
      else match r with
      | String c (String b (String a0 _)) =>
          match leading_space (String a0 (String b (String c EmptyString))) with
          | 3%nat => 3%nat
          | _ =>
              match leading_space (String b (String c EmptyString)) with
              | 2%nat => 2%nat
              | _ => 0%nat
              end
          end
      | String c (String b EmptyString) =>
          match leading_space (String b (String c EmptyString)) with
          | 2%nat => 2%nat
          | _ => 0%nat
          end
      | _ => 0%nat
      end
  end.

Fixpoint drop_string (n : nat) (s : string) : string :=
  match n, s with
  | O, _ => s
  | S n', String _ s' => drop_string n' s'
  | S _, EmptyString => EmptyString
  end.

(** Strips white-space runes from the front; [fuel] bounds the number of
    runes, the length of the string always suffices. *)
Fixpoint trim_left_space (fuel : nat) (s : string) : string :=
  match fuel with
  | O => s
  | S fuel' =>
      match leading_space s with
      | O => s
      | w => trim_left_space fuel' (drop_string w s)
      end
  end.

Fixpoint trim_right_space_rev (fuel : nat) (r : string) : string :=
  match fuel with
  | O => r
  | S fuel' =>
      match trailing_space_rev r with
      | O => r
      | w => trim_right_space_rev fuel' (drop_string w r)
      end
  end.

(** [strings.TrimSpace]. *)
Definition TrimSpace (s : string) : string :=
  let l := trim_left_space (String.length s) s in
  rev_string (trim_right_space_rev (String.length l) (rev_string l)).

(** [strings.TrimLeft(s, cutset)] for a one-byte ASCII cutset. *)
Fixpoint TrimLeft_byte (s : string) (cut : ascii) : string :=
  match s with
  | EmptyString => EmptyString
  | String a s' => if eqb_byte a cut then TrimLeft_byte s' cut else s
  end.

(** [strings.ToLower] on its ASCII path: the ASCII letters are lowered and
    every other byte is kept, which is Go's result on text without a byte
    from 0x80 on.  The comparison of logins in the bot, which may meet any
    text, uses [bot.strings_ToLower]. *)
Definition lower_byte (c : ascii) : ascii :=
  if in_range "A" "Z" c then byte_of (byte_val c + 32) else c.

Fixpoint ToLower (s : string) : string :=
  match s with
  | EmptyString => EmptyString
  | String c s' => String (lower_byte c) (ToLower s')
  end.

(** [strings.Split(s, sep)] for a one-byte separator. *)
Fixpoint Split_byte (s : string) (sep : ascii) : list string :=
  match s with
  | EmptyString => [EmptyString]
  | String a s' =>
      if eqb_byte a sep then EmptyString :: Split_byte s' sep
      else match Split_byte s' sep with
           | [] => [String a EmptyString]
           | hd :: tl => String a hd :: tl
           end
  end.

(** [strings.Join]. *)
Fixpoint Join (l : list string) (sep : string) : string :=
  match l with
  | [] => EmptyString
  | [x] => x
  | x :: l' => x +:+ sep +:+ Join l' sep
  end.

(** [strings.IndexByte(s, c) >= 0]: the byte [c] occurs in [s]. *)
Fixpoint ContainsByte (s : string) (c : ascii) : bool :=
  match s with
  | EmptyString => false
  | String a s' => eqb_byte a c || ContainsByte s' c
  end.

(** Every byte of [s] satisfies [p]. *)
Fixpoint all_bytes (p : ascii -> bool) (s : string) : bool :=
  match s with
  | EmptyString => true
  | String a s' => p a && all_bytes p s'
  end.

(** No byte of [s] is 0x80 or above: the test that [strings.ToLower] makes
    before it takes its ASCII path. *)
Definition isASCII (s : string) : bool :=
  all_bytes (fun c => byte_val c <? 128) s.

(** [strings.EqualFold] on its byte path: both strings are walked byte by
    byte, ASCII letters compared without case, and the lengths must agree.
    Go leaves this path at the first byte above 0x7f and then folds runes
    by the Unicode tables; against a text of ASCII letters that path can
    only accept the Kelvin sign for [k] and the long s for [s], so the byte
    path is the whole function when one side is made of ASCII letters other
    than [k] and [s]. *)
Fixpoint EqualFold (s t : string) : bool :=
  match s, t with
  | EmptyString, EmptyString => true
  | String a s', String b t' => eqb_byte (lower_byte a) (lower_byte b) && EqualFold s' t'
  | _, _ => false
  end.

(** ** package strconv and the [%d] verb *)

(** [strconv.FormatInt(n, 10)], also what [%d] and [fmt.Sprint] print for
    an integer: the decimal digits, with a leading minus sign for a
    negative number. *)
Definition FormatInt (n : Z) : string := NilZero.string_of_int (Z.to_int n).

(** ** package encoding/base64 *)

(** An [Encoding]: its 64-character alphabet and its padding character
    ([None] for [NoPadding]). *)
Record Encoding := mkEncoding {
  encode : string;
  padChar : option ascii
}.

Definition encodeStd : string :=
  "ABCDEFGHIJKLMNOPQRSTUVWXYZabcdefghijklmnopqrstuvwxyz0123456789+/".

Definition encodeURL : string :=
  "ABCDEFGHIJKLMNOPQRSTUVWXYZabcdefghijklmnopqrstuvwxyz0123456789-_".

Definition StdEncoding : Encoding := mkEncoding encodeStd (Some "="%char).
Definition RawURLEncoding : Encoding := mkEncoding encodeURL None.

(** [enc.encode[v]] for a six-bit value. *)
Definition encode_sextet (enc : Encoding) (v : Z) : ascii :=
  match String.get (Z.to_nat v) (encode enc) with
  | Some c => c
  | None => "000"%char
  end.

Definition sextet (enc : Encoding) (val : Z) (shift : Z) : ascii :=
  encode_sextet enc (Z.land (Z.shiftr val shift) 63).

Definition padding (enc : Encoding) (n : nat) : string :=
  match padChar enc with
  | Some c => string_of_list_ascii (repeat c n)
  | None => EmptyString
  end.

(** [enc.EncodeToString]: three bytes give four characters; a remainder of
    one or two bytes gives two or three characters and the padding. *)
Fixpoint EncodeToString (enc : Encoding) (src : string) : string :=
  match src with
  | EmptyString => EmptyString
  | String a EmptyString =>
      let val := Z.shiftl (byte_val a) 16 in
      String (sextet enc val 18) (String (sextet enc val 12) (padding enc 2))
  | String a (String b EmptyString) =>
      let val := Z.lor (Z.shiftl (byte_val a) 16) (Z.shiftl (byte_val b) 8) in
      String (sextet enc val 18) (String (sextet enc val 12)
        (String (sextet enc val 6) (padding enc 1)))
  | String a (String b (String c rest)) =>
      let val := Z.lor (Z.lor (Z.shiftl (byte_val a) 16)
                              (Z.shiftl (byte_val b) 8)) (byte_val c) in
      String (sextet enc val 18) (String (sextet enc val 12)
        (String (sextet enc val 6) (String (sextet enc val 0)
          (EncodeToString enc rest))))
  end.

(** The position of [c] in [s], counted from [i]. *)
Fixpoint index_of (c : ascii) (s : string) (i : Z) : option Z :=
  match s with
  | EmptyString => None
  | String a s' => if eqb_byte a c then Some i else index_of c s' (i + 1)
  end.

Definition decode_sextet (enc : Encoding) (c : ascii) : option Z :=
  index_of c (encode enc) 0.

Definition is_pad (enc : Encoding) (c : ascii) : bool :=
  match padChar enc with
  | Some p => eqb_byte c p
  | None => false
  end.

(** The 24 bits that four sextets hold, as the decoder assembles them. *)
Definition quantum (v1 v2 v3 v4 : Z) : Z :=
  Z.lor (Z.lor (Z.lor (Z.shiftl v1 18) (Z.shiftl v2 12)) (Z.shiftl v3 6)) v4.

Definition quantum_byte (val shift : Z) : ascii :=
  byte_of (Z.land (Z.shiftr val shift) 255).

(** [enc.DecodeString] on text without line breaks, for an encoding with
    padding: quanta of four characters, the last one possibly padded. *)
Fixpoint DecodeString (enc : Encoding) (s : string) : option string :=
  match s with
  | EmptyString => Some EmptyString
  | String c1 (String c2 (String c3 (String c4 rest))) =>
      match decode_sextet enc c1, decode_sextet enc c2 with
      | Some v1, Some v2 =>
          if is_pad enc c3 then
            if is_pad enc c4 && String.eqb rest EmptyString
            then Some (String (quantum_byte (quantum v1 v2 0 0) 16) EmptyString)
            else None
          else
            match decode_sextet enc c3 with
            | Some v3 =>
                if is_pad enc c4 then
                  if String.eqb rest EmptyString
                  then Some (String (quantum_byte (quantum v1 v2 v3 0) 16)
                               (String (quantum_byte (quantum v1 v2 v3 0) 8) EmptyString))
                  else None
                else
                  match decode_sextet enc c4, DecodeString enc rest with
                  | Some v4, Some tail =>
                      let val := quantum v1 v2 v3 v4 in
                      Some (String (quantum_byte val 16) (String (quantum_byte val 8)
                              (String (quantum_byte val 0) tail)))
                  | _, _ => None
                  end
            | None => None
            end
      | _, _ => None
      end
  | _ => None
  end.

(** The sextet [i] survives encoding and decoding, and is not written as
    the padding character. *)
Definition sextet_ok (i : nat) : bool :=
  let c := encode_sextet StdEncoding (Z.of_nat i) in
  match decode_sextet StdEncoding c with
  | Some v => (v =? Z.of_nat i) && negb (is_pad StdEncoding c)
  | None => false
  end.

(** The 64 characters of the alphabet of [enc] are pairwise distinct: each
    sextet is found again at its own position. *)
Definition alphabet_ok (enc : Encoding) : bool :=
  forallb (fun i => match decode_sextet enc (encode_sextet enc (Z.of_nat i)) with
                    | Some v => v =? Z.of_nat i
                    | None => false
                    end) (seq 0 64).

(** The characters a PKCE code verifier may hold that base64url produces:
    letters, digits, [-] and [_]. *)
Definition url_safe_byte (c : ascii) : bool :=
  in_range "a" "z" c || in_range "A" "Z" c || in_range "0" "9" c
  || eqb_byte c "-" || eqb_byte c "_".

(** ** package net/url *)

Definition upperhex : string := "0123456789ABCDEF".

Definition hex_digit (v : Z) : ascii :=
  match String.get (Z.to_nat v) upperhex with
  | Some c => c
  | None => "0"%char
  end.

(** [shouldEscape(c, encodePathSegment)]. *)
Definition shouldEscape_pathSegment (c : ascii) : bool :=
  if in_range "a" "z" c || in_range "A" "Z" c || in_range "0" "9" c then false
  else match byte_val c with
       | 45 | 95 | 46 | 126 => false            (* - _ . ~ *)
       | 36 | 38 | 43 | 58 | 61 | 64 => false   (* $ & + : = @ *)
       | _ => true                              (* also / ; , ? *)
       end.

(** [url.PathEscape]. *)
Fixpoint PathEscape (s : string) : string :=
  match s with
  | EmptyString => EmptyString
  | String c s' =>
      if shouldEscape_pathSegment c
      then String "%" (String (hex_digit (Z.shiftr (byte_val c) 4))
             (String (hex_digit (Z.land (byte_val c) 15)) (PathEscape s')))
      else String c (PathEscape s')
  end.

(** [shouldEscape(c, encodeQueryComponent)]. *)
Definition shouldEscape_queryComponent (c : ascii) : bool :=
  if in_range "a" "z" c || in_range "A" "Z" c || in_range "0" "9" c then false
  else match byte_val c with
       | 45 | 95 | 46 | 126 => false            (* - _ . ~ *)
       | _ => true
       end.

(** [url.QueryEscape]: as above, with a space written [+]. *)
Fixpoint QueryEscape (s : string) : string :=
  match s with
  | EmptyString => EmptyString
  | String c s' =>
      if byte_val c =? 32 then String "+" (QueryEscape s')
      else if shouldEscape_queryComponent c
      then String "%" (String (hex_digit (Z.shiftr (byte_val c) 4))
             (String (hex_digit (Z.land (byte_val c) 15)) (QueryEscape s')))
      else String c (QueryEscape s')
  end.

(** The value of a hexadecimal digit. *)
Definition unhex (c : ascii) : Z :=
  if in_range "0" "9" c then byte_val c - 48
  else if in_range "a" "f" c then byte_val c - 97 + 10
  else if in_range "A" "F" c then byte_val c - 65 + 10
  else 0.

(** The decoding of escaped text, as [url.PathUnescape] ([query] false) and
    [url.QueryUnescape] ([query] true) do it on what the two functions
    above produce. *)
Fixpoint unescape (query : bool) (s : string) : string :=
  match s with
  | EmptyString => EmptyString
  | String c rest =>
      match byte_val c, rest with
      | 37, String a (String b rest') =>
          String (byte_of (16 * unhex a + unhex b)) (unescape query rest')
      | _, _ =>
          if query && (byte_val c =? 43) then String " " (unescape query rest)
          else String c (unescape query rest)
      end
  end.

(** [url.Values]: the values of each key. *)
Definition Values : Type := gmap string (list string).

(** [v.Set(key, value)] replaces the values of [key] by the one value. *)
Definition Values_Set (v : Values) (key value : string) : Values :=
  <[key := [value]]> v.

(** [slices.Sort] on strings: ascending in the byte-wise order. *)
Fixpoint insert_sorted (k : string) (l : list string) : list string :=
  match l with
  | [] => [k]
  | x :: l' => if String.leb k x then k :: l else x :: insert_sorted k l'
  end.

Definition sort_strings (l : list string) : list string :=
  foldr insert_sorted [] l.

(** [v.Encode()]: the keys in sorted order; for each value [&] (unless the
    buffer is still empty), the escaped key, [=] and the escaped value. *)
Definition Values_Encode (v : Values) : string :=
  foldl (fun buf k =>
           let keyEscaped := QueryEscape k in
           foldl (fun buf val =>
                    let buf := if (0 <? String.length buf)%nat then buf +:+ "&" else buf in
                    buf +:+ keyEscaped +:+ "=" +:+ QueryEscape val)
                 buf (default [] (v !! k)))
        "" (sort_strings (elements (dom v))).

(** One [key=value] of an encoded query, both sides escaped. *)
Definition encode_pair (kv : string * string) : string :=
  QueryEscape kv.1 +:+ "=" +:+ QueryEscape kv.2.

(** The body of the outer loop of [Encode]: the values of the key [k] are
    appended to the buffer. *)
Definition enc_step (v : Values) (buf k : string) : string :=
  foldl (fun buf val =>
           let buf := if (0 <? String.length buf)%nat then buf +:+ "&" else buf in
           buf +:+ QueryEscape k +:+ "=" +:+ QueryEscape val)
        buf (default [] (v !! k)).

(** ** What a process reads from its surroundings *)

(** The wall clock ([time.Now().UnixNano()]) and the system's random
    source ([crypto/rand.Read] on a buffer of [n] bytes: the bytes, or
    [None] when the read fails), at the instant of a call. *)
Record Ambient := mkAmbient {
  UnixNano : Z;
  rand_Read : nat -> option string
}.

(** ** float64 and the [%.1f] verb *)

(** IEEE 754 binary64, on the reference model of the Standard Library. *)
Definition prec64 : Z := 53.
Definition emax64 : Z := 1024.

(** The conversion [float64(n)] of an integer, rounding to nearest even. *)
Definition float64_of_int (n : Z) : spec_float :=
  binary_normalize prec64 emax64 n 0 false.

(** The division [x / y] of two [float64]. *)
Definition float64_div (x y : spec_float) : spec_float :=
  SFdiv prec64 emax64 x y.

(** The nearest integer to [num / den] for [den > 0], ties to even. *)
Definition round_half_even (num den : Z) : Z :=
  let q := num / den in
  let r := num mod den in
  match 2 * r ?= den with
  | Lt => q
  | Gt => q + 1
  | Eq => if Z.even q then q else q + 1
  end.

(** Ten times the magnitude [m * 2^e], rounded to an integer the way
    [strconv] rounds the exact decimal expansion (ties to even). *)
Definition tenths (m : positive) (e : Z) : Z :=
  if 0 <=? e then 10 * Z.pos m * 2 ^ e
  else round_half_even (10 * Z.pos m) (2 ^ (- e)).

(** A count of tenths printed with one digit after the point. *)
Definition format_tenths (t : Z) : string :=
  FormatInt (t / 10) +:+ "." +:+ FormatInt (t mod 10).

Definition sign_string (s : bool) : string := if s then "-" else "".

(** [fmt.Sprintf("%.1f", x)]. *)
Definition Sprintf_f1 (x : spec_float) : string :=
  match x with
  | S754_zero s => sign_string s +:+ "0.0"
  | S754_infinity s => if s then "-Inf" else "+Inf"
  | S754_nan => "NaN"
  | S754_finite s m e => sign_string s +:+ format_tenths (tenths m e)
  end.

(** ** float64: sums, conversions to [int], and what rounding keeps *)

(** The sum [x + y] of two [float64]. *)
Definition float64_add (x y : spec_float) : spec_float :=
  SFadd prec64 emax64 x y.

(** The conversion [int(x)] of a [float64]: the fraction is discarded.
    Outside the range of [int] the language leaves the result to the
    implementation; the one of amd64 is taken. *)
Definition float64_to_int (x : spec_float) : Z :=
  match x with
  | S754_zero _ => 0
  | S754_finite s m e =>
      let t := if 0 <=? e then Z.pos m * 2 ^ e else Z.pos m / 2 ^ (- e) in
      if t <? 2 ^ 63 then cond_Zopp s t else - 2 ^ 63
  | _ => - 2 ^ 63
  end.

(** Where the rest [r] of a division by [D] lies: at the lower integer,
    or below, at or above the middle. *)
Definition locate (r D : Z) : location :=
  if r =? 0 then loc_Exact else loc_Inexact (2 * r ?= D).

(** The record holds the quotient of [N] by [D] and where the rest lies. *)
Definition tracks (N D : Z) (rec : shr_record) : Prop :=
  shr_m rec = N / D /\ loc_of_shr_record rec = locate (N mod D) D.

(** The magnitude of a positive finite [float64], in units of [2^-1200]. *)
Definition float64_units (x : spec_float) : Z :=
  match x with
  | S754_finite false m e => Z.pos m * 2 ^ (e + 1200)
  | _ => 0
  end.

(** A positive [float64] with a full mantissa and an exponent within [r]. *)
Definition normal53 (r : Z) (x : spec_float) : Prop :=
  exists m e, x = S754_finite false m e /\ Zdigits2 (Z.pos m) = 53 /\ - r <= e <= r.

(** A count of units that 53 bits can hold. *)
Definition holds53 (U : Z) : Prop :=
  exists Y ey, 0 < Y < 2 ^ 53 /\ - 1200 <= ey /\ U = Y * 2 ^ (ey + 1200).

(** ** package time *)

(** A [Duration] is a count of nanoseconds in an [int64]. *)
Definition Minute : Z := 60 * 1000000000.
Definition Hour : Z := 60 * Minute.
Definition minDuration : Z := - 2 ^ 63.
Definition maxDuration : Z := 2 ^ 63 - 1.

(** [Duration.Minutes] and [Duration.Hours]: the whole part and the rest
    are converted apart and added, so that the whole part is exact. *)
Definition Duration_Minutes (d : Z) : spec_float :=
  let min := Z.quot d Minute in
  let nsec := Z.rem d Minute in
  float64_add (float64_of_int min)
              (float64_div (float64_of_int nsec) (float64_of_int (60 * 1000000000))).

Definition Duration_Hours (d : Z) : spec_float :=
  let hour := Z.quot d Hour in
  let nsec := Z.rem d Hour in
  float64_add (float64_of_int hour)
              (float64_div (float64_of_int nsec) (float64_of_int (60 * 60 * 1000000000))).

(** An instant: the seconds since January 1 of year 1, the nanoseconds
    within the second, and the reading of the monotonic clock where the
    instant has one ([time.Now] has, a parsed timestamp has not). *)
Record Time := mkTime {
  wall_sec : Z;
  wall_nsec : Z;
  monotonic : option Z
}.

(** [Time.IsZero]. *)
Definition Time_IsZero (t : Time) : bool :=
  (wall_sec t =? 0) && (wall_nsec t =? 0).

(** [Time.Sub]: the difference [t - u] in nanoseconds, on the monotonic
    readings when both instants have one, kept within the range of a
    [Duration]. *)
Definition Time_Sub (t u : Time) : Z :=
  let d := match monotonic t, monotonic u with
           | Some a, Some b => a - b
           | _, _ => (wall_sec t - wall_sec u) * 1000000000 + (wall_nsec t - wall_nsec u)
           end in
  Z.max minDuration (Z.min maxDuration d).

(** ** package net/http: the messages *)

(** What a request carries as its body.  [json.Marshal] of a
    [map[string]any] of strings and [url.Values.Encode] both serialise a
    string-keyed map in key order; the body is kept as that map. *)
Inductive Payload :=
| NoBody
| JSONObject (fields : gmap string string)
| FormValues (fields : gmap string string).

Record Request := mkRequest {
  Method : string;
  URL : string;
  Header : gmap string string;
  ReqBody : Payload
}.

Record Response := mkResponse {
  StatusCode : Z;
  Body : string
}.

Definition StatusOK : Z := 200.
Definition StatusBadRequest : Z := 400.
Definition StatusNotFound : Z := 404.
Definition StatusUnprocessableEntity : Z := 422.
Definition StatusInternalServerError : Z := 500.

(** [io.ReadAll(io.LimitReader(r, n))]: at most the first [n] bytes. *)
Fixpoint LimitReader (body : string) (n : N) : string :=
  match body with
  | EmptyString => EmptyString
  | String c rest =>
      if N.eqb n 0 then EmptyString else String c (LimitReader rest (N.pred n))
  end.

(** [Header.Set]. *)
Definition Header_Set (r : Request) (k v : string) : Request :=
  mkRequest (Method r) (URL r) (<[k := v]> (Header r)) (ReqBody r).

End Go.

(* ===================================================================== *)
(** * package githubapi                                                   *)
(* ===================================================================== *)

Module githubapi.
Import Go.

(** ** err.go *)

(** The dynamic type behind a Go [error] value.  The first three are the
    package's own error structs; [errorString] is what [errors.New] makes;
    [fmtError] is an [fmt.Errorf] value, kept as its format and arguments;
    [foreignError] stands for the errors of [net/http], [encoding/json] and
    of a transport. *)
Inductive error :=
| HTTPError (code : Z) (body : string)
| ProfileNotFoundError (Profile : string)
| RepoNotFoundError (Repo : string)
| errorString (s : string)
| fmtError (format : string) (args : list string)
| foreignError (msg : string).

Definition NewProfileNotFoundError (profile : string) : error :=
  ProfileNotFoundError profile.

Definition NewRepoNotFoundError (repo : string) : error :=
  RepoNotFoundError repo.

(** The [Error()] methods of the three error structs. *)
Definition HTTPError_Error (code : Z) (body : string) : string :=
  "github: http " +:+ FormatInt code +:+ ": " +:+ body.

Definition ProfileNotFoundError_Error (profile : string) : string :=
  "profile not found: " +:+ profile.

Definition RepoNotFoundError_Error (repo : string) : string :=
  "repo not found: " +:+ repo.

(** The type assertion of [err] to a pointer to [HTTPError], together with
    the test [he.StatusCode == status]. *)
Definition is_HTTPError_with (err : error) (status : Z) : bool :=
  match err with
  | HTTPError c _ => c =? status
  | _ => false
  end.

Definition HTTPError_Body (err : error) : string :=
  match err with
  | HTTPError _ b => b
  | _ => EmptyString
  end.

(** ** The client (GitHubAPI) *)

(** A [Doer] is known by what its [Do] answers to a request, given the
    requests sent before: a response, or a transport error. *)
Definition Doer : Type := list Request -> Request -> error + Response.

Record OAuthApp := mkOAuthApp {
  ClientID : string;
  ClientSecret : string;
  RedirectURI : string
}.

(** [timeout] is a [time.Duration], in nanoseconds. *)
Record GitHubAPI := mkGitHubAPI {
  oAuth : OAuthApp;
  baseURL : string;
  userAgent : string;
  timeout : Z;
  http : option Doer;
  accessToken : string
}.

Record PKCE := mkPKCE {
  Verifier : string;
  Challenge : string;
  PKCE_Method : string
}.

Definition zero_OAuthApp : OAuthApp := mkOAuthApp "" "" "".

(** The zero value [GitHubAPI{}]. *)
Definition zero_GitHubAPI : GitHubAPI :=
  mkGitHubAPI zero_OAuthApp "" "" 0 None "".

Definition Second : Z := 1000000000.

(** [NewDefaultGitHubAPI]; [http_Client d] is the transport
    [&http.Client{Timeout: d}]. *)
Definition NewDefaultGitHubAPI (http_Client : Z -> Doer) : GitHubAPI :=
  mkGitHubAPI zero_OAuthApp "https://api.github.com" "githubapi/1.0"
    (10 * Second) (Some (http_Client (10 * Second))) "".

(** options.go *)
Definition Option : Type := GitHubAPI -> GitHubAPI.

Definition WithHTTP (h : Doer) : Option := fun api =>
  mkGitHubAPI (oAuth api) (baseURL api) (userAgent api) (timeout api)
    (Some h) (accessToken api).

Definition WithTimeout (t : Z) : Option := fun api =>
  mkGitHubAPI (oAuth api) (baseURL api) (userAgent api) t
    (http api) (accessToken api).

Definition WithUserAgent (ua : string) : Option := fun api =>
  mkGitHubAPI (oAuth api) (baseURL api) ua (timeout api)
    (http api) (accessToken api).

Definition WithBaseURL (u : string) : Option := fun api =>
  mkGitHubAPI (oAuth api) u (userAgent api) (timeout api)
    (http api) (accessToken api).

Definition WithOAuth (o : OAuthApp) : Option := fun api =>
  mkGitHubAPI o (baseURL api) (userAgent api) (timeout api)
    (http api) (accessToken api).

Definition WithOptions (http_Client : Z -> Doer) (opts : list Option) : GitHubAPI :=
  fold_left (fun def o => o def) opts (NewDefaultGitHubAPI http_Client).

(** The options that options.go exports. *)
Inductive package_option : Option -> Prop :=
| option_WithHTTP h : package_option (WithHTTP h)
| option_WithTimeout t : package_option (WithTimeout t)
| option_WithUserAgent ua : package_option (WithUserAgent ua)
| option_WithBaseURL u : package_option (WithBaseURL u)
| option_WithOAuth o : package_option (WithOAuth o).

(** [applyFrom]: the receiver takes the transport, the OAuth app, the base
    URL, the user agent and the timeout of [api]; its access token stays. *)
Definition applyFrom (p api : GitHubAPI) : GitHubAPI :=
  mkGitHubAPI (oAuth api) (baseURL api) (userAgent api) (timeout api)
    (http api) (accessToken p).

(** ** Resource objects *)

(** [GitHubProfileAPI]: the embedded client and the decoded fields (of the
    JSON fields, those that the operations or the tests read). *)
Record GitHubProfileAPI := mkProfile {
  profile_GitHubAPI : GitHubAPI;
  Login : string;
  ID : Z;
  Name : string;
  Email : option string;
  PublicRepos : Z;
  Followers : Z;
  Following : Z
}.

Definition zero_profile : GitHubProfileAPI :=
  mkProfile zero_GitHubAPI "" 0 "" None 0 0 0.

Definition profile_with_api (p : GitHubProfileAPI) (a : GitHubAPI) : GitHubProfileAPI :=
  mkProfile a (Login p) (ID p) (Name p) (Email p) (PublicRepos p)
    (Followers p) (Following p).

Record RepoOwner := mkRepoOwner {
  owner_Login : string;
  owner_ID : Z
}.

(** [GitHubRepoAPI]: the embedded client and the decoded fields. *)
Record GitHubRepoAPI := mkRepo {
  repo_GitHubAPI : GitHubAPI;
  repo_ID : Z;
  repo_Name : string;
  FullName : string;
  Private : bool;
  Owner : RepoOwner;
  HTMLURL : string;
  GitURL : string;
  SSHURL : string;
  CloneURL : string;
  StargazersCount : Z;
  ForksCount : Z;
  Watchers : Z;
  Archived : bool;
  Disabled : bool;
  Visibility : string;
  DefaultBranch : string
}.

Definition zero_repo : GitHubRepoAPI :=
  mkRepo zero_GitHubAPI 0 "" "" false (mkRepoOwner "" 0) "" "" "" "" 0 0 0
    false false "" "".

Definition repo_with_api (r : GitHubRepoAPI) (a : GitHubAPI) : GitHubRepoAPI :=
  mkRepo a (repo_ID r) (repo_Name r) (FullName r) (Private r) (Owner r)
    (HTMLURL r) (GitURL r) (SSHURL r) (CloneURL r) (StargazersCount r)
    (ForksCount r) (Watchers r) (Archived r) (Disabled r) (Visibility r)
    (DefaultBranch r).

Record ContentInfo := mkContentInfo {
  content_Name : string;
  content_Path : string;
  content_SHA : string;
  content_HTMLURL : string
}.

Record CommitInfo := mkCommitInfo {
  commit_SHA : string;
  commit_Message : string;
  commit_HTMLURL : string
}.

Record CreateContentResp := mkCreateContentResp {
  Content : ContentInfo;
  Commit : CommitInfo
}.

Definition zero_CreateContentResp : CreateContentResp :=
  mkCreateContentResp (mkContentInfo "" "" "" "") (mkCommitInfo "" "" "").

(** ** What the package takes from outside *)

(** [NewRequest_error method url] is the error of
    [http.NewRequestWithContext], if the method or the URL is refused;
    [sha256_Sum256] is the digest of [crypto/sha256].
    The [Unmarshal_*] are [json.Unmarshal] at the types the package decodes
    to: given the bytes and the current value behind the pointer, the
    decoded value or the decoding error. *)
Class Externals := {
  NewRequest_error : string -> string -> option error;
  sha256_Sum256 : string -> string;
  Unmarshal_profile : string -> GitHubProfileAPI -> error + GitHubProfileAPI;
  Unmarshal_repo : string -> GitHubRepoAPI -> error + GitHubRepoAPI;
  Unmarshal_repos : string -> list GitHubRepoAPI -> error + list GitHubRepoAPI;
  Unmarshal_tags : string -> list string -> error + list string;
  Unmarshal_content : string -> CreateContentResp -> error + CreateContentResp
}.

(** A type [doJSON] can decode into. *)
Class JSONTarget (T : Type) := Unmarshal : string -> T -> error + T.

(** ** Computations: results, panics and the log of requests sent *)

Inductive outcome (A : Type) : Type :=
| Ret (a : A)
| Panic (reason : string).
Arguments Ret {A} a.
Arguments Panic {A} reason.

(** The state is the list of the requests handed to a transport so far,
    oldest first. *)
Definition M (A : Type) : Type := list Request -> outcome A * list Request.

Definition ret {A} (a : A) : M A := fun sent => (Ret a, sent).

Definition bind {A B} (m : M A) (k : A -> M B) : M B := fun sent =>
  match m sent with
  | (Ret a, sent') => k a sent'
  | (Panic r, sent') => (Panic r, sent')
  end.

Definition panic {A} (reason : string) : M A := fun sent => (Panic reason, sent).

#[export] Instance M_ret : MRet M := @ret.
#[export] Instance M_bind : MBind M := fun A B k m => bind m k.

(** [c.http.Do(req)]; calling a method of a nil interface panics. *)
Definition http_Do (c : GitHubAPI) (req : Request) : M (error + Response) :=
  match http c with
  | None => panic "invalid memory address or nil pointer dereference"
  | Some d => fun sent => (Ret (d sent req), sent ++ [req])
  end.

Section Operations.
Context {ext : Externals}.

(** Decoding never writes the embedded client: its fields are unexported. *)
#[export] Instance JSONTarget_profile : JSONTarget GitHubProfileAPI := fun b p =>
  match Unmarshal_profile b p with
  | inl e => inl e
  | inr p' => inr (profile_with_api p' (profile_GitHubAPI p))
  end.

#[export] Instance JSONTarget_repo : JSONTarget GitHubRepoAPI := fun b r =>
  match Unmarshal_repo b r with
  | inl e => inl e
  | inr r' => inr (repo_with_api r' (repo_GitHubAPI r))
  end.

#[export] Instance JSONTarget_repos : JSONTarget (list GitHubRepoAPI) := fun b l =>
  match Unmarshal_repos b l with
  | inl e => inl e
  | inr l' => inr (map (fun r => repo_with_api r zero_GitHubAPI) l')
  end.

#[export] Instance JSONTarget_tags : JSONTarget (list string) := Unmarshal_tags.

#[export] Instance JSONTarget_content : JSONTarget CreateContentResp := Unmarshal_content.

(** The target type of a call [doJSON(req, nil)]. *)
#[export] Instance JSONTarget_nil : JSONTarget unit := fun _ u => inr u.

(** [NewPKCE]: a verifier of 32 random bytes and its S256 challenge. *)
Definition NewPKCE (amb : Ambient) : option PKCE * option error :=
  match rand_Read amb 32 with
  | None => (None, Some (foreignError "crypto/rand: read failed"))
  | Some buf =>
      let verifier := EncodeToString RawURLEncoding buf in
      let sum := sha256_Sum256 verifier in
      let challenge := EncodeToString RawURLEncoding sum in
      (Some (mkPKCE verifier challenge "S256"), None)
  end.

(** [newReq]: the request, or the error of [http.NewRequestWithContext]. *)
Definition newReq (c : GitHubAPI) (method path : string) (body : Payload)
  : error + Request :=
  match NewRequest_error method (baseURL c +:+ path) with
  | Some err => inl err
  | None =>
      let req := mkRequest method (baseURL c +:+ path) ∅ body in
      let req := Header_Set req "Accept" "application/vnd.github.v3+json" in
      let req :=
        if negb (String.eqb (userAgent c) "")
        then Header_Set req "User-Agent" (userAgent c) else req in
      inr req
  end.

(** [doJSON]: [out] is [None] for a nil target, [Some v] for a pointer to
    [v]; the result is the returned error and what the pointer then refers
    to. *)
Definition doJSON {T} `{JSONTarget T} (c : GitHubAPI) (req : Request)
    (out : option T) : M (option error * option T) :=
  r ← http_Do c req;
  match r with
  | inl err => ret (Some err, out)
  | inr resp =>
      let b := LimitReader (Body resp) (N.shiftl 1 20) in
      if (StatusCode resp <? 200) || (StatusCode resp >=? 300)
      then ret (Some (HTTPError (StatusCode resp) b), out)
      else match out with
           | None => ret (None, out)
           | Some v =>
               if (String.length b =? 0)%nat then ret (None, out)
               else match Unmarshal b v with
                    | inl err => ret (Some err, out)
                    | inr v' => ret (None, Some v')
                    end
           end
  end.

(** The value behind a pointer that was passed as [Some v0]. *)
Definition deref {T} (v0 : T) (out : option T) : T :=
  match out with
  | Some v => v
  | None => v0
  end.

Definition CheckUserExists (c : GitHubAPI) (username : string)
  : M (bool * option error) :=
  let username := TrimSpace username in
  if String.eqb username "" then ret (false, Some (errorString "username is empty"))
  else match newReq c "GET" ("/users/" +:+ PathEscape username) NoBody with
  | inl err => ret (false, Some err)
  | inr req =>
      '(err, _) ← doJSON (T := unit) c req None;
      match err with
      | Some err =>
          if is_HTTPError_with err StatusNotFound then ret (false, None)
          else ret (false, Some err)
      | None => ret (true, None)
      end
  end.

Definition GetUserIfExists (c : GitHubAPI) (username : string)
  : M (option GitHubProfileAPI * option error) :=
  let username := TrimSpace username in
  if String.eqb username "" then ret (None, Some (errorString "username is empty"))
  else match newReq c "GET" ("/users/" +:+ PathEscape username) NoBody with
  | inl err => ret (None, Some err)
  | inr req =>
      '(err, out) ← doJSON c req (Some zero_profile);
      match err with
      | Some err =>
          if is_HTTPError_with err StatusNotFound
          then ret (None, Some (NewProfileNotFoundError username))
          else ret (None, Some err)
      | None =>
          let profile := deref zero_profile out in
          ret (Some (profile_with_api profile
                       (applyFrom (profile_GitHubAPI profile) c)), None)
      end
  end.

Definition CheckUserExistsById (c : GitHubAPI) (id : Z)
  : M (bool * option error) :=
  match newReq c "GET" ("/user/" +:+ PathEscape (FormatInt id)) NoBody with
  | inl err => ret (false, Some err)
  | inr req =>
      '(err, _) ← doJSON (T := unit) c req None;
      match err with
      | Some err =>
          if is_HTTPError_with err StatusNotFound then ret (false, None)
          else ret (false, Some err)
      | None => ret (true, None)
      end
  end.

Definition CheckIsRepoExistsById (c : GitHubAPI) (id : Z)
  : M (bool * option error) :=
  match newReq c "GET" ("/repositories/" +:+ PathEscape (FormatInt id)) NoBody with
  | inl err => ret (false, Some err)
  | inr req =>
      '(err, _) ← doJSON c req (Some zero_repo);
      match err with
      | Some err =>
          if is_HTTPError_with err StatusNotFound then ret (false, None)
          else ret (true, None)
      | None => ret (true, None)
      end
  end.

Definition GetRepoByIdIfExist (c : GitHubAPI) (id : Z)
  : M (option GitHubRepoAPI * option error) :=
  match newReq c "GET" ("/repositories/" +:+ PathEscape (FormatInt id)) NoBody with
  | inl err => ret (None, Some err)
  | inr req =>
      '(err, out) ← doJSON c req (Some zero_repo);
      match err with
      | Some err =>
          if is_HTTPError_with err StatusNotFound
          then ret (None, Some (NewRepoNotFoundError (FormatInt id)))
          else ret (None, Some err)
      | None => ret (Some (deref zero_repo out), None)
      end
  end.

Definition GetUserByIdIfExist (c : GitHubAPI) (id : Z)
  : M (option GitHubProfileAPI * option error) :=
  match newReq c "GET" ("/user/" +:+ PathEscape (FormatInt id)) NoBody with
  | inl err => ret (None, Some err)
  | inr req =>
      '(err, out) ← doJSON c req (Some zero_profile);
      match err with
      | Some err =>
          if is_HTTPError_with err StatusNotFound
          then ret (None, Some (NewProfileNotFoundError (FormatInt id)))
          else ret (None, Some err)
      | None =>
          let profile := deref zero_profile out in
          ret (Some (profile_with_api profile
                       (applyFrom (profile_GitHubAPI profile) c)), None)
      end
  end.

(** *** profile.go *)

Definition GetPublicRepos (p : GitHubProfileAPI)
  : M (option (list GitHubRepoAPI) * option error) :=
  match newReq (profile_GitHubAPI p) "GET" ("/users/" +:+ Login p +:+ "/repos") NoBody with
  | inl err => ret (None, Some err)
  | inr req =>
      '(jerror, out) ← doJSON (profile_GitHubAPI p) req (Some []);
      match jerror with
      | Some jerror => ret (None, Some jerror)
      | None => ret (Some (deref [] out), None)
      end
  end.

(** In the two functions below the failure branch returns [err], the
    variable that [newReq] assigned; it is nil once the request was built. *)
Definition IsRepoExist (p : GitHubProfileAPI) (name : string)
  : M (bool * option error) :=
  match newReq (profile_GitHubAPI p) "GET"
          ("/repos/" +:+ Login p +:+ "/" +:+ name) NoBody with
  | inl err => ret (false, Some err)
  | inr req =>
      let err : option error := None in
      '(jerror, _) ← doJSON (profile_GitHubAPI p) req (Some zero_repo);
      match jerror with
      | Some jerror =>
          if is_HTTPError_with jerror StatusNotFound then ret (false, None)
          else ret (false, err)
      | None => ret (true, None)
      end
  end.

Definition GetRepoIfExist (p : GitHubProfileAPI) (name : string)
  : M (option GitHubRepoAPI * option error) :=
  match newReq (profile_GitHubAPI p) "GET"
          ("/repos/" +:+ Login p +:+ "/" +:+ name) NoBody with
  | inl err => ret (None, Some err)
  | inr req =>
      let err : option error := None in
      '(jerror, out) ← doJSON (profile_GitHubAPI p) req (Some zero_repo);
      match jerror with
      | Some jerror =>
          if is_HTTPError_with jerror StatusNotFound
          then ret (None, Some (NewRepoNotFoundError name))
          else ret (None, err)
      | None => ret (Some (deref zero_repo out), None)
      end
  end.

(** *** repo.go *)

Definition humanizeInt (n : Z) : string :=
  if n >=? 1000000
  then Sprintf_f1 (float64_div (float64_of_int n) (float64_of_int 1000000)) +:+ "M"
  else if n >=? 1000
  then Sprintf_f1 (float64_div (float64_of_int n) (float64_of_int 1000)) +:+ "k"
  else FormatInt n.

(** [humanizeSince(t, now)]; [clock] is what [time.Now()] returns at the
    call. *)
Definition humanizeSince (clock : Time) (t now : Time) : string :=
  let now := if Time_IsZero now then clock else now in
  let d := Time_Sub now t in
  if d <? Minute then "just now"
  else if d <? Hour
  then FormatInt (float64_to_int (Duration_Minutes d)) +:+ " minutes ago"
  else if d <? 24 * Hour
  then FormatInt (float64_to_int (Duration_Hours d)) +:+ " hours ago"
  else
    let days := float64_to_int (float64_div (Duration_Hours d) (float64_of_int 24)) in
    if days <? 30 then FormatInt days +:+ " days ago"
    else
      let months := Z.quot days 30 in
      if months <? 12 then FormatInt months +:+ " months ago"
      else
        let years := Z.quot months 12 in
        FormatInt years +:+ " years ago".

Definition Stars (r : GitHubRepoAPI) : Z := StargazersCount r.
Definition StarsHuman (r : GitHubRepoAPI) : string := humanizeInt (StargazersCount r).
Definition ForksHuman (r : GitHubRepoAPI) : string := humanizeInt (ForksCount r).
Definition WatchersHuman (r : GitHubRepoAPI) : string := humanizeInt (Watchers r).

Definition PreferredCloneURL (r : GitHubRepoAPI) (ssh : bool) : string :=
  if ssh && negb (String.eqb (SSHURL r) "") then SSHURL r
  else if negb (String.eqb (CloneURL r) "") then CloneURL r
  else if negb (String.eqb (GitURL r) "") then GitURL r
  else HTMLURL r.

Definition IsPublic (r : GitHubRepoAPI) : bool :=
  negb (Private r) && EqualFold (Visibility r) "public".

Definition IsArchived (r : GitHubRepoAPI) : bool := Archived r.
Definition IsDisabled (r : GitHubRepoAPI) : bool := Disabled r.

Definition GetRepoTags (r : GitHubRepoAPI) : M (option (list string) * option error) :=
  match newReq (repo_GitHubAPI r) "GET"
          ("/repos/" +:+ PathEscape (owner_Login (Owner r)) +:+ "/"
             +:+ PathEscape (repo_Name r) +:+ "/tags") NoBody with
  | inl err => ret (None, Some err)
  | inr req =>
      '(err, out) ← doJSON (repo_GitHubAPI r) req (Some []);
      match err with
      | Some err => ret (None, Some err)
      | None => ret (Some (deref [] out), None)
      end
  end.

Definition pathEscapeSegments (p : string) : string :=
  Join (map PathEscape (Split_byte p "/")) "/".

(** The JSON object that [UploadMdFileWithToken] sends. *)
Definition upload_body (commitMsg content branch : string) : gmap string string :=
  let body : gmap string string :=
    <["content" := EncodeToString StdEncoding content]> (<["message" := commitMsg]> ∅) in
  if negb (String.eqb branch "") then <["branch" := branch]> body else body.

(** The name under which a (trimmed, non-empty) file name is uploaded:
    [.md] is appended unless the name already ends in it, whatever the
    case of the letters; then the leading slashes are cut. *)
Definition md_name (fn : string) : string :=
  let fn := if negb (HasSuffix (ToLower fn) ".md") then fn +:+ ".md" else fn in
  TrimLeft_byte fn "/".

Definition upload_path (r : GitHubRepoAPI) (fn : string) : string :=
  "/repos/" +:+ PathEscape (owner_Login (Owner r)) +:+ "/"
    +:+ PathEscape (repo_Name r) +:+ "/contents/" +:+ pathEscapeSegments fn.

Definition UploadMdFileWithToken (r : GitHubRepoAPI)
    (filename content commitMsg branch : string)
  : M (option CreateContentResp * option error) :=
  let fn := TrimSpace filename in
  if String.eqb fn "" then ret (None, Some (fmtError "filename is empty" []))
  else
    let fn := md_name fn in
    let commitMsg :=
      if String.eqb commitMsg "" then "chore: add " +:+ fn else commitMsg in
    let branch := if String.eqb branch "" then DefaultBranch r else branch in
    let body := upload_body commitMsg content branch in
    let reqPath := upload_path r fn in
    match newReq (repo_GitHubAPI r) "PUT" reqPath (JSONObject body) with
    | inl err => ret (None, Some err)
    | inr req =>
        let req := Header_Set req "Content-Type" "application/json" in
        let req :=
          if negb (String.eqb (accessToken (repo_GitHubAPI r)) "")
          then Header_Set req "Authorization"
                 ("Bearer " +:+ accessToken (repo_GitHubAPI r))
          else req in
        '(err, out) ← doJSON (repo_GitHubAPI r) req (Some zero_CreateContentResp);
        match err with
        | Some err =>
            if is_HTTPError_with err StatusUnprocessableEntity
            then ret (None, Some (fmtError "file %q already exists on branch %q: %s"
                                    [fn; branch; HTTPError_Body err]))
            else ret (None, Some err)
        | None => ret (Some (deref zero_CreateContentResp out), None)
        end
    end.

Definition UploadMdFile (r : GitHubRepoAPI) (filename content : string) : M (option error) :=
  '(_, err) ← UploadMdFileWithToken r filename content "" "";
  ret err.

(** [AuthURL]; [pkce] is [None] for a nil pointer.  The error is always
    nil. *)
Definition AuthURL (c : GitHubAPI) (username state : string) (scopes : list string)
    (allowSignup : bool) (pkce : option PKCE) : string * option error :=
  let v : Values := ∅ in
  let v := Values_Set v "client_id" (ClientID (oAuth c)) in
  let v := if negb (String.eqb (RedirectURI (oAuth c)) "")
           then Values_Set v "redirect_uri" (RedirectURI (oAuth c)) else v in
  let v := if negb (String.eqb state "") then Values_Set v "state" state else v in
  let v := if (0 <? length scopes)%nat
           then Values_Set v "scope" (Join scopes " ") else v in
  let v := if negb (String.eqb username "") then Values_Set v "login" username else v in
  let v := if negb allowSignup then Values_Set v "allow_signup" "false" else v in
  let v := match pkce with
           | Some pkce =>
               Values_Set (Values_Set v "code_challenge" (Challenge pkce))
                 "code_challenge_method" (PKCE_Method pkce)
           | None => v
           end in
  ("https://github.com/login/oauth/authorize?" +:+ Values_Encode v, None).

(** ** Vocabulary of the statements *)

(** The response [resp] is what the transport of [c] answers to [req] after
    the requests [sent]. *)
Definition answers (c : GitHubAPI) (sent : list Request) (req : Request)
    (resp : Response) : Prop :=
  exists d, http c = Some d /\ d sent req = inr resp.

Definition is_2xx (resp : Response) : bool :=
  (200 <=? StatusCode resp) && (StatusCode resp <? 300).

(** The body as [doJSON] reads it, capped at 1 MiB. *)
Definition capped_body (resp : Response) : string :=
  LimitReader (Body resp) (N.shiftl 1 20).

(** The request of method [method] for [path] is built, and the transport
    answers it with [resp]. *)
Definition replies (c : GitHubAPI) (sent : list Request) (method path : string)
    (resp : Response) : Prop :=
  exists req, newReq c method path NoBody = inr req /\ answers c sent req resp.

(** The request is a GET of [url] without a body, with the [Accept] header
    of the API, the user agent of [c] unless that is empty, and no other
    header. *)
Definition plain_get (c : GitHubAPI) (url : string) (req : Request) : Prop :=
  Method req = "GET" /\ URL req = url /\ ReqBody req = NoBody
  /\ Header req !! "Accept" = Some "application/vnd.github.v3+json"
  /\ Header req !! "User-Agent"
     = (if String.eqb (userAgent c) "" then None else Some (userAgent c))
  /\ forall k, k <> "Accept" -> k <> "User-Agent" -> Header req !! k = None.

(** The parameters that [AuthURL] sets, in the order of their keys. *)
Definition auth_params (c : GitHubAPI) (username state : string) (scopes : list string)
    (allowSignup : bool) (pkce : option PKCE) : list (string * string) :=
  (if allowSignup then [] else [("allow_signup", "false")])
  ++ [("client_id", ClientID (oAuth c))]
  ++ match pkce with
     | Some p => [("code_challenge", Challenge p); ("code_challenge_method", PKCE_Method p)]
     | None => []
     end
  ++ (if String.eqb username "" then [] else [("login", username)])
  ++ (if String.eqb (RedirectURI (oAuth c)) "" then []
      else [("redirect_uri", RedirectURI (oAuth c))])
  ++ match scopes with [] => [] | _ => [("scope", Join scopes " ")] end
  ++ (if String.eqb state "" then [] else [("state", state)]).

(** The profile with the timeout of its embedded client set to [t]. *)
Definition profile_timeout (t : Z) (out : outcome (option GitHubProfileAPI * option error))
  : outcome (option GitHubProfileAPI * option error) :=
  match out with
  | Ret (Some p, e) =>
      Ret (Some (profile_with_api p (WithTimeout t (profile_GitHubAPI p))), e)
  | o => o
  end.

(** The outcome of a computation started after the requests [sent]. *)
Definition result_of {A} (m : M A) (sent : list Request) : outcome A := fst (m sent).

(** The requests on the log once the computation has run. *)
Definition log_of {A} (m : M A) (sent : list Request) : list Request := snd (m sent).

(** What [doJSON] returns and leaves behind the pointer when the server
    answers [resp] and the target holds [v0]. *)
Definition decoded {T} `{JSONTarget T} (resp : Response) (v0 : T) : option error * T :=
  if is_2xx resp then
    if (String.length (capped_body resp) =? 0)%nat then (None, v0)
    else match Unmarshal (capped_body resp) v0 with
         | inl err => (Some err, v0)
         | inr v => (None, v)
         end
  else (Some (HTTPError (StatusCode resp) (capped_body resp)), v0).

(** The error of [doJSON] for a nil target. *)
Definition status_error (resp : Response) : option error :=
  if is_2xx resp then None
  else Some (HTTPError (StatusCode resp) (capped_body resp)).

(** The branch that the fetches take on an error of [doJSON]. *)
Definition translate_404 (not_found err : error) : error :=
  if is_HTTPError_with err StatusNotFound then not_found else err.

End Operations.
End githubapi.

(* ===================================================================== *)
(** * package main: the Telegram bot                                     *)
(* ===================================================================== *)

Module bot.
Import Go.

(** ** Models *)

Record GitHubUser := mkGitHubUser {
  Login : string;
  ID : Z;
  Name : string;
  Email : string;
  AvatarURL : string
}.

Record AuthSession := mkAuthSession {
  ChatID : Z;
  State : string;
  RequestedLogin : string
}.

(** The package never inspects the dynamic type of an error, it only prints
    it: an error is its message. *)
Inductive error := mkError (msg : string).

Definition Error (e : error) : string := let 'mkError m := e in m.

(** The anonymous struct that [exchangeCodeForToken] decodes into. *)
Record TokenResponse := mkTokenResponse {
  AccessToken : string;
  Scope : string;
  TokenType : string;
  tr_Error : string;
  ErrorDesc : string
}.

Record InlineButton := mkInlineButton {
  btn_Text : string;
  btn_URL : string
}.

(** ** Effects *)

(** What the handlers do to the outside, in order: a request through an
    [http.Client], a message through [bot.Send] to a chat, a reply through
    the [tb.Context] of a chat (with the inline button, if any), and a line
    of the log. *)
Inductive Event :=
| ClientDo (req : Request)
| BotSend (chat : Z) (text : string)
| CtxSend (chat : Z) (text : string) (button : option InlineButton)
| LogPrintf (line : string).

(** The globals: the session map guarded by [authMu], and the events so
    far, oldest first. *)
Record World := mkWorld {
  authSessions : gmap string AuthSession;
  events : list Event
}.

(** The configuration constants, the network behind [http.Client.Do] (its
    answer may depend on what happened before), the error of
    [http.NewRequest], the error of [io.ReadAll] on a response body,
    [json.Unmarshal] at the two types the package decodes to, and
    [strings.Map(unicode.ToLower, s)], the lowering of every rune by the
    Unicode tables. *)
Class Externals := {
  GITHUB_CLIENT_ID : string;
  GITHUB_CLIENT_SECRET : string;
  REDIRECT_URI : string;
  client_Do : list Event -> Request -> error + Response;
  NewRequest_error : string -> string -> option error;
  ReadAll_error : Response -> option error;
  Unmarshal_token : string -> TokenResponse -> error + TokenResponse;
  Unmarshal_user : string -> GitHubUser -> error + GitHubUser;
  Map_unicode_ToLower : string -> string
}.

Definition MB (A : Type) : Type := World -> A * World.

Definition ret {A} (a : A) : MB A := fun wd => (a, wd).

Definition bind {A B} (m : MB A) (k : A -> MB B) : MB B := fun wd =>
  let '(a, wd') := m wd in k a wd'.

#[export] Instance MB_ret : MRet MB := @ret.
#[export] Instance MB_bind : MBind MB := fun A B k m => bind m k.

Definition emit (e : Event) : MB unit := fun wd =>
  (tt, mkWorld (authSessions wd) (events wd ++ [e])).

(** [http.ResponseWriter]: the status written, if any, and the body. *)
Record ResponseWriter := mkResponseWriter {
  wroteHeader : option Z;
  written : string
}.

Definition new_ResponseWriter : ResponseWriter := mkResponseWriter None "".

Definition nl : string := String (ascii_of_nat 10) EmptyString.
Definition dq : string := String (ascii_of_nat 34) EmptyString.

Definition WriteHeader (w : ResponseWriter) (code : Z) : ResponseWriter :=
  match wroteHeader w with
  | None => mkResponseWriter (Some code) (written w)
  | Some _ => w
  end.

(** [w.Write]: the first write sends status 200 if none was written. *)
Definition Write (w : ResponseWriter) (text : string) : ResponseWriter :=
  let w := WriteHeader w StatusOK in
  mkResponseWriter (wroteHeader w) (written w +:+ text).

(** [http.Error(w, msg, code)]. *)
Definition http_Error (w : ResponseWriter) (msg : string) (code : Z) : ResponseWriter :=
  Write (WriteHeader w code) (msg +:+ nl).

(** The status the client receives: 200 when the handler wrote none. *)
Definition status_of (w : ResponseWriter) : Z :=
  match wroteHeader w with
  | Some c => c
  | None => StatusOK
  end.

(** ** Utils *)

Definition generateState (amb : Ambient) (chatID : Z) : string :=
  FormatInt chatID +:+ "_" +:+ FormatInt (UnixNano amb).

Definition emptyIf (s repl : string) : string :=
  if String.eqb (TrimSpace s) "" then repl else s.

Section Handlers.
Context {ext : Externals}.

Definition client_do (req : Request) : MB (error + Response) := fun wd =>
  (client_Do (events wd) req,
   mkWorld (authSessions wd) (events wd ++ [ClientDo req])).

(** [http.NewRequest]: the error of parsing the text [url], or the request
    built from it.  The field [URL] of the request keeps the text that was
    handed in; what goes over the wire is the re-encoding of that text by
    [net/url] (a space leaves as [%20], a fragment does not leave). *)
Definition NewRequest (method url : string) (body : Payload) : error + Request :=
  match NewRequest_error method url with
  | Some err => inl err
  | None => inr (mkRequest method url ∅ body)
  end.

(** ** GitHub *)

Definition checkUserExists (username : string) : MB (bool * option error) :=
  let url := "https://api.github.com/users/" +:+ username in
  match NewRequest "GET" url NoBody with
  | inl err => ret (false, Some err)
  | inr req =>
      let req := Header_Set req "Accept" "application/vnd.github.v3+json" in
      let req := Header_Set req "User-Agent" "TelegramBot/1.0" in
      r ← client_do req;
      match r with
      | inl err => ret (false, Some err)
      | inr resp =>
          if StatusCode resp =? StatusNotFound then ret (false, None)
          else ret (StatusCode resp =? StatusOK, None)
      end
  end.

Definition zero_TokenResponse : TokenResponse := mkTokenResponse "" "" "" "" "".

(** An ASCII byte that is neither white space nor the comma. *)
Definition scope_byte (c : ascii) : bool :=
  negb (asciiSpace c) && (byte_val c <? 128) && negb (eqb_byte c ",").

Definition parse_scopes (scope : string) : list string :=
  let s := TrimSpace scope in
  if String.eqb s "" then []
  else filter (fun p => p ≠ EmptyString) (map TrimSpace (Split_byte s ",")).

(** Either the error, or the token, the scopes and the token type (the Go
    function returns zero values beside a non-nil error). *)
Definition exchangeCodeForToken (code : string)
  : MB (error + string * list string * string) :=
  let data : gmap string string :=
    <["code" := code]> (<["client_secret" := GITHUB_CLIENT_SECRET]>
      (<["client_id" := GITHUB_CLIENT_ID]> ∅)) in
  match NewRequest "POST" "https://github.com/login/oauth/access_token"
          (FormValues data) with
  | inl err => ret (inl err)
  | inr req =>
      let req := Header_Set req "Content-Type" "application/x-www-form-urlencoded" in
      let req := Header_Set req "Accept" "application/json" in
      r ← client_do req;
      match r with
      | inl err => ret (inl err)
      | inr resp =>
          match ReadAll_error resp with
          | Some err => ret (inl err)
          | None =>
              match Unmarshal_token (Body resp) zero_TokenResponse with
              | inl err => ret (inl err)
              | inr r =>
                  if negb (String.eqb (tr_Error r) "") then
                    if negb (String.eqb (ErrorDesc r) "")
                    then ret (inl (mkError
                           ("GitHub error: " +:+ tr_Error r +:+ " (" +:+ ErrorDesc r +:+ ")")))
                    else ret (inl (mkError ("GitHub error: " +:+ tr_Error r)))
                  else ret (inr (AccessToken r, parse_scopes (Scope r), TokenType r))
              end
          end
      end
  end.

Definition zero_GitHubUser : GitHubUser := mkGitHubUser "" 0 "" "" "".

(** Either the error or the user: the Go function returns exactly one. *)
Definition getGitHubUser (accessToken : string) : MB (error + GitHubUser) :=
  match NewRequest "GET" "https://api.github.com/user" NoBody with
  | inl err => ret (inl err)
  | inr req =>
      let req := Header_Set req "Authorization" ("token " +:+ accessToken) in
      let req := Header_Set req "Accept" "application/vnd.github.v3+json" in
      r ← client_do req;
      match r with
      | inl err => ret (inl err)
      | inr resp =>
          match ReadAll_error resp with
          | Some err => ret (inl err)
          | None => ret (Unmarshal_user (Body resp) zero_GitHubUser)
          end
      end
  end.

(** ** Telegram flow *)

Definition handleUsernameInput (amb : Ambient) (chatID : Z) (username : string) : MB unit :=
  let username := TrimSpace username in
  '(exists_, err) ← checkUserExists username;
  match err with
  | Some err =>
      emit (CtxSend chatID ("⚠️ Ошибка при проверке: " +:+ Error err) None)
  | None =>
      if negb exists_
      then emit (CtxSend chatID
                   ("❌ Пользователь @" +:+ username +:+ " не найден на GitHub") None)
      else
        let state := generateState amb chatID in
        (* authMu.Lock() ... authMu.Unlock() *)
        _ ← (fun wd => (tt, mkWorld
               (<[state := mkAuthSession chatID state username]> (authSessions wd))
               (events wd)));
        let authURL :=
          "https://github.com/login/oauth/authorize?client_id=" +:+ GITHUB_CLIENT_ID
            +:+ "&redirect_uri=" +:+ QueryEscape REDIRECT_URI
            +:+ "&state=" +:+ state +:+ "&scope=user:email" in
        let btn := mkInlineButton "🔐 Подтвердить владение через GitHub" authURL in
        emit (CtxSend chatID
                ("Для подтверждения владения аккаунтом @" +:+ username
                   +:+ " нажми на кнопку ниже:") (Some btn))
  end.

(** The handler of [/start]. *)
Definition onStart (chatID : Z) : MB unit :=
  emit (CtxSend chatID
          "Привет! Отправь мне свой GitHub username для верификации владения аккаунтом."
          None).

(** The handler of [/verify]. *)
Definition onVerify (amb : Ambient) (chatID : Z) (args : list string) : MB unit :=
  match args with
  | [] => emit (CtxSend chatID "Использование: /verify <github_username>" None)
  | a :: _ => handleUsernameInput amb chatID a
  end.

(** The handler of [tb.OnText]. *)
Definition onText (amb : Ambient) (chatID : Z) (message : string) : MB unit :=
  let text := TrimSpace message in
  if HasPrefix text "/" || String.eqb text "" then ret tt
  else handleUsernameInput amb chatID text.

(** ** HTTP callback *)

Definition mismatch_message (requested authorized : string) : string :=
  "❌ Ошибка верификации!" +:+ nl +:+ nl +:+ "Запрашивался: @" +:+ requested
    +:+ nl +:+ "Авторизован: @" +:+ authorized +:+ nl +:+ nl
    +:+ "Пожалуйста, авторизуйтесь под правильным аккаунтом.".

Definition success_message (user : GitHubUser) : string :=
  "✅ Владение аккаунтом подтверждено!" +:+ nl +:+ nl
    +:+ "👤 Имя: " +:+ emptyIf (Name user) "—" +:+ nl
    +:+ "🔗 GitHub: @" +:+ Login user +:+ nl
    +:+ "📧 Email: " +:+ emptyIf (Email user) "—" +:+ nl
    +:+ "🆔 ID: " +:+ FormatInt (ID user).

Definition failure_page : string :=
  nl +:+ "<html>" +:+ nl
    +:+ "<head><title>Ошибка верификации</title></head>" +:+ nl
    +:+ "<body>" +:+ nl
    +:+ "<h1>❌ Ошибка верификации</h1>" +:+ nl
    +:+ "<p>Авторизован неправильный аккаунт. Закройте страницу и попробуйте снова.</p>" +:+ nl
    +:+ "</body>" +:+ nl
    +:+ "</html>".

Definition success_page (login : string) : string :=
  nl +:+ "<html>" +:+ nl
    +:+ "<head><title>Верификация успешна</title></head>" +:+ nl
    +:+ "<body style=" +:+ dq
    +:+ "font-family: Arial, sans-serif; text-align: center; margin-top: 50px;"
    +:+ dq +:+ ">" +:+ nl
    +:+ "<h1 style=" +:+ dq +:+ "color: green;" +:+ dq
    +:+ ">✅ Владение аккаунтом подтверждено!</h1>" +:+ nl
    +:+ "<p>Аккаунт <strong>@" +:+ login +:+ "</strong> успешно верифицирован.</p>" +:+ nl
    +:+ "<p>Можете закрыть эту страницу и вернуться в Telegram.</p>" +:+ nl
    +:+ "</body>" +:+ nl
    +:+ "</html>".

(** The critical section of the handler, between [authMu.Lock()] and
    [authMu.Unlock()]: the lookup of the session and, if it is there, its
    removal.  The mutex makes it one step for every other goroutine. *)
Definition lookup_and_delete (state : string) : MB (option AuthSession) := fun wd =>
  match authSessions wd !! state with
  | Some session =>
      (Some session, mkWorld (delete state (authSessions wd)) (events wd))
  | None => (None, wd)
  end.

(** The handler up to the end of the critical section: the response of a
    rejected request, or the session it took. *)
Definition callback_entry (w : ResponseWriter) (code state : string)
  : MB (ResponseWriter + AuthSession) :=
  if String.eqb code "" || String.eqb state ""
  then ret (inl (http_Error w "Missing code or state" StatusBadRequest))
  else
    s ← lookup_and_delete state;
    match s with
    | None => ret (inl (http_Error w "Invalid state" StatusBadRequest))
    | Some session => ret (inr session)
    end.

(** [strings.ToLower] in full: text without a byte from 0x80 on takes the
    ASCII path, which lowers the letters [A] to [Z]; any other text is
    mapped rune by rune with [unicode.ToLower]. *)
Definition strings_ToLower (s : string) : string :=
  if isASCII s then ToLower s else Map_unicode_ToLower s.

(** The comparison of the two logins in the handler. *)
Definition same_login (a b : string) : bool :=
  String.eqb (strings_ToLower a) (strings_ToLower b).

(** The rest of the handler, which no longer reads the session map. *)
Definition callback_verify (w : ResponseWriter) (code : string) (session : AuthSession)
  : MB ResponseWriter :=
  tok ← exchangeCodeForToken code;
  match tok with
  | inl err =>
      _ ← emit (LogPrintf ("exchange error: " +:+ Error err));
      let w := http_Error w "Authentication failed" StatusInternalServerError in
      _ ← emit (BotSend (ChatID session) "❌ Ошибка авторизации");
      ret w
  | inr (accessToken, scopeSlice, tokenType) =>
      u ← getGitHubUser accessToken;
      match u with
      | inl err =>
          _ ← emit (LogPrintf ("user info error: " +:+ Error err));
          let w := http_Error w "Failed to get user info" StatusInternalServerError in
          _ ← emit (BotSend (ChatID session)
                      "❌ Не удалось получить информацию о пользователе");
          ret w
      | inr user =>
          if negb (same_login (Login user) (RequestedLogin session)) then
            _ ← emit (BotSend (ChatID session)
                        (mismatch_message (RequestedLogin session) (Login user)));
            ret (Write w failure_page)
          else
            _ ← emit (BotSend (ChatID session) (success_message user));
            _ ← emit (LogPrintf ("User verified: " +:+ Login user +:+ " (ID: "
                        +:+ FormatInt (ID user) +:+ ", Chat: "
                        +:+ FormatInt (ChatID session) +:+ ")"));
            ret (Write w (success_page (Login user)))
      end
  end.

Definition handleGitHubCallback (w : ResponseWriter) (code state : string)
  : MB ResponseWriter :=
  r ← callback_entry w code state;
  match r with
  | inl w' => ret w'
  | inr session => callback_verify w code session
  end.

(** ** Callbacks served concurrently *)

(** The HTTP server runs each callback in a goroutine of its own.  A
    goroutine is followed through the two parts of the handler: it has
    [Arrived]; after the critical section it is [Holding] the session it
    took, or it was [Rejected]; a holder ends [Served]. *)
Inductive Thread :=
| Arrived (code state : string)
| Holding (code state : string) (session : AuthSession)
| Rejected (w : ResponseWriter)
| Served (state : string) (session : AuthSession) (w : ResponseWriter).

Definition after_entry (code state : string) (r : ResponseWriter + AuthSession) : Thread :=
  match r with
  | inl w => Rejected w
  | inr session => Holding code state session
  end.

(** One step of the system: some goroutine runs the next part of its
    handler.  The first part is atomic for the session map because of the
    mutex; the second part does not touch the map. *)
Inductive step : World * list Thread -> World * list Thread -> Prop :=
| step_entry wd pool i code state r wd' :
    pool !! i = Some (Arrived code state) ->
    callback_entry new_ResponseWriter code state wd = (r, wd') ->
    step (wd, pool) (wd', <[i := after_entry code state r]> pool)
| step_verify wd pool i code state session w wd' :
    pool !! i = Some (Holding code state session) ->
    callback_verify new_ResponseWriter code session wd = (w, wd') ->
    step (wd, pool) (wd', <[i := Served state session w]> pool).

Definition is_Arrived (t : Thread) : Prop :=
  match t with
  | Arrived _ _ => True
  | _ => False
  end.

(** The goroutine got the session of token [st]. *)
Definition took (st : string) (t : Thread) : Prop :=
  match t with
  | Holding _ st' _ | Served st' _ _ => st' = st
  | _ => False
  end.

(** ** Vocabulary of the statements *)

(** The state token draws on the random source: two surroundings that
    agree on the clock can give different tokens to the same chat. *)
Definition token_uses_entropy : Prop :=
  exists (amb1 amb2 : Ambient) (chatID : Z),
    UnixNano amb1 = UnixNano amb2
    /\ generateState amb1 chatID <> generateState amb2 chatID.

Fixpoint contains (c : ascii) (s : string) : bool :=
  match s with
  | EmptyString => false
  | String a s' => eqb_byte a c || contains c s'
  end.

(** What holds of every state the system reaches from [wd0], where no
    goroutine had taken a session yet. *)
Definition consumed_once (wd0 : World) (sys : World * list Thread) : Prop :=
  let '(wd, pool) := sys in
  authSessions wd ⊆ authSessions wd0
  /\ (forall st i t, pool !! i = Some t -> took st t ->
        is_Some (authSessions wd0 !! st) /\ authSessions wd !! st = None)
  /\ (forall st i j ti tj,
        pool !! i = Some ti -> pool !! j = Some tj ->
        took st ti -> took st tj -> i = j)
  /\ (forall i w, pool !! i = Some (Rejected w) -> status_of w = StatusBadRequest).

(** The messages sent through [bot.Send], oldest first: chat and text. *)
Fixpoint bot_sends (evs : list Event) : list (Z * string) :=
  match evs with
  | [] => []
  | BotSend chat text :: evs' => (chat, text) :: bot_sends evs'
  | _ :: evs' => bot_sends evs'
  end.

(** The replies sent through a [tb.Context], oldest first. *)
Fixpoint ctx_sends (evs : list Event) : list (Z * string * option InlineButton) :=
  match evs with
  | [] => []
  | CtxSend chat text button :: evs' => (chat, text, button) :: ctx_sends evs'
  | _ :: evs' => ctx_sends evs'
  end.

(** The request that [checkUserExists] builds. *)
Definition user_check_request (username : string) : Request :=
  Header_Set (Header_Set
    (mkRequest "GET" ("https://api.github.com/users/" +:+ username) ∅ NoBody)
    "Accept" "application/vnd.github.v3+json") "User-Agent" "TelegramBot/1.0".

(** The link behind the button of the verification message. *)
Definition authorize_link (state : string) : string :=
  "https://github.com/login/oauth/authorize?client_id=" +:+ GITHUB_CLIENT_ID
    +:+ "&redirect_uri=" +:+ QueryEscape REDIRECT_URI
    +:+ "&state=" +:+ state +:+ "&scope=user:email".

(** The events that are requests to GitHub. *)
Definition requests (reqs : list Request) : list Event := map ClientDo reqs.

End Handlers.
End bot.

(* ===================================================================== *)
(** * Test doubles                                                        *)
(* ===================================================================== *)

(** A mocked GitHub for the concrete runs: every request is accepted and
    answered with one canned response; decoding refuses the body
    ["not json"] and otherwise stores the body in the name of the decoded
    object. *)
Module Mock.
Import Go githubapi.

Definition canned (resp : Response) : Doer := fun _ _ => inr resp.

Definition decode {T} (store : string -> T -> T) (b : string) (v : T) : error + T :=
  if String.eqb b "not json" then inl (foreignError "invalid character") else inr (store b v).

#[export] Instance externals : Externals := {|
  NewRequest_error := fun _ _ => None;
  sha256_Sum256 := fun s => s;
  Unmarshal_profile := decode (fun b p =>
    mkProfile (profile_GitHubAPI p) b (ID p) (Name p) (Email p) (PublicRepos p)
      (Followers p) (Following p));
  Unmarshal_repo := decode (fun b r =>
    mkRepo (repo_GitHubAPI r) (repo_ID r) b (FullName r) (Private r) (Owner r)
      (HTMLURL r) (GitURL r) (SSHURL r) (CloneURL r) (StargazersCount r)
      (ForksCount r) (Watchers r) (Archived r) (Disabled r) (Visibility r)
      (DefaultBranch r));
  Unmarshal_repos := decode (fun _ l => l);
  Unmarshal_tags := decode (fun b l => b :: l);
  Unmarshal_content := decode (fun _ c => c)
|}.

(** [WithOptions(WithHTTP(mock))]. *)
Definition client (resp : Response) : GitHubAPI :=
  WithOptions (fun _ => canned resp) [WithHTTP (canned resp)].

(** The profile of login [login] as a fetch through [client resp] returns it. *)
Definition profile (login : string) (resp : Response) : GitHubProfileAPI :=
  mkProfile (client resp) login 109586143 "" None 0 0 0.

(** A repository as decoded from GitHub, given the client [mock]. *)
Definition repo (resp : Response) : GitHubRepoAPI :=
  mkRepo (client resp) 984280187 "Annuum" "DilemaFixer/Annuum" false
    (mkRepoOwner "DilemaFixer" 109586143) "https://github.com/DilemaFixer/Annuum"
    "git://github.com/DilemaFixer/Annuum.git" "git@x" "https://x" 1500 3 2500000
    false false "public" "main".

End Mock.

(** A mocked GitHub for the bot: every request is answered 200; the token
    endpoint grants the token ["gho_token"], the user endpoint returns the
    account [account].  A URL with a [%] that two hexadecimal digits do not
    follow is refused, as [net/url] refuses it.  The Unicode lowering knows
    the capital letters of Latin-1 and the Kelvin and Angstrom signs. *)
Module MockBot.
Import Go bot.

Definition is_hex (c : ascii) : bool :=
  in_range "0" "9" c || in_range "a" "f" c || in_range "A" "F" c.

Fixpoint bad_escape (url : string) : bool :=
  match url with
  | EmptyString => false
  | String c rest =>
      if eqb_byte c "%" then
        match rest with
        | String a (String b rest') => negb (is_hex a && is_hex b) || bad_escape rest'
        | _ => true
        end
      else bad_escape rest
  end.

Fixpoint lower_runes (s : string) : string :=
  match s with
  | EmptyString => EmptyString
  | String a r =>
      match r with
      | String b r' =>
          if (byte_val a =? 195) && (128 <=? byte_val b) && (byte_val b <=? 158)
             && negb (byte_val b =? 151)
          then String a (String (byte_of (byte_val b + 32)) (lower_runes r'))
          else
            match r' with
            | String c r'' =>
                if (byte_val a =? 226) && (byte_val b =? 132) && (byte_val c =? 170)
                then String "k" (lower_runes r'')
                else if (byte_val a =? 226) && (byte_val b =? 132) && (byte_val c =? 171)
                then String (byte_of 195) (String (byte_of 165) (lower_runes r''))
                else String (lower_byte a) (lower_runes r)
            | EmptyString => String (lower_byte a) (lower_runes r)
            end
      | EmptyString => String (lower_byte a) EmptyString
      end
  end.

#[export] Instance externals (account : GitHubUser) : Externals := {|
  GITHUB_CLIENT_ID := "client-id";
  GITHUB_CLIENT_SECRET := "client-secret";
  REDIRECT_URI := "http://localhost:8080/callback";
  client_Do := fun _ _ => inr (mkResponse 200 "{}");
  NewRequest_error := fun _ url =>
    if bad_escape url then Some (mkError "invalid URL escape") else None;
  ReadAll_error := fun _ => None;
  Unmarshal_token := fun _ _ => inr (mkTokenResponse "gho_token" "user:email" "bearer" "" "");
  Unmarshal_user := fun _ _ => inr account;
  Map_unicode_ToLower := lower_runes
|}.

Definition Foo : GitHubUser := mkGitHubUser "Foo" 109586143 "" "" "".

Definition session_foo : AuthSession := mkAuthSession 42 "42_1700000000000000000" "foo".
Definition session_bar : AuthSession := mkAuthSession 42 "42_1700000000000000000" "bar".

Definition world (session : AuthSession) : World :=
  mkWorld {[ State session := session ]} [].

End MockBot.

(* ===================================================================== *)
(** * The library models on known values                                 *)
(* ===================================================================== *)

Section GoChecks.
Import Go.

(** The test vectors of RFC 4648, section 10, and the unpadded URL form. *)
Example base64_rfc4648 :
  map (EncodeToString StdEncoding) ["f"; "fo"; "foo"; "foob"; "fooba"; "foobar"]
  = ["Zg=="; "Zm8="; "Zm9v"; "Zm9vYg=="; "Zm9vYmE="; "Zm9vYmFy"]
  /\ EncodeToString StdEncoding "" = ""
  /\ EncodeToString RawURLEncoding "fo" = "Zm8".
Proof. repeat split; vm_compute; reflexivity. Qed.

Example FormatInt_samples :
  FormatInt 0 = "0" /\ FormatInt 109586143 = "109586143" /\ FormatInt (- 42) = "-42".
Proof. repeat split; reflexivity. Qed.

(** Blanks, U+00A0 and U+2003 are trimmed; U+200B is not a space. *)
Example TrimSpace_samples :
  let nbsp := String (byte_of 194) (String (byte_of 160) "") in
  let emsp := String (byte_of 226) (String (byte_of 128) (String (byte_of 131) "")) in
  let zwsp := String (byte_of 226) (String (byte_of 128) (String (byte_of 139) "")) in
  TrimSpace (nbsp +:+ " a b " +:+ emsp +:+ " ") = "a b"
  /\ TrimSpace "   " = ""
  /\ TrimSpace (zwsp +:+ "x") = zwsp +:+ "x".
Proof. repeat split; vm_compute; reflexivity. Qed.

Example escape_samples :
  PathEscape "a b/c:d,e?f@g" = "a%20b%2Fc:d%2Ce%3Ff@g"
  /\ QueryEscape "http://localhost:8080/callback?x=a b"
     = "http%3A%2F%2Flocalhost%3A8080%2Fcallback%3Fx%3Da+b".
Proof. repeat split; vm_compute; reflexivity. Qed.

(** [%.1f] rounds the binary value: 0.25 and 0.75 are exact and go to the
    even tenth, 0.35 is stored just below and 0.15 just below as well. *)
Example Sprintf_f1_samples :
  map (fun n => Sprintf_f1 (float64_div (float64_of_int n) (float64_of_int 100)))
      [25; 75; 35; 15; 100; 0; - 25]
  = ["0.2"; "0.8"; "0.3"; "0.1"; "1.0"; "0.0"; "-0.2"].
Proof. vm_compute. reflexivity. Qed.

End GoChecks.

(* ===================================================================== *)
(** * Properties of the API client core                                  *)
(* ===================================================================== *)

Section ClientCore.
Import Go githubapi.
Context {ext : Externals}.

Lemma doJSON_answer {T} `{JSONTarget T} c sent req resp (v0 : T) :
  answers c sent req resp ->
  doJSON c req (Some v0) sent =
    (Ret ((decoded resp v0).1, Some (decoded resp v0).2), sent ++ [req]).
Proof.
  intros (d & Hd & Hresp).
  unfold doJSON, http_Do, mbind, M_bind, bind, ret, decoded, is_2xx, capped_body.
  rewrite Hd, Hresp.
  destruct (Z.ltb_spec (StatusCode resp) 200), (Z.geb_spec (StatusCode resp) 300),
    (Z.leb_spec 200 (StatusCode resp)), (Z.ltb_spec (StatusCode resp) 300);
    try lia; simpl; try reflexivity.
  destruct (String.length _ =? 0)%nat; [reflexivity|].
  destruct (Unmarshal _ v0); reflexivity.
Qed.

Lemma doJSON_nil_answer {T} `{JSONTarget T} c sent req resp :
  answers c sent req resp ->
  doJSON (T := T) c req None sent = (Ret (status_error resp, None), sent ++ [req]).
Proof.
  intros (d & Hd & Hresp).
  unfold doJSON, http_Do, mbind, M_bind, bind, ret, status_error, is_2xx, capped_body.
  rewrite Hd, Hresp.
  destruct (Z.ltb_spec (StatusCode resp) 200), (Z.geb_spec (StatusCode resp) 300),
    (Z.leb_spec 200 (StatusCode resp)), (Z.ltb_spec (StatusCode resp) 300);
    try lia; simpl; reflexivity.
Qed.

Lemma doJSON_sends {T} `{JSONTarget T} c sent req (out : option T) d :
  http c = Some d ->
  exists a, doJSON c req out sent = (Ret a, sent ++ [req]).
Proof.
  intros Hd. unfold doJSON, http_Do, mbind, M_bind, bind, ret. rewrite Hd.
  destruct (d sent req) as [e|resp]; [eexists; reflexivity|].
  destruct ((StatusCode resp <? 200) || (StatusCode resp >=? 300));
    [eexists; reflexivity|].
  destruct out as [v|]; [|eexists; reflexivity].
  destruct (String.length _ =? 0)%nat; [eexists; reflexivity|].
  destruct (Unmarshal _ v); eexists; reflexivity.
Qed.

Lemma run_bind {A B} (m : M A) (k : A -> M B) sent a sent' :
  m sent = (Ret a, sent') -> (x ← m; k x) sent = k a sent'.
Proof. unfold mbind, M_bind, bind. intros ->. reflexivity. Qed.

(** Runs a fetch whose request is built and answered. *)
Ltac run_fetch Hreq Hans :=
  rewrite Hreq;
  first [ erewrite run_bind by (apply doJSON_answer; exact Hans)
        | erewrite run_bind by (apply doJSON_nil_answer; exact Hans) ];
  simpl.

Lemma GetUserIfExists_reply c sent username resp :
  TrimSpace username <> "" ->
  replies c sent "GET" ("/users/" +:+ PathEscape (TrimSpace username)) resp ->
  result_of (GetUserIfExists c username) sent
  = Ret (match decoded resp zero_profile with
         | (Some err, _) =>
             (None, Some (translate_404 (ProfileNotFoundError (TrimSpace username)) err))
         | (None, p) =>
             (Some (profile_with_api p (applyFrom (profile_GitHubAPI p) c)), None)
         end).
Proof.
  intros Hne (req & Hreq & Hans).
  unfold result_of, GetUserIfExists, translate_404.
  apply String.eqb_neq in Hne. rewrite Hne. run_fetch Hreq Hans.
  destruct (decoded resp zero_profile) as [[err|] p]; simpl; [|reflexivity].
  destruct (is_HTTPError_with err StatusNotFound); reflexivity.
Qed.

Lemma GetUserByIdIfExist_reply c sent id resp :
  replies c sent "GET" ("/user/" +:+ PathEscape (FormatInt id)) resp ->
  result_of (GetUserByIdIfExist c id) sent
  = Ret (match decoded resp zero_profile with
         | (Some err, _) =>
             (None, Some (translate_404 (ProfileNotFoundError (FormatInt id)) err))
         | (None, p) =>
             (Some (profile_with_api p (applyFrom (profile_GitHubAPI p) c)), None)
         end).
Proof.
  intros (req & Hreq & Hans).
  unfold result_of, GetUserByIdIfExist, translate_404. run_fetch Hreq Hans.
  destruct (decoded resp zero_profile) as [[err|] p]; simpl; [|reflexivity].
  destruct (is_HTTPError_with err StatusNotFound); reflexivity.
Qed.

Lemma GetRepoByIdIfExist_reply c sent id resp :
  replies c sent "GET" ("/repositories/" +:+ PathEscape (FormatInt id)) resp ->
  result_of (GetRepoByIdIfExist c id) sent
  = Ret (match decoded resp zero_repo with
         | (Some err, _) =>
             (None, Some (translate_404 (RepoNotFoundError (FormatInt id)) err))
         | (None, r) => (Some r, None)
         end).
Proof.
  intros (req & Hreq & Hans).
  unfold result_of, GetRepoByIdIfExist, translate_404. run_fetch Hreq Hans.
  destruct (decoded resp zero_repo) as [[err|] r]; simpl; [|reflexivity].
  destruct (is_HTTPError_with err StatusNotFound); reflexivity.
Qed.

Lemma GetRepoIfExist_reply p sent name resp :
  replies (profile_GitHubAPI p) sent "GET" ("/repos/" +:+ Login p +:+ "/" +:+ name) resp ->
  result_of (GetRepoIfExist p name) sent
  = Ret (match decoded resp zero_repo with
         | (Some err, _) =>
             if is_HTTPError_with err StatusNotFound
             then (None, Some (RepoNotFoundError name)) else (None, None)
         | (None, r) => (Some r, None)
         end).
Proof.
  intros (req & Hreq & Hans).
  unfold result_of, GetRepoIfExist. run_fetch Hreq Hans.
  destruct (decoded resp zero_repo) as [[err|] r]; simpl; [|reflexivity].
  destruct (is_HTTPError_with err StatusNotFound); reflexivity.
Qed.

Lemma CheckUserExists_reply c sent username resp :
  TrimSpace username <> "" ->
  replies c sent "GET" ("/users/" +:+ PathEscape (TrimSpace username)) resp ->
  result_of (CheckUserExists c username) sent
  = Ret (match status_error resp with
         | Some err =>
             if is_HTTPError_with err StatusNotFound then (false, None)
             else (false, Some err)
         | None => (true, None)
         end).
Proof.
  intros Hne (req & Hreq & Hans).
  unfold result_of, CheckUserExists.
  apply String.eqb_neq in Hne. rewrite Hne. run_fetch Hreq Hans.
  destruct (status_error resp) as [err|]; simpl; [|reflexivity].
  destruct (is_HTTPError_with err StatusNotFound); reflexivity.
Qed.

Lemma CheckUserExistsById_reply c sent id resp :
  replies c sent "GET" ("/user/" +:+ PathEscape (FormatInt id)) resp ->
  result_of (CheckUserExistsById c id) sent
  = Ret (match status_error resp with
         | Some err =>
             if is_HTTPError_with err StatusNotFound then (false, None)
             else (false, Some err)
         | None => (true, None)
         end).
Proof.
  intros (req & Hreq & Hans).
  unfold result_of, CheckUserExistsById. run_fetch Hreq Hans.
  destruct (status_error resp) as [err|]; simpl; [|reflexivity].
  destruct (is_HTTPError_with err StatusNotFound); reflexivity.
Qed.

Lemma CheckIsRepoExistsById_reply c sent id resp :
  replies c sent "GET" ("/repositories/" +:+ PathEscape (FormatInt id)) resp ->
  result_of (CheckIsRepoExistsById c id) sent
  = Ret (match (decoded resp zero_repo).1 with
         | Some err => if is_HTTPError_with err StatusNotFound then (false, None)
                       else (true, None)
         | None => (true, None)
         end).
Proof.
  intros (req & Hreq & Hans).
  unfold result_of, CheckIsRepoExistsById. run_fetch Hreq Hans.
  destruct (decoded resp zero_repo) as [[err|] r]; simpl; [|reflexivity].
  destruct (is_HTTPError_with err StatusNotFound); reflexivity.
Qed.

Lemma IsRepoExist_reply p sent name resp :
  replies (profile_GitHubAPI p) sent "GET" ("/repos/" +:+ Login p +:+ "/" +:+ name) resp ->
  result_of (IsRepoExist p name) sent
  = Ret (match (decoded resp zero_repo).1 with
         | Some err => (false, None)
         | None => (true, None)
         end).
Proof.
  intros (req & Hreq & Hans).
  unfold result_of, IsRepoExist. run_fetch Hreq Hans.
  destruct (decoded resp zero_repo) as [[err|] r]; simpl; [|reflexivity].
  destruct (is_HTTPError_with err StatusNotFound); reflexivity.
Qed.

(** A response outside 2xx makes [doJSON] return the typed HTTP error. *)
Lemma decoded_non_2xx {T} `{JSONTarget T} resp (v0 : T) :
  is_2xx resp = false ->
  decoded resp v0 = (Some (HTTPError (StatusCode resp) (capped_body resp)), v0).
Proof. unfold decoded. intros ->. reflexivity. Qed.

Lemma status_error_non_2xx resp :
  is_2xx resp = false ->
  status_error resp = Some (HTTPError (StatusCode resp) (capped_body resp)).
Proof. unfold status_error. intros ->. reflexivity. Qed.

Lemma is_2xx_404 resp : StatusCode resp = StatusNotFound -> is_2xx resp = false.
Proof. unfold is_2xx, StatusNotFound. intros ->. reflexivity. Qed.

(** C7. A 404 answer to a profile or repository fetch comes back as the
    not-found error of that kind of resource, holding the identifier that
    was asked for: the (trimmed) username, the repository name, or the
    decimal rendering of the numeric id; the two kinds of not-found error
    differ from each other and from the generic HTTP error; and every
    existence check answers false, without an error, to a 404. *)
Theorem not_found_is_typed (c : GitHubAPI) (p : GitHubProfileAPI)
    (sent : list Request) (resp : Response) (username name : string) (id : Z) :
  StatusCode resp = StatusNotFound ->
  (TrimSpace username <> "" ->
   replies c sent "GET" ("/users/" +:+ PathEscape (TrimSpace username)) resp ->
   result_of (GetUserIfExists c username) sent
     = Ret (None, Some (ProfileNotFoundError (TrimSpace username)))
   /\ result_of (CheckUserExists c username) sent = Ret (false, None))
  /\ (replies c sent "GET" ("/user/" +:+ PathEscape (FormatInt id)) resp ->
      result_of (GetUserByIdIfExist c id) sent
        = Ret (None, Some (ProfileNotFoundError (FormatInt id)))
      /\ result_of (CheckUserExistsById c id) sent = Ret (false, None))
  /\ (replies c sent "GET" ("/repositories/" +:+ PathEscape (FormatInt id)) resp ->
      result_of (GetRepoByIdIfExist c id) sent
        = Ret (None, Some (RepoNotFoundError (FormatInt id)))
      /\ result_of (CheckIsRepoExistsById c id) sent = Ret (false, None))
  /\ (replies (profile_GitHubAPI p) sent "GET"
        ("/repos/" +:+ Login p +:+ "/" +:+ name) resp ->
      result_of (GetRepoIfExist p name) sent
        = Ret (None, Some (RepoNotFoundError name))
      /\ result_of (IsRepoExist p name) sent = Ret (false, None))
  /\ (forall a b code body,
        ProfileNotFoundError a <> RepoNotFoundError b
        /\ ProfileNotFoundError a <> HTTPError code body
        /\ RepoNotFoundError b <> HTTPError code body).
Proof.
  intros H404. pose proof (is_2xx_404 _ H404) as Hno.
  assert (Hnf : forall e, is_HTTPError_with
            (HTTPError (StatusCode resp) e) StatusNotFound = true).
  { intros e. simpl. rewrite H404. reflexivity. }
  repeat split; try discriminate.
  - erewrite GetUserIfExists_reply by eassumption.
    rewrite decoded_non_2xx by assumption. unfold translate_404.
    rewrite Hnf. reflexivity.
  - erewrite CheckUserExists_reply by eassumption.
    rewrite status_error_non_2xx by assumption. rewrite Hnf. reflexivity.
  - erewrite GetUserByIdIfExist_reply by eassumption.
    rewrite decoded_non_2xx by assumption. unfold translate_404.
    rewrite Hnf. reflexivity.
  - erewrite CheckUserExistsById_reply by eassumption.
    rewrite status_error_non_2xx by assumption. rewrite Hnf. reflexivity.
  - erewrite GetRepoByIdIfExist_reply by eassumption.
    rewrite decoded_non_2xx by assumption. unfold translate_404.
    rewrite Hnf. reflexivity.
  - erewrite CheckIsRepoExistsById_reply by eassumption.
    rewrite decoded_non_2xx by assumption. cbn [fst]. rewrite Hnf. reflexivity.
  - erewrite GetRepoIfExist_reply by eassumption.
    rewrite decoded_non_2xx by assumption. rewrite Hnf. reflexivity.
  - erewrite IsRepoExist_reply by eassumption.
    rewrite decoded_non_2xx by assumption. reflexivity.
Qed.

Lemma LimitReader_empty body n :
  (0 < n)%N -> LimitReader body n = "" <-> body = "".
Proof.
  intros Hn. destruct body as [|ch rest]; simpl; [tauto|].
  destruct (N.eqb_spec n 0); [lia|]. split; discriminate.
Qed.

Lemma capped_body_empty resp : capped_body resp = "" <-> Body resp = "".
Proof. apply LimitReader_empty. reflexivity. Qed.

Lemma length_zero_empty (b : string) : (String.length b =? 0)%nat = true <-> b = "".
Proof. destruct b; simpl; split; congruence. Qed.

Lemma doJSON_any_answer {T} `{JSONTarget T} c sent req resp (out : option T) :
  answers c sent req resp ->
  doJSON c req out sent =
    (Ret (match out with
          | Some v0 => ((decoded resp v0).1, Some (decoded resp v0).2)
          | None => (status_error resp, None)
          end), sent ++ [req]).
Proof.
  intros Hans. destruct out.
  - apply doJSON_answer, Hans.
  - apply doJSON_nil_answer, Hans.
Qed.

(** C10. On a 2xx answer, [doJSON] with a nil target or an empty (capped)
    body returns no error and leaves the target as it was, whatever the
    decoder for the target type is: the decoder is not consulted.  Hence an
    error of [doJSON] on an answered request is either the HTTP error of a
    non-2xx status or the decoder's error on a 2xx answer with a non-empty
    body and a non-nil target.  And a repository fetch answered by a 2xx
    with an empty body succeeds with the zero-valued object. *)
Theorem doJSON_skips_decoding {T} (decoder : JSONTarget T) (c : GitHubAPI)
    (sent : list Request) (req : Request) (resp : Response) (out : option T) :
  answers c sent req resp ->
  (is_2xx resp = true -> out = None \/ capped_body resp = "" ->
   doJSON c req out sent = (Ret (None, out), sent ++ [req]))
  /\ (forall err out' sent',
        doJSON c req out sent = (Ret (Some err, out'), sent') ->
        (is_2xx resp = false /\ err = HTTPError (StatusCode resp) (capped_body resp))
        \/ (is_2xx resp = true /\ capped_body resp <> ""
            /\ exists v, out = Some v /\ Unmarshal (capped_body resp) v = inl err))
  /\ (forall c' sent' id,
        is_2xx resp = true -> Body resp = "" ->
        replies c' sent' "GET" ("/repositories/" +:+ PathEscape (FormatInt id)) resp ->
        result_of (GetRepoByIdIfExist c' id) sent' = Ret (Some zero_repo, None)).
Proof.
  intros Hans. split; [|split].
  - intros H2xx Hskip. rewrite (doJSON_any_answer _ _ _ _ _ Hans).
    unfold decoded, status_error. rewrite H2xx.
    destruct out as [v0|]; [|reflexivity].
    destruct Hskip as [Hnil|Hempty]; [discriminate|].
    apply length_zero_empty in Hempty. rewrite Hempty. reflexivity.
  - intros err out' sent'. rewrite (doJSON_any_answer _ _ _ _ _ Hans).
    unfold decoded, status_error.
    destruct (is_2xx resp) eqn:H2xx.
    + destruct out as [v0|]; [|discriminate].
      destruct (String.length (capped_body resp) =? 0)%nat eqn:Hlen; [discriminate|].
      destruct (Unmarshal (capped_body resp) v0) as [e|v] eqn:Hdec; [|discriminate].
      intros [= <- _ _]. right. repeat split.
      * intros Hempty. apply length_zero_empty in Hempty. congruence.
      * exists v0. split; [reflexivity|assumption].
    + destruct out as [v0|]; intros [= <- _ _]; left; split; reflexivity.
  - intros c' sent' id H2xx Hbody Hrep.
    erewrite GetRepoByIdIfExist_reply by eassumption.
    unfold decoded. rewrite H2xx.
    apply capped_body_empty in Hbody. rewrite Hbody. reflexivity.
Qed.

(** The three repository lookups named in C1 return no error for a non-2xx
    answer other than 404... *)
Lemma repo_lookups_swallow c p sent resp id name :
  is_2xx resp = false -> StatusCode resp <> StatusNotFound ->
  (replies c sent "GET" ("/repositories/" +:+ PathEscape (FormatInt id)) resp ->
   result_of (CheckIsRepoExistsById c id) sent = Ret (true, None))
  /\ (replies (profile_GitHubAPI p) sent "GET"
        ("/repos/" +:+ Login p +:+ "/" +:+ name) resp ->
      result_of (IsRepoExist p name) sent = Ret (false, None)
      /\ result_of (GetRepoIfExist p name) sent = Ret (None, None)).
Proof.
  intros Hno Hne.
  assert (Hnf : forall e, is_HTTPError_with
            (HTTPError (StatusCode resp) e) StatusNotFound = false).
  { intros e. simpl. apply Z.eqb_neq, Hne. }
  split; [intros Hrep | intros Hrep; split].
  - erewrite CheckIsRepoExistsById_reply by eassumption.
    rewrite decoded_non_2xx by assumption. cbn [fst]. rewrite Hnf. reflexivity.
  - erewrite IsRepoExist_reply by eassumption.
    rewrite decoded_non_2xx by assumption. reflexivity.
  - erewrite GetRepoIfExist_reply by eassumption.
    rewrite decoded_non_2xx by assumption. rewrite Hnf. reflexivity.
Qed.

(** ... where the other lookups hand the typed HTTP error to the caller. *)
Lemma sibling_lookups_propagate c sent resp username id :
  is_2xx resp = false -> StatusCode resp <> StatusNotFound ->
  let err := HTTPError (StatusCode resp) (capped_body resp) in
  (TrimSpace username <> "" ->
   replies c sent "GET" ("/users/" +:+ PathEscape (TrimSpace username)) resp ->
   result_of (CheckUserExists c username) sent = Ret (false, Some err)
   /\ result_of (GetUserIfExists c username) sent = Ret (None, Some err))
  /\ (replies c sent "GET" ("/user/" +:+ PathEscape (FormatInt id)) resp ->
      result_of (CheckUserExistsById c id) sent = Ret (false, Some err)
      /\ result_of (GetUserByIdIfExist c id) sent = Ret (None, Some err))
  /\ (replies c sent "GET" ("/repositories/" +:+ PathEscape (FormatInt id)) resp ->
      result_of (GetRepoByIdIfExist c id) sent = Ret (None, Some err)).
Proof.
  intros Hno Hne err.
  assert (Hnf : is_HTTPError_with err StatusNotFound = false).
  { simpl. apply Z.eqb_neq, Hne. }
  split; [intros Hu Hrep; split | split; [intros Hrep; split | intros Hrep]].
  - erewrite CheckUserExists_reply by eassumption.
    rewrite status_error_non_2xx by assumption. fold err. rewrite Hnf. reflexivity.
  - erewrite GetUserIfExists_reply by eassumption.
    rewrite decoded_non_2xx by assumption. unfold translate_404.
    fold err. rewrite Hnf. reflexivity.
  - erewrite CheckUserExistsById_reply by eassumption.
    rewrite status_error_non_2xx by assumption. fold err. rewrite Hnf. reflexivity.
  - erewrite GetUserByIdIfExist_reply by eassumption.
    rewrite decoded_non_2xx by assumption. unfold translate_404.
    fold err. rewrite Hnf. reflexivity.
  - erewrite GetRepoByIdIfExist_reply by eassumption.
    rewrite decoded_non_2xx by assumption. unfold translate_404.
    fold err. rewrite Hnf. reflexivity.
Qed.

(** Decoding leaves the embedded client of the target alone. *)
Lemma decoded_profile_api resp p0 :
  profile_GitHubAPI (decoded resp p0).2 = profile_GitHubAPI p0.
Proof.
  unfold decoded. destruct (is_2xx resp); [|reflexivity].
  destruct (String.length _ =? 0)%nat; [reflexivity|].
  unfold Unmarshal, JSONTarget_profile.
  destruct (Unmarshal_profile _ _); reflexivity.
Qed.

Lemma decoded_repo_api resp r0 :
  repo_GitHubAPI (decoded resp r0).2 = repo_GitHubAPI r0.
Proof.
  unfold decoded. destruct (is_2xx resp); [|reflexivity].
  destruct (String.length _ =? 0)%nat; [reflexivity|].
  unfold Unmarshal, JSONTarget_repo.
  destruct (Unmarshal_repo _ _); reflexivity.
Qed.

(** A fetched profile carries the configuration of the client that fetched
    it (its access token apart, which [applyFrom] does not copy)... *)
Lemma fetched_profile_carries_configuration c sent resp username id p :
  (TrimSpace username <> "" /\
   replies c sent "GET" ("/users/" +:+ PathEscape (TrimSpace username)) resp /\
   result_of (GetUserIfExists c username) sent = Ret (Some p, None))
  \/ (replies c sent "GET" ("/user/" +:+ PathEscape (FormatInt id)) resp /\
      result_of (GetUserByIdIfExist c id) sent = Ret (Some p, None)) ->
  let a := profile_GitHubAPI p in
  baseURL a = baseURL c /\ userAgent a = userAgent c /\ timeout a = timeout c
  /\ oAuth a = oAuth c /\ http a = http c.
Proof.
  intros [(Hne & Hrep & Hres)|(Hrep & Hres)].
  - erewrite GetUserIfExists_reply in Hres by eassumption.
    destruct (decoded resp zero_profile) as [[err|] q]; [discriminate|].
    injection Hres as <-. simpl. repeat split.
  - erewrite GetUserByIdIfExist_reply in Hres by eassumption.
    destruct (decoded resp zero_profile) as [[err|] q]; [discriminate|].
    injection Hres as <-. simpl. repeat split.
Qed.

(** ... but a fetched repository carries the zero client. *)
Lemma fetched_repo_has_zero_client c p sent resp id name r :
  (replies c sent "GET" ("/repositories/" +:+ PathEscape (FormatInt id)) resp /\
   result_of (GetRepoByIdIfExist c id) sent = Ret (Some r, None))
  \/ (replies (profile_GitHubAPI p) sent "GET"
        ("/repos/" +:+ Login p +:+ "/" +:+ name) resp /\
      result_of (GetRepoIfExist p name) sent = Ret (Some r, None)) ->
  repo_GitHubAPI r = zero_GitHubAPI.
Proof.
  intros [(Hrep & Hres)|(Hrep & Hres)].
  - erewrite GetRepoByIdIfExist_reply in Hres by eassumption.
    pose proof (decoded_repo_api resp zero_repo) as Hapi.
    destruct (decoded resp zero_repo) as [[err|] q]; [discriminate|].
    injection Hres as <-. exact Hapi.
  - erewrite GetRepoIfExist_reply in Hres by eassumption.
    pose proof (decoded_repo_api resp zero_repo) as Hapi.
    destruct (decoded resp zero_repo) as [[err|] q].
    + destruct (is_HTTPError_with err StatusNotFound); discriminate.
    + injection Hres as <-. exact Hapi.
Qed.

End ClientCore.


(* ===================================================================== *)
(** * float64: the error of a conversion followed by a division          *)
(* ===================================================================== *)

(** The facts below are about the Standard Library's reference model of
    binary64 ([SpecFloat]): how many bits a mantissa has, what the shifts
    and the rounding of [binary_round_aux] do to it, and from there how far
    the printed tenths of [float64(n) / d] are from [10 * n / d]. *)
Section Float64.

Lemma digits2_pos_size p : digits2_pos p = Pos.size p.
Proof. induction p; simpl; congruence. Qed.

Lemma Zdigits2_bounds p :
  2 ^ (Zdigits2 (Z.pos p) - 1) <= Z.pos p < 2 ^ Zdigits2 (Z.pos p).
Proof.
  simpl. rewrite digits2_pos_size.
  pose proof (Pos.size_gt p) as Hgt. pose proof (Pos.size_le p) as Hle.
  apply Pos2Z.pos_lt_pos in Hgt. apply Pos2Z.pos_le_pos in Hle.
  rewrite Pos2Z.inj_pow in Hgt, Hle.
  replace (2 ^ Z.pos (Pos.size p)) with (2 * 2 ^ (Z.pos (Pos.size p) - 1)) in Hle.
  - pose proof (Pos2Z.inj_xO p). lia.
  - rewrite <- Z.pow_succ_r by lia. f_equal. lia.
Qed.

Lemma Zdigits2_pos p : 0 < Zdigits2 (Z.pos p).
Proof. simpl. lia. Qed.

Lemma pow2_lt_mono a b : 0 <= a -> 2 ^ a < 2 ^ b -> a < b.
Proof.
  intros Ha H. destruct (Z.lt_ge_cases b 0) as [Hb|Hb].
  - rewrite (Z.pow_neg_r 2 b) in H by assumption.
    pose proof (Z.pow_pos_nonneg 2 a). lia.
  - apply (Z.pow_lt_mono_r_iff 2); lia.
Qed.

Lemma Zdigits2_unique p d :
  2 ^ (d - 1) <= Z.pos p < 2 ^ d -> Zdigits2 (Z.pos p) = d.
Proof.
  intros [Hlo Hhi]. pose proof (Zdigits2_bounds p) as [Hlo' Hhi'].
  pose proof (Zdigits2_pos p) as Hpos.
  assert (Hd : 0 < d).
  { apply pow2_lt_mono; [lia|]. simpl. lia. }
  assert (d - 1 < Zdigits2 (Z.pos p)) by (apply pow2_lt_mono; lia).
  assert (Zdigits2 (Z.pos p) - 1 < d) by (apply pow2_lt_mono; lia).
  lia.
Qed.

(** Shifting a mantissa right divides it by a power of two. *)
Lemma shr_1_m r : 0 <= shr_m r -> shr_m (shr_1 r) = shr_m r / 2.
Proof.
  destruct r as [m rb sb]. simpl. intros Hm.
  destruct m as [|[p|p|]|p]; simpl; try reflexivity; try lia.
  - apply (Z.div_unique _ _ _ 1); lia.
  - apply (Z.div_unique _ _ _ 0); lia.
Qed.

Lemma shr_1_nonneg r : 0 <= shr_m r -> 0 <= shr_m (shr_1 r).
Proof. intros Hm. rewrite shr_1_m by assumption. apply Z.div_pos; lia. Qed.

Lemma iter_shr_1_m p : forall r,
  0 <= shr_m r ->
  shr_m (SpecFloat.iter_pos shr_1 p r) = shr_m r / 2 ^ Z.pos p
  /\ 0 <= shr_m (SpecFloat.iter_pos shr_1 p r).
Proof.
  induction p as [p IH|p IH|]; intros r Hr; simpl SpecFloat.iter_pos.
  - destruct (IH (shr_1 r) (shr_1_nonneg r Hr)) as [E1 N1].
    destruct (IH _ N1) as [E2 N2]. split; [|exact N2].
    rewrite E2, E1, shr_1_m by assumption.
    rewrite !Z.div_div by (try apply Z.pow_pos_nonneg; lia).
    f_equal.
    replace (Z.pos p~1) with (1 + Z.pos p + Z.pos p) by lia.
    rewrite !Z.pow_add_r by lia. simpl (2 ^ 1). lia.
  - destruct (IH r Hr) as [E1 N1].
    destruct (IH _ N1) as [E2 N2]. split; [|exact N2].
    rewrite E2, E1.
    rewrite !Z.div_div by (try apply Z.pow_pos_nonneg; lia).
    f_equal.
    replace (Z.pos p~0) with (Z.pos p + Z.pos p) by lia.
    rewrite !Z.pow_add_r by lia. lia.
  - split; [apply shr_1_m; assumption | apply shr_1_nonneg; assumption].
Qed.

Lemma shr_spec r e k :
  0 <= shr_m r ->
  shr_m (fst (shr r e k)) = shr_m r / 2 ^ Z.max 0 k
  /\ snd (shr r e k) = e + Z.max 0 k.
Proof.
  intros Hr. destruct k as [|p|p]; simpl.
  - rewrite Z.div_1_r. split; [reflexivity|lia].
  - destruct (iter_shr_1_m p r Hr) as [E _]. split; [exact E|].
    rewrite Z.max_r by lia. reflexivity.
  - rewrite Z.div_1_r. split; [reflexivity|lia].
Qed.

Lemma shr_m_of_loc m l : shr_m (shr_record_of_loc m l) = m.
Proof. destruct l as [|[]]; reflexivity. Qed.


Lemma shr_fexp_spec p e l :
  let d := Zdigits2 (Z.pos p) in
  - 1074 <= d + e - 53 ->
  shr_m (fst (shr_fexp 53 1024 (Z.pos p) e l)) = Z.pos p / 2 ^ Z.max 0 (d - 53)
  /\ snd (shr_fexp 53 1024 (Z.pos p) e l) = e + Z.max 0 (d - 53).
Proof.
  intros d Hd. unfold shr_fexp, fexp, emin. fold d.
  replace (Z.max (d + e - 53) (3 - 1024 - 53) - e) with (d - 53) by lia.
  pose proof (shr_spec (shr_record_of_loc (Z.pos p) l) e (d - 53)) as Hs.
  rewrite shr_m_of_loc in Hs. apply Hs. lia.
Qed.


Lemma pow2_split a b : 0 <= a -> 0 <= b -> 2 ^ (a + b) = 2 ^ a * 2 ^ b.
Proof. intros. apply Z.pow_add_r; assumption. Qed.

Lemma pow2_pos a : 0 <= a -> 0 < 2 ^ a.
Proof. intros. apply Z.pow_pos_nonneg; lia. Qed.

(** Division by a power of two, as bounds. *)
Lemma div_pow2_bounds m k :
  0 <= k -> m / 2 ^ k * 2 ^ k <= m < (m / 2 ^ k + 1) * 2 ^ k.
Proof.
  intros Hk. pose proof (pow2_pos k Hk) as Hp.
  pose proof (Z.mul_div_le m (2 ^ k) Hp).
  pose proof (Z.mul_succ_div_gt m (2 ^ k) Hp). lia.
Qed.


Lemma iter_xO_pow p k : Z.pos (Pos.iter xO p k) = Z.pos p * 2 ^ Z.pos k.
Proof.
  induction k as [|k IH] using Pos.peano_ind.
  - simpl. lia.
  - rewrite Pos.iter_succ, Pos2Z.inj_succ, Z.pow_succ_r by lia.
    change (Z.pos (Pos.iter xO p k)~0) with (2 * Z.pos (Pos.iter xO p k)).
    rewrite IH. lia.
Qed.





(** Cancelling a positive factor. *)
Lemma mul_le_cancel x y f : 0 < f -> x * f <= y * f -> x <= y.
Proof. intros Hf H. apply Z.mul_le_mono_pos_r in H; assumption. Qed.





Lemma Zdigits2_ge p k : 0 <= k -> 2 ^ k <= Z.pos p -> k < Zdigits2 (Z.pos p).
Proof.
  intros Hk H. pose proof (Zdigits2_bounds p) as [_ Hhi].
  apply pow2_lt_mono; lia.
Qed.





End Float64.

(* ===================================================================== *)
(** * base64: decoding gives back what was encoded                       *)
(* ===================================================================== *)

Section Base64.
Import Go.

Lemma lor_add X y k :
  0 <= k -> X mod 2 ^ k = 0 -> 0 <= y < 2 ^ k -> Z.lor X y = X + y.
Proof.
  intros Hk HX Hy.
  assert (Hland : Z.land X y = 0).
  { apply Z.bits_inj'. intros n Hn. rewrite Z.land_spec, Z.bits_0.
    destruct (Z.lt_ge_cases n k) as [Hlt|Hge].
    - replace X with (X / 2 ^ k * 2 ^ k).
      + rewrite Z.mul_pow2_bits_low by assumption. reflexivity.
      + pose proof (Z.div_mod X (2 ^ k)) as Hdm.
        pose proof (Z.pow_pos_nonneg 2 k). lia.
    - assert (Z.testbit y n = false); [|rewrite H; apply andb_false_r].
      apply Z.testbit_false; [assumption|].
      rewrite Z.div_small; [reflexivity|].
      assert (2 ^ k <= 2 ^ n) by (apply Z.pow_le_mono_r; lia). lia. }
  rewrite <- Z.lxor_lor by assumption.
  symmetry. apply Z.add_nocarry_lxor. assumption.
Qed.

Lemma byte_val_range a : 0 <= byte_val a < 256.
Proof.
  unfold byte_val. pose proof (N_ascii_bounded a). lia.
Qed.

Lemma byte_of_val a : byte_of (byte_val a) = a.
Proof. unfold byte_of, byte_val. rewrite N2Z.id. apply ascii_N_embedding. Qed.

Lemma sextets_ok : forallb sextet_ok (seq 0 64) = true.
Proof. vm_compute. reflexivity. Qed.

Lemma sextet_decode v :
  0 <= v < 64 ->
  decode_sextet StdEncoding (encode_sextet StdEncoding v) = Some v
  /\ is_pad StdEncoding (encode_sextet StdEncoding v) = false.
Proof.
  intros Hv. pose proof sextets_ok as Hall.
  rewrite forallb_forall in Hall.
  specialize (Hall (Z.to_nat v)).
  assert (Hin : In (Z.to_nat v) (seq 0 64)) by (apply in_seq; lia).
  specialize (Hall Hin). unfold sextet_ok in Hall.
  rewrite Z2Nat.id in Hall by lia.
  destruct (decode_sextet StdEncoding (encode_sextet StdEncoding v)) as [w|];
    [|discriminate].
  apply andb_true_iff in Hall as [Hw Hp]. apply Z.eqb_eq in Hw.
  apply negb_true_iff in Hp. subst w. split; [reflexivity|assumption].
Qed.

Lemma sextet_value val s :
  0 <= s -> Z.land (Z.shiftr val s) 63 = (val / 2 ^ s) mod 64.
Proof.
  intros Hs. rewrite Z.shiftr_div_pow2 by assumption.
  change 63 with (Z.ones 6). rewrite Z.land_ones by lia. reflexivity.
Qed.

Lemma sextet_range val s : 0 <= s -> 0 <= Z.land (Z.shiftr val s) 63 < 64.
Proof. intros Hs. rewrite sextet_value by assumption. apply Z.mod_pos_bound. lia. Qed.

Lemma decode_sextet_of val s :
  0 <= s ->
  decode_sextet StdEncoding (sextet StdEncoding val s) = Some ((val / 2 ^ s) mod 64)
  /\ is_pad StdEncoding (sextet StdEncoding val s) = false.
Proof.
  intros Hs. unfold sextet. rewrite <- sextet_value by assumption.
  apply sextet_decode, sextet_range, Hs.
Qed.

Lemma quantum_sum v1 v2 v3 v4 :
  0 <= v1 < 64 -> 0 <= v2 < 64 -> 0 <= v3 < 64 -> 0 <= v4 < 64 ->
  quantum v1 v2 v3 v4 = v1 * 262144 + v2 * 4096 + v3 * 64 + v4.
Proof.
  intros H1 H2 H3 H4. unfold quantum. rewrite !Z.shiftl_mul_pow2 by lia.
  change (2 ^ 18) with 262144. change (2 ^ 12) with 4096. change (2 ^ 6) with 64.
  rewrite (lor_add (v1 * 262144) (v2 * 4096) 18); try lia.
  2:{ change (2 ^ 18) with 262144. apply Z.mod_mul. lia. }
  rewrite (lor_add (v1 * 262144 + v2 * 4096) (v3 * 64) 12); try lia.
  2:{ change (2 ^ 12) with 4096. Z.div_mod_to_equations. lia. }
  rewrite (lor_add (v1 * 262144 + v2 * 4096 + v3 * 64) v4 6); try lia.
  change (2 ^ 6) with 64. Z.div_mod_to_equations. lia.
Qed.

Lemma quantum_byte_value val s :
  0 <= s -> quantum_byte val s = byte_of ((val / 2 ^ s) mod 256).
Proof.
  intros Hs. unfold quantum_byte. rewrite Z.shiftr_div_pow2 by assumption.
  change 255 with (Z.ones 8). rewrite Z.land_ones by lia. reflexivity.
Qed.

Lemma encode_val3 a b c :
  0 <= a < 256 -> 0 <= b < 256 -> 0 <= c < 256 ->
  Z.lor (Z.lor (Z.shiftl a 16) (Z.shiftl b 8)) c = a * 65536 + b * 256 + c.
Proof.
  intros Ha Hb Hc. rewrite !Z.shiftl_mul_pow2 by lia.
  change (2 ^ 16) with 65536. change (2 ^ 8) with 256.
  rewrite (lor_add (a * 65536) (b * 256) 16); try lia.
  2:{ change (2 ^ 16) with 65536. apply Z.mod_mul. lia. }
  rewrite (lor_add (a * 65536 + b * 256) c 8); try lia.
  change (2 ^ 8) with 256. Z.div_mod_to_equations. lia.
Qed.

Lemma encode_val2 a b :
  0 <= a < 256 -> 0 <= b < 256 ->
  Z.lor (Z.shiftl a 16) (Z.shiftl b 8) = a * 65536 + b * 256.
Proof.
  intros Ha Hb. rewrite !Z.shiftl_mul_pow2 by lia.
  change (2 ^ 16) with 65536. change (2 ^ 8) with 256.
  rewrite (lor_add (a * 65536) (b * 256) 16); try lia.
  change (2 ^ 16) with 65536. apply Z.mod_mul. lia.
Qed.

Lemma byte_of_eq z a : z = byte_val a -> byte_of z = a.
Proof. intros ->. apply byte_of_val. Qed.

Ltac byte_arith val :=
  apply byte_of_eq; unfold val;
  change (2 ^ 18) with 262144; change (2 ^ 12) with 4096;
  change (2 ^ 6) with 64; change (2 ^ 16) with 65536; change (2 ^ 8) with 256;
  change (2 ^ 0) with 1;
  Z.div_mod_to_equations; lia.

(** Decoding gives back what was encoded. *)
Theorem DecodeString_EncodeToString :
  forall s, DecodeString StdEncoding (EncodeToString StdEncoding s) = Some s.
Proof.
  fix IH 1. intros [|a [|b [|c rest]]].
  - reflexivity.
  - pose proof (byte_val_range a) as Ha.
    cbn [EncodeToString]. change (padding StdEncoding 2) with "=="%string.
    rewrite Z.shiftl_mul_pow2 by lia. change (2 ^ 16) with 65536.
    set (val := byte_val a * 65536).
    cbn [DecodeString].
    destruct (decode_sextet_of val 18 ltac:(lia)) as [-> _].
    destruct (decode_sextet_of val 12 ltac:(lia)) as [-> _].
    change (is_pad StdEncoding "="%char) with true.
    cbn [andb String.eqb].
    rewrite quantum_sum, quantum_byte_value; try lia;
      try (apply Z.mod_pos_bound; lia).
    do 2 f_equal. byte_arith val.
  - pose proof (byte_val_range a) as Ha. pose proof (byte_val_range b) as Hb.
    cbn [EncodeToString]. change (padding StdEncoding 1) with "="%string.
    rewrite encode_val2 by assumption.
    set (val := byte_val a * 65536 + byte_val b * 256).
    cbn [DecodeString].
    destruct (decode_sextet_of val 18 ltac:(lia)) as [-> _].
    destruct (decode_sextet_of val 12 ltac:(lia)) as [-> _].
    destruct (decode_sextet_of val 6 ltac:(lia)) as [-> ->].
    change (is_pad StdEncoding "="%char) with true.
    cbn [String.eqb].
    rewrite quantum_sum, !quantum_byte_value; try lia;
      try (apply Z.mod_pos_bound; lia).
    f_equal. f_equal; [byte_arith val|]. f_equal. byte_arith val.
  - pose proof (byte_val_range a) as Ha. pose proof (byte_val_range b) as Hb.
    pose proof (byte_val_range c) as Hc.
    cbn [EncodeToString]. rewrite encode_val3 by assumption.
    set (val := byte_val a * 65536 + byte_val b * 256 + byte_val c).
    cbn [DecodeString].
    destruct (decode_sextet_of val 18 ltac:(lia)) as [-> _].
    destruct (decode_sextet_of val 12 ltac:(lia)) as [-> _].
    destruct (decode_sextet_of val 6 ltac:(lia)) as [-> ->].
    destruct (decode_sextet_of val 0 ltac:(lia)) as [-> ->].
    rewrite (IH rest).
    rewrite quantum_sum, !quantum_byte_value; try lia;
      try (apply Z.mod_pos_bound; lia).
    f_equal. f_equal; [byte_arith val|]. f_equal; [byte_arith val|].
    f_equal. byte_arith val.
Qed.

End Base64.

(* ===================================================================== *)
(** * Properties of the repository objects                               *)
(* ===================================================================== *)

Section RepoObjects.
Import Go githubapi.
Context {ext : Externals}.

(** C8. [PreferredCloneURL] returns the SSH URL when the SSH flag is set and
    that URL is not empty; failing that the HTTPS clone URL if not empty;
    failing that the git URL if not empty; failing that the web URL.  A
    repository with SSH URL ["git@x"] and clone URL ["https://x"] gives
    ["git@x"] with the flag and ["https://x"] without. *)
Theorem PreferredCloneURL_order (r : GitHubRepoAPI) (ssh : bool) :
  (ssh = true -> SSHURL r <> "" -> PreferredCloneURL r ssh = SSHURL r)
  /\ (ssh = false \/ SSHURL r = "" ->
      (CloneURL r <> "" -> PreferredCloneURL r ssh = CloneURL r)
      /\ (CloneURL r = "" -> GitURL r <> "" -> PreferredCloneURL r ssh = GitURL r)
      /\ (CloneURL r = "" -> GitURL r = "" -> PreferredCloneURL r ssh = HTMLURL r))
  /\ (SSHURL r = "git@x" -> CloneURL r = "https://x" ->
      PreferredCloneURL r true = "git@x" /\ PreferredCloneURL r false = "https://x").
Proof.
  unfold PreferredCloneURL.
  destruct (String.eqb_spec (SSHURL r) "") as [Hs|Hs],
           (String.eqb_spec (CloneURL r) "") as [Hc|Hc],
           (String.eqb_spec (GitURL r) "") as [Hg|Hg];
    destruct ssh; simpl; repeat split; intros;
    repeat match goal with
           | Hor : _ \/ _ |- _ => destruct Hor
           end; congruence.
Qed.

Lemma upload_body_fields commitMsg content branch :
  let body := upload_body commitMsg content branch in
  body !! "content" = Some (EncodeToString StdEncoding content)
  /\ body !! "message" = Some commitMsg
  /\ body !! "branch" = (if String.eqb branch "" then None else Some branch).
Proof.
  unfold upload_body. destruct (String.eqb branch ""); simpl.
  - repeat split.
  - repeat split.
Qed.

Lemma ReqBody_Header_Set req k v : ReqBody (Header_Set req k v) = ReqBody req.
Proof. reflexivity. Qed.

(** C5. [UploadMdFileWithToken]: a file name that is empty once trimmed is
    refused with an error and nothing is sent.  Otherwise one PUT request is
    sent, to the contents path of the name completed by [.md] when it lacks
    that extension, whose JSON body holds under ["content"] the standard
    base64 encoding of the content (which decodes back to the content),
    under ["message"] the commit message
    (["chore: add <name>"] when none is given) and under ["branch"] the
    branch (the repository's default branch when none is given; no entry
    when that is empty too).  A 422 answer comes back as the "already
    exists" error, which is not an [HTTPError]; any other non-2xx answer
    comes back as the [HTTPError] of its status and body. *)
Theorem upload_contract (r : GitHubRepoAPI)
    (filename content commitMsg branch : string) (sent : list Request) :
  let upload := UploadMdFileWithToken r filename content commitMsg branch in
  let fn := md_name (TrimSpace filename) in
  let msg := if String.eqb commitMsg "" then "chore: add " +:+ fn else commitMsg in
  let br := if String.eqb branch "" then DefaultBranch r else branch in
  (TrimSpace filename = "" ->
   upload sent = (Ret (None, Some (fmtError "filename is empty" [])), sent))
  /\ (TrimSpace filename <> "" ->
      forall d, http (repo_GitHubAPI r) = Some d ->
      NewRequest_error "PUT" (baseURL (repo_GitHubAPI r) +:+ upload_path r fn) = None ->
      exists req body,
        log_of upload sent = sent ++ [req]
        /\ Method req = "PUT"
        /\ URL req = baseURL (repo_GitHubAPI r) +:+ upload_path r fn
        /\ ReqBody req = JSONObject body
        /\ body !! "content" = Some (EncodeToString StdEncoding content)
        /\ DecodeString StdEncoding (EncodeToString StdEncoding content) = Some content
        /\ body !! "message" = Some msg
        /\ body !! "branch" = (if String.eqb br "" then None else Some br)
        /\ forall resp, d sent req = inr resp ->
             (StatusCode resp = StatusUnprocessableEntity ->
              result_of upload sent
              = Ret (None, Some (fmtError "file %q already exists on branch %q: %s"
                                   [fn; br; capped_body resp])))
             /\ (is_2xx resp = false ->
                 StatusCode resp <> StatusUnprocessableEntity ->
                 result_of upload sent
                 = Ret (None, Some (HTTPError (StatusCode resp) (capped_body resp)))))
  /\ (forall name,
        (HasSuffix (ToLower name) ".md" = false ->
         md_name name = TrimLeft_byte (name +:+ ".md") "/")
        /\ (HasSuffix (ToLower name) ".md" = true ->
            md_name name = TrimLeft_byte name "/"))
  /\ (forall format args code body, fmtError format args <> HTTPError code body).
Proof.
  intros upload fn msg br. split; [|split; [|split]].
  - intros Hempty. unfold upload, UploadMdFileWithToken.
    rewrite Hempty. reflexivity.
  - intros Hne d Hd Hurl. apply String.eqb_neq in Hne.
    destruct (upload_body_fields msg content br) as (Hc & Hm & Hb).
    set (req0 := mkRequest "PUT" (baseURL (repo_GitHubAPI r) +:+ upload_path r fn) ∅
                   (JSONObject (upload_body msg content br))).
    set (req1 := Header_Set req0 "Accept" "application/vnd.github.v3+json").
    set (req2 := if negb (String.eqb (userAgent (repo_GitHubAPI r)) "")
                 then Header_Set req1 "User-Agent" (userAgent (repo_GitHubAPI r))
                 else req1).
    set (req3 := Header_Set req2 "Content-Type" "application/json").
    set (req := if negb (String.eqb (accessToken (repo_GitHubAPI r)) "")
                then Header_Set req3 "Authorization"
                       ("Bearer " +:+ accessToken (repo_GitHubAPI r))
                else req3).
    assert (Hnew : newReq (repo_GitHubAPI r) "PUT" (upload_path r fn)
                     (JSONObject (upload_body msg content br)) = inr req2).
    { unfold newReq. rewrite Hurl. reflexivity. }
    assert (Hrun : forall resp, d sent req = inr resp ->
              upload sent
              = (match (decoded resp zero_CreateContentResp) with
                 | (Some err, _) =>
                     if is_HTTPError_with err StatusUnprocessableEntity
                     then Ret (None, Some (fmtError
                            "file %q already exists on branch %q: %s"
                            [fn; br; HTTPError_Body err]))
                     else Ret (None, Some err)
                 | (None, out) => Ret (Some out, None)
                 end, sent ++ [req])).
    { intros resp Hresp. unfold upload, UploadMdFileWithToken.
      rewrite Hne. fold fn. fold msg. fold br. rewrite Hnew.
      fold req3. fold req.
      erewrite run_bind
        by (apply doJSON_answer; exists d; split; [exact Hd | exact Hresp]).
      destruct (decoded resp zero_CreateContentResp) as [[err|] out]; simpl;
        [|reflexivity].
      destruct (is_HTTPError_with err StatusUnprocessableEntity); reflexivity. }
    exists req, (upload_body msg content br).
    assert (Hbody : ReqBody req = JSONObject (upload_body msg content br)).
    { unfold req, req3, req2, req1.
      destruct (negb (String.eqb (accessToken _) "")),
               (negb (String.eqb (userAgent _) "")); reflexivity. }
    assert (Hmeth : Method req = "PUT").
    { unfold req, req3, req2, req1.
      destruct (negb (String.eqb (accessToken _) "")),
               (negb (String.eqb (userAgent _) "")); reflexivity. }
    assert (Hu : URL req = baseURL (repo_GitHubAPI r) +:+ upload_path r fn).
    { unfold req, req3, req2, req1.
      destruct (negb (String.eqb (accessToken _) "")),
               (negb (String.eqb (userAgent _) "")); reflexivity. }
    repeat match goal with |- _ /\ _ => split end; try assumption.
    + unfold log_of, upload, UploadMdFileWithToken.
      rewrite Hne. fold fn. fold msg. fold br. rewrite Hnew.
      fold req3. fold req.
      destruct (doJSON_sends (repo_GitHubAPI r) sent req
                  (Some zero_CreateContentResp) d Hd) as ([err out] & Hsend).
      erewrite run_bind by exact Hsend.
      destruct err as [err|]; [|reflexivity].
      destruct (is_HTTPError_with err StatusUnprocessableEntity); reflexivity.
    + apply DecodeString_EncodeToString.
    + intros resp Hresp. split.
      * intros H422. unfold result_of. rewrite (Hrun resp Hresp).
        rewrite decoded_non_2xx
          by (unfold is_2xx; rewrite H422; reflexivity).
        simpl. rewrite H422. reflexivity.
      * intros Hno Hn422. unfold result_of. rewrite (Hrun resp Hresp).
        rewrite decoded_non_2xx by assumption.
        simpl. apply Z.eqb_neq in Hn422. rewrite Hn422. reflexivity.
  - intros name. unfold md_name. split; intros ->; reflexivity.
  - discriminate.
Qed.


End RepoObjects.

(* ===================================================================== *)
(** * Properties of the session correlator and of the callback handler   *)
(* ===================================================================== *)

Section Callback.
Import Go bot.
Context {ext : Externals}.

Lemma client_do_effect req wd r wd' :
  client_do req wd = (r, wd') ->
  authSessions wd' = authSessions wd /\ events wd' = events wd ++ [ClientDo req].
Proof. unfold client_do. intros [= _ <-]. split; reflexivity. Qed.

(** The two exchanges with GitHub leave the session map alone and add
    nothing to the events but the requests they send. *)
Lemma exchangeCodeForToken_effect code wd r wd' :
  exchangeCodeForToken code wd = (r, wd') ->
  authSessions wd' = authSessions wd
  /\ exists reqs, events wd' = events wd ++ map ClientDo reqs.
Proof.
  unfold exchangeCodeForToken. destruct (NewRequest _ _ _) as [err|req].
  - intros [= _ <-]. split; [reflexivity|]. exists []. simpl.
    rewrite app_nil_r. reflexivity.
  - unfold mbind, MB_bind, bind.
    destruct (client_do _ wd) as [r0 wd0] eqn:Hdo.
    apply client_do_effect in Hdo as [Hs He].
    assert (Hret : forall (x : error + string * list string * string),
              ret x wd0 = (r, wd') ->
              authSessions wd' = authSessions wd
              /\ exists reqs, events wd' = events wd ++ map ClientDo reqs).
    { intros x [= _ <-]. split; [exact Hs|]. eexists [_]. exact He. }
    destruct r0 as [err|resp]; [apply Hret|].
    destruct (ReadAll_error resp); [apply Hret|].
    destruct (Unmarshal_token _ _) as [err|tr]; [apply Hret|].
    destruct (negb (String.eqb (tr_Error tr) "")); [|apply Hret].
    destruct (negb (String.eqb (ErrorDesc tr) "")); apply Hret.
Qed.

Lemma getGitHubUser_effect token wd r wd' :
  getGitHubUser token wd = (r, wd') ->
  authSessions wd' = authSessions wd
  /\ exists reqs, events wd' = events wd ++ map ClientDo reqs.
Proof.
  unfold getGitHubUser. destruct (NewRequest _ _ _) as [err|req].
  - intros [= _ <-]. split; [reflexivity|]. exists []. simpl.
    rewrite app_nil_r. reflexivity.
  - unfold mbind, MB_bind, bind.
    destruct (client_do _ wd) as [r0 wd0] eqn:Hdo.
    apply client_do_effect in Hdo as [Hs He].
    assert (Hret : forall (x : error + GitHubUser),
              ret x wd0 = (r, wd') ->
              authSessions wd' = authSessions wd
              /\ exists reqs, events wd' = events wd ++ map ClientDo reqs).
    { intros x [= _ <-]. split; [exact Hs|]. eexists [_]. exact He. }
    destruct r0 as [err|resp]; [apply Hret|].
    destruct (ReadAll_error resp); apply Hret.
Qed.

(** The second part of the handler never writes the session map. *)
Lemma callback_verify_sessions w code session wd w' wd' :
  callback_verify w code session wd = (w', wd') ->
  authSessions wd' = authSessions wd.
Proof.
  unfold callback_verify, mbind, MB_bind, bind, emit, ret.
  destruct (exchangeCodeForToken code wd) as [tok wd1] eqn:Hex.
  apply exchangeCodeForToken_effect in Hex as [Hs1 _].
  destruct tok as [err|[[token scopes] ttype]].
  - intros [= _ <-]. exact Hs1.
  - destruct (getGitHubUser token wd1) as [u wd2] eqn:Hu.
    apply getGitHubUser_effect in Hu as [Hs2 _].
    destruct u as [err|user].
    + intros [= _ <-]. simpl. congruence.
    + destruct (negb (same_login _ _)); intros [= _ <-]; simpl; congruence.
Qed.

(** The first part of the handler on a token that is not in the map. *)
Lemma callback_entry_absent w code state wd :
  authSessions wd !! state = None ->
  exists msg,
    callback_entry w code state wd = (inl (http_Error w msg StatusBadRequest), wd).
Proof.
  intros Habs. unfold callback_entry.
  destruct (String.eqb code "" || String.eqb state ""); [eexists; reflexivity|].
  unfold mbind, MB_bind, bind, lookup_and_delete. rewrite Habs.
  eexists. reflexivity.
Qed.

(** The first part of the handler on a token that is in the map. *)
Lemma callback_entry_present w code state wd session :
  code <> "" -> state <> "" ->
  authSessions wd !! state = Some session ->
  callback_entry w code state wd
  = (inr session, mkWorld (delete state (authSessions wd)) (events wd)).
Proof.
  intros Hc Hs Hin. unfold callback_entry.
  apply String.eqb_neq in Hc, Hs. rewrite Hc, Hs. simpl.
  unfold mbind, MB_bind, bind, lookup_and_delete. rewrite Hin. reflexivity.
Qed.

(** The first part of the handler, run for a fresh response writer, either
    rejects the request with status 400 and changes nothing, or takes the
    session of the token out of the map. *)
Lemma callback_entry_cases code state wd r wd' :
  callback_entry new_ResponseWriter code state wd = (r, wd') ->
  (exists w', r = inl w' /\ wd' = wd /\ status_of w' = StatusBadRequest)
  \/ (exists session, r = inr session
        /\ authSessions wd !! state = Some session
        /\ wd' = mkWorld (delete state (authSessions wd)) (events wd)).
Proof.
  unfold callback_entry.
  destruct (String.eqb code "" || String.eqb state "").
  - intros [= <- <-]. left. eexists. repeat split.
  - unfold mbind, MB_bind, bind, lookup_and_delete.
    destruct (authSessions wd !! state) as [session|] eqn:Hin.
    + intros [= <- <-]. right. exists session. repeat split.
    + intros [= <- <-]. left. eexists. repeat split.
Qed.

Lemma consumed_once_init wd0 pool0 :
  Forall is_Arrived pool0 -> consumed_once wd0 (wd0, pool0).
Proof.
  intros Harr. unfold consumed_once.
  assert (Hnone : forall i t, pool0 !! i = Some t -> is_Arrived t).
  { intros i t Hi. eapply Forall_lookup_1; eassumption. }
  split; [reflexivity|]. split; [|split].
  - intros st i t Hi Ht. apply Hnone in Hi. destruct t; contradiction.
  - intros st i j ti tj Hi _ Ht _. apply Hnone in Hi. destruct ti; contradiction.
  - intros i w Hi. apply Hnone in Hi. contradiction.
Qed.

Lemma consumed_once_step wd0 sys sys' :
  consumed_once wd0 sys -> step sys sys' -> consumed_once wd0 sys'.
Proof.
  intros Hinv Hstep. destruct Hstep as
    [wd pool i code state r wd' Hi Hrun | wd pool i code state session w wd' Hi Hrun].
  - (* a goroutine runs the critical section *)
    destruct Hinv as (Hsub & Htook & Huniq & Hrej).
    assert (Hlen : (i < length pool)%nat) by (eapply lookup_lt_Some; eassumption).
    apply callback_entry_cases in Hrun
      as [(w' & -> & -> & Hst) | (session & -> & Hin & ->)]; simpl.
    + (* rejected: the map is as before *)
      split; [exact Hsub|]. split; [|split].
      * intros st k t Hk Ht. destruct (decide (k = i)) as [->|Hne].
        -- rewrite list_lookup_insert_eq in Hk by exact Hlen.
           injection Hk as <-. contradiction.
        -- rewrite list_lookup_insert_ne in Hk by congruence. eauto.
      * intros st k l tk tl Hk Hl Htk Htl.
        destruct (decide (k = i)) as [->|Hk'].
        { rewrite list_lookup_insert_eq in Hk by exact Hlen.
          injection Hk as <-. contradiction. }
        destruct (decide (l = i)) as [->|Hl'].
        { rewrite list_lookup_insert_eq in Hl by exact Hlen.
          injection Hl as <-. contradiction. }
        rewrite list_lookup_insert_ne in Hk, Hl by congruence. eauto.
      * intros k w Hk. destruct (decide (k = i)) as [->|Hne].
        -- rewrite list_lookup_insert_eq in Hk by exact Hlen.
           injection Hk as <-. exact Hst.
        -- rewrite list_lookup_insert_ne in Hk by congruence. eauto.
    + (* the session of [state] is taken out of the map *)
      assert (Hfree : forall k t, pool !! k = Some t -> ~ took state t).
      { intros k t Hk Ht. destruct (Htook state k t Hk Ht) as [_ Hnone].
        congruence. }
      split; [etrans; [apply delete_subseteq | exact Hsub]|]. split; [|split].
      * intros st k t Hk Ht. destruct (decide (k = i)) as [->|Hne].
        -- rewrite list_lookup_insert_eq in Hk by exact Hlen.
           injection Hk as <-. simpl in Ht. subst st. split.
           ++ exists session. eapply lookup_weaken; eassumption.
           ++ apply lookup_delete_eq.
        -- rewrite list_lookup_insert_ne in Hk by congruence.
           destruct (Htook st k t Hk Ht) as [Hsome Hnone]. split; [exact Hsome|].
           destruct (decide (state = st)) as [->|Hst];
             [apply lookup_delete_eq | rewrite lookup_delete_ne by exact Hst; exact Hnone].
      * intros st k l tk tl Hk Hl Htk Htl.
        destruct (decide (k = i)) as [->|Hk'], (decide (l = i)) as [->|Hl'];
          try reflexivity.
        -- rewrite list_lookup_insert_eq in Hk by exact Hlen.
           injection Hk as <-. simpl in Htk. subst st.
           rewrite list_lookup_insert_ne in Hl by congruence.
           exfalso. eapply Hfree; eassumption.
        -- rewrite list_lookup_insert_eq in Hl by exact Hlen.
           injection Hl as <-. simpl in Htl. subst st.
           rewrite list_lookup_insert_ne in Hk by congruence.
           exfalso. eapply Hfree; eassumption.
        -- rewrite list_lookup_insert_ne in Hk, Hl by congruence. eauto.
      * intros k w Hk. destruct (decide (k = i)) as [->|Hne].
        -- rewrite list_lookup_insert_eq in Hk by exact Hlen. discriminate.
        -- rewrite list_lookup_insert_ne in Hk by congruence. eauto.
  - (* a holder runs the rest of the handler *)
    destruct Hinv as (Hsub & Htook & Huniq & Hrej).
    assert (Hlen : (i < length pool)%nat) by (eapply lookup_lt_Some; eassumption).
    apply callback_verify_sessions in Hrun. simpl. rewrite Hrun.
    split; [exact Hsub|]. split; [|split].
    + intros st k t Hk Ht. destruct (decide (k = i)) as [->|Hne].
      * rewrite list_lookup_insert_eq in Hk by exact Hlen.
        injection Hk as <-. simpl in Ht. eapply (Htook st i); [exact Hi|exact Ht].
      * rewrite list_lookup_insert_ne in Hk by congruence. eauto.
    + assert (Hsame : forall st k t, <[i:=Served state session w]> pool !! k = Some t ->
                took st t -> exists t', pool !! k = Some t' /\ took st t').
      { intros st k t Hk Ht. destruct (decide (k = i)) as [->|Hne].
        - rewrite list_lookup_insert_eq in Hk by exact Hlen.
          injection Hk as <-. eexists. split; [exact Hi|exact Ht].
        - rewrite list_lookup_insert_ne in Hk by congruence. eauto. }
      intros st k l tk tl Hk Hl Htk Htl.
      destruct (Hsame st k tk Hk Htk) as (tk' & Hk' & Htk').
      destruct (Hsame st l tl Hl Htl) as (tl' & Hl' & Htl'). eauto.
    + intros k w0 Hk. destruct (decide (k = i)) as [->|Hne].
      * rewrite list_lookup_insert_eq in Hk by exact Hlen. discriminate.
      * rewrite list_lookup_insert_ne in Hk by congruence. eauto.
Qed.

Lemma consumed_once_reachable wd0 sys sys' :
  rtc step sys sys' -> consumed_once wd0 sys -> consumed_once wd0 sys'.
Proof.
  induction 1 as [|sys1 sys2 sys3 Hstep _ IH]; [tauto|].
  intros Hinv. apply IH. eapply consumed_once_step; eassumption.
Qed.

(** C2. Goroutines serve callbacks in any interleaving, the lookup and
    removal of the session being one step.  From a state where every
    request has just arrived: two goroutines that got the session of the
    same token are the same goroutine; a token whose session was taken was
    in the map at the start and is no longer there; a goroutine that got no
    session answered 400.  In one handler run: a request whose token is not
    in the map is answered 400 and leaves the world as it was, so that
    nothing is sent to GitHub; and once a handler has run with a non-empty
    code and state, the token is not in the map. *)
Theorem session_token_consumed_at_most_once (wd0 wd : World)
    (pool0 pool : list Thread) :
  Forall is_Arrived pool0 ->
  rtc step (wd0, pool0) (wd, pool) ->
  (forall st i j ti tj,
     pool !! i = Some ti -> pool !! j = Some tj ->
     took st ti -> took st tj -> i = j)
  /\ (forall st i t, pool !! i = Some t -> took st t ->
        is_Some (authSessions wd0 !! st) /\ authSessions wd !! st = None)
  /\ (forall i w, pool !! i = Some (Rejected w) -> status_of w = StatusBadRequest)
  /\ (forall w code state wdx,
        authSessions wdx !! state = None ->
        exists msg,
          handleGitHubCallback w code state wdx
          = (http_Error w msg StatusBadRequest, wdx))
  /\ (forall w code state wdx w' wdx',
        code <> "" -> state <> "" ->
        handleGitHubCallback w code state wdx = (w', wdx') ->
        authSessions wdx' !! state = None).
Proof.
  intros Harr Hreach.
  pose proof (consumed_once_reachable wd0 _ _ Hreach (consumed_once_init wd0 pool0 Harr))
    as (_ & Htook & Huniq & Hrej).
  split; [exact Huniq|]. split; [exact Htook|]. split; [exact Hrej|]. split.
  - intros w code state wdx Habs.
    destruct (callback_entry_absent w code state wdx Habs) as (msg & Hentry).
    exists msg. unfold handleGitHubCallback, mbind, MB_bind, bind.
    rewrite Hentry. reflexivity.
  - intros w code state wdx w' wdx' Hc Hs.
    unfold handleGitHubCallback, mbind, MB_bind, bind.
    destruct (authSessions wdx !! state) as [session|] eqn:Hin.
    + rewrite (callback_entry_present w code state wdx session Hc Hs Hin).
      intros Hrun. apply callback_verify_sessions in Hrun. rewrite Hrun.
      apply lookup_delete_eq.
    + destruct (callback_entry_absent w code state wdx Hin) as (msg & Hentry).
      rewrite Hentry. intros [= _ <-]. exact Hin.
Qed.

Lemma handleGitHubCallback_present w code state wd session :
  code <> "" -> state <> "" ->
  authSessions wd !! state = Some session ->
  handleGitHubCallback w code state wd
  = callback_verify w code session
      (mkWorld (delete state (authSessions wd)) (events wd)).
Proof.
  intros Hc Hs Hin. unfold handleGitHubCallback, mbind, MB_bind, bind.
  rewrite (callback_entry_present w code state wd session Hc Hs Hin). reflexivity.
Qed.

Lemma same_login_spec a b :
  same_login a b = true <-> strings_ToLower a = strings_ToLower b.
Proof. unfold same_login. apply String.eqb_eq. Qed.

Lemma same_login_ascii a b :
  isASCII a = true -> isASCII b = true ->
  (same_login a b = true <-> ToLower a = ToLower b).
Proof.
  intros Ha Hb. unfold same_login, strings_ToLower. rewrite Ha, Hb.
  apply String.eqb_eq.
Qed.

(** The two notifications differ in their first bytes already. *)
Lemma mismatch_is_not_success requested authorized user :
  mismatch_message requested authorized <> success_message user.
Proof. unfold mismatch_message, success_message. simpl. discriminate. Qed.

(** C6. A callback that found its session, obtained a token and fetched the
    authenticated account compares the two logins after [strings.ToLower]
    of both: on ASCII logins that is the comparison without the case of the
    letters, and ["Foo"] and ["foo"] agree.  If the logins differ, the
    events added are the requests to GitHub and one message to the chat of
    the session: the text below, which shows the requested login and the
    authorized one and is no success notification; the failure page below
    is written and the status is 200.  If they agree, the message is the
    success notification and the success page is written. *)
Theorem login_comparison (code state : string) (session : AuthSession)
    (wd wd1 wd2 : World) (token ttype : string) (scopes : list string)
    (user : GitHubUser) :
  code <> "" -> state <> "" ->
  authSessions wd !! state = Some session ->
  exchangeCodeForToken code (mkWorld (delete state (authSessions wd)) (events wd))
    = (inr (token, scopes, ttype), wd1) ->
  getGitHubUser token wd1 = (inr user, wd2) ->
  let run := handleGitHubCallback new_ResponseWriter code state wd in
  let notice :=
    "❌ Ошибка верификации!" +:+ nl +:+ nl
      +:+ "Запрашивался: @" +:+ RequestedLogin session +:+ nl
      +:+ "Авторизован: @" +:+ Login user +:+ nl +:+ nl
      +:+ "Пожалуйста, авторизуйтесь под правильным аккаунтом." in
  let page :=
    nl +:+ "<html>" +:+ nl
      +:+ "<head><title>Ошибка верификации</title></head>" +:+ nl
      +:+ "<body>" +:+ nl
      +:+ "<h1>❌ Ошибка верификации</h1>" +:+ nl
      +:+ "<p>Авторизован неправильный аккаунт. Закройте страницу и попробуйте снова.</p>"
      +:+ nl +:+ "</body>" +:+ nl +:+ "</html>" in
  (exists reqs, events wd2 = events wd ++ requests reqs)
  /\ (same_login (Login user) (RequestedLogin session) = false ->
      run.1 = mkResponseWriter (Some 200) page
      /\ run.1 = Write new_ResponseWriter failure_page
      /\ status_of run.1 = 200
      /\ events run.2 = events wd2 ++ [BotSend (ChatID session) notice]
      /\ notice = mismatch_message (RequestedLogin session) (Login user)
      /\ forall u, notice <> success_message u)
  /\ (same_login (Login user) (RequestedLogin session) = true ->
      run.1 = Write new_ResponseWriter (success_page (Login user))
      /\ exists line,
           events run.2
           = events wd2 ++ [BotSend (ChatID session) (success_message user);
                            LogPrintf line])
  /\ (forall a b, same_login a b = true <-> strings_ToLower a = strings_ToLower b)
  /\ (forall a b, isASCII a = true -> isASCII b = true ->
        (same_login a b = true <-> ToLower a = ToLower b))
  /\ same_login "Foo" "foo" = true.
Proof.
  intros Hc Hs Hin Hex Hu run notice page.
  assert (Hrun : run = callback_verify new_ResponseWriter code session
                         (mkWorld (delete state (authSessions wd)) (events wd))).
  { apply handleGitHubCallback_present; assumption. }
  split; [|split; [|split; [|split; [|split]]]].
  - apply exchangeCodeForToken_effect in Hex as (_ & reqs1 & He1).
    apply getGitHubUser_effect in Hu as (_ & reqs2 & He2).
    exists (reqs1 ++ reqs2). unfold requests.
    rewrite He2, He1, map_app, List.app_assoc. reflexivity.
  - intros Hdiff. rewrite Hrun.
    unfold callback_verify, mbind, MB_bind, bind. rewrite Hex, Hu, Hdiff. simpl.
    repeat split. intros u. apply mismatch_is_not_success.
  - intros Hsame. rewrite Hrun.
    unfold callback_verify, mbind, MB_bind, bind. rewrite Hex, Hu, Hsame. simpl.
    split; [reflexivity|]. eexists. rewrite <- app_assoc. reflexivity.
  - apply same_login_spec.
  - apply same_login_ascii.
  - reflexivity.
Qed.

Lemma contains_string_of_uint d : contains "_" (NilEmpty.string_of_uint d) = false.
Proof. induction d; simpl; assumption || reflexivity. Qed.

Lemma contains_FormatInt n : contains "_" (FormatInt n) = false.
Proof.
  unfold FormatInt, NilZero.string_of_int, NilZero.string_of_uint.
  destruct (Z.to_int n) as [d|d]; destruct d; simpl;
    try reflexivity; apply contains_string_of_uint.
Qed.

Lemma FormatInt_inj a b : FormatInt a = FormatInt b -> a = b.
Proof.
  unfold FormatInt. intros Heq.
  assert (Hnn : forall n, Z.to_int n <> Decimal.Pos Decimal.Nil
                          /\ Z.to_int n <> Decimal.Neg Decimal.Nil).
  { intros [|q|q]; simpl; split; try discriminate;
      intros [= Hq]; apply (Unsigned.to_uint_nonnil q); exact Hq. }
  apply DecimalZ.to_int_inj.
  assert (Some (Z.to_int a) = Some (Z.to_int b)) as [= ->]; [|reflexivity].
  rewrite <- (NilZero.isi (Z.to_int a)), <- (NilZero.isi (Z.to_int b))
    by apply Hnn.
  rewrite Heq. reflexivity.
Qed.

(** Two texts without underscore, each followed by an underscore and a
    rest: equal wholes have equal parts. *)
Lemma split_at_underscore a a' b b' :
  contains "_" a = false -> contains "_" a' = false ->
  a +:+ "_" +:+ b = a' +:+ "_" +:+ b' -> a = a' /\ b = b'.
Proof.
  revert a'. induction a as [|x a IH]; intros [|y a']; cbn.
  - intros _ _ Heq. injection Heq as Heq. split; [reflexivity|exact Heq].
  - intros _ Hy Heq. injection Heq as Hch _. subst y. cbn in Hy. discriminate.
  - intros Hx _ Heq. injection Heq as Hch _. subst x. cbn in Hx. discriminate.
  - intros Hx Hy Heq. injection Heq as Hch Hrest. subst y.
    apply orb_false_iff in Hx as [_ Hx]. apply orb_false_iff in Hy as [_ Hy].
    destruct (IH a' Hx Hy Hrest) as [-> ->]. split; reflexivity.
Qed.

(** C3, as the code has it. The state token is the decimal chat id, an
    underscore and the decimal clock reading in nanoseconds: it is the
    same for all surroundings that agree on the clock, whatever the random
    source holds, and two tokens are equal only for the same chat id and
    the same clock reading. *)
Theorem state_token_from_chat_and_clock (amb : Ambient) (chatID : Z) :
  generateState amb chatID = FormatInt chatID +:+ "_" +:+ FormatInt (UnixNano amb)
  /\ (forall amb', UnixNano amb' = UnixNano amb ->
        generateState amb' chatID = generateState amb chatID)
  /\ (forall amb' chatID',
        generateState amb' chatID' = generateState amb chatID ->
        chatID' = chatID /\ UnixNano amb' = UnixNano amb).
Proof.
  split; [reflexivity|]. split.
  - intros amb' Hclock. unfold generateState. rewrite Hclock. reflexivity.
  - intros amb' chatID' Heq. unfold generateState in Heq.
    apply split_at_underscore in Heq as [Hc Ht]; try apply contains_FormatInt.
    split; apply FormatInt_inj; assumption.
Qed.

End Callback.

(** ** Runs against the mocked server *)

Section ClientCoreRuns.
Import Go githubapi Mock.

Lemma mock_replies resp method path :
  replies (Mock.client resp) [] method path resp.
Proof.
  unfold replies, newReq. simpl. eexists. split; [reflexivity|].
  exists (Mock.canned resp). split; reflexivity.
Qed.

Lemma mock_profile_replies login resp method path :
  replies (profile_GitHubAPI (Mock.profile login resp)) [] method path resp.
Proof. apply mock_replies. Qed.

Lemma not_found_is_typed_witness :
  let resp := mkResponse 404 "Not Found" in
  let c := Mock.client resp in
  let p := Mock.profile "DilemaFixer" resp in
  (result_of (GetUserIfExists c " miiiiiiiiiaaaaaaaaaaayyyyyyyyy") []
     = Ret (None, Some (ProfileNotFoundError "miiiiiiiiiaaaaaaaaaaayyyyyyyyy"))
   /\ result_of (CheckUserExists c " miiiiiiiiiaaaaaaaaaaayyyyyyyyy") [] = Ret (false, None))
  /\ (result_of (GetUserByIdIfExist c 0) [] = Ret (None, Some (ProfileNotFoundError "0"))
      /\ result_of (CheckUserExistsById c 0) [] = Ret (false, None))
  /\ (result_of (GetRepoByIdIfExist c 0) [] = Ret (None, Some (RepoNotFoundError "0"))
      /\ result_of (CheckIsRepoExistsById c 0) [] = Ret (false, None))
  /\ (result_of (GetRepoIfExist p "labyba") [] = Ret (None, Some (RepoNotFoundError "labyba"))
      /\ result_of (IsRepoExist p "labyba") [] = Ret (false, None)).
Proof.
  intros resp c p.
  destruct (not_found_is_typed c p [] resp " miiiiiiiiiaaaaaaaaaaayyyyyyyyy"
              "labyba" 0 eq_refl) as (H1 & H2 & H3 & H4 & _).
  split; [|split; [|split]].
  - apply H1; [vm_compute; discriminate | apply mock_replies].
  - apply H2, mock_replies.
  - apply H3, mock_replies.
  - apply H4, mock_profile_replies.
Defined.

Lemma doJSON_skips_decoding_witness :
  let resp := mkResponse 204 "" in
  let c := Mock.client resp in
  let req := mkRequest "GET" "https://api.github.com/repositories/1" ∅ NoBody in
  doJSON c req (Some zero_repo) [] = (Ret (None, Some zero_repo), [req])
  /\ result_of (GetRepoByIdIfExist c 1) [] = Ret (Some zero_repo, None).
Proof.
  intros resp c req.
  assert (Hans : answers c [] req resp).
  { exists (Mock.canned resp). split; reflexivity. }
  destruct (doJSON_skips_decoding JSONTarget_repo c [] req resp (Some zero_repo) Hans)
    as (Hskip & _ & Hzero).
  split.
  - apply Hskip; [reflexivity | right; reflexivity].
  - apply Hzero; [reflexivity | reflexivity | apply mock_replies].
Defined.

(** C1 (as the code runs). The mocked server answers 500 with the body
    ["boom"]: the repository existence check by id reports [true] without
    an error, the check by name reports [false] without an error, and the
    fetch by name returns neither a repository nor an error; the fetch by
    id and the user checks, on the same answer, hand the typed HTTP error
    with status 500 and the raw body to the caller. *)
Theorem repo_lookups_swallow_http_500 :
  let resp := mkResponse 500 "boom" in
  let c := Mock.client resp in
  let p := Mock.profile "DilemaFixer" resp in
  result_of (CheckIsRepoExistsById c 984280187) [] = Ret (true, None)
  /\ result_of (IsRepoExist p "Annuum") [] = Ret (false, None)
  /\ result_of (GetRepoIfExist p "Annuum") [] = Ret (None, None)
  /\ result_of (GetRepoByIdIfExist c 984280187) [] = Ret (None, Some (HTTPError 500 "boom"))
  /\ result_of (CheckUserExistsById c 109586143) [] = Ret (false, Some (HTTPError 500 "boom"))
  /\ result_of (CheckUserExists c "DilemaFixer") [] = Ret (false, Some (HTTPError 500 "boom")).
Proof. repeat split; vm_compute; reflexivity. Qed.

(** C4 (as the code runs). The mocked server answers 200 with a body: the
    repository fetched by id, and the one fetched by name through a
    profile, carry the zero client (empty base URL, no transport) and not
    the configuration of the client that fetched them, so that a later call
    on the repository panics on the nil transport; the profile fetched by
    the same client carries its base URL, user agent, timeout and
    transport. *)
Theorem fetched_repo_lacks_client_configuration :
  let resp := mkResponse 200 "Annuum" in
  let c := Mock.client resp in
  let p := Mock.profile "DilemaFixer" resp in
  (exists r, result_of (GetRepoByIdIfExist c 984280187) [] = Ret (Some r, None)
     /\ repo_Name r = "Annuum"
     /\ repo_GitHubAPI r = zero_GitHubAPI
     /\ baseURL (repo_GitHubAPI r) <> baseURL c
     /\ http (repo_GitHubAPI r) = None
     /\ exists why, result_of (GetRepoTags r) [] = Panic why)
  /\ (exists r, result_of (GetRepoIfExist p "Annuum") [] = Ret (Some r, None)
        /\ repo_GitHubAPI r = zero_GitHubAPI
        /\ exists why, result_of (GetRepoTags r) [] = Panic why)
  /\ (exists q, result_of (GetUserByIdIfExist c 109586143) [] = Ret (Some q, None)
        /\ baseURL (profile_GitHubAPI q) = baseURL c
        /\ userAgent (profile_GitHubAPI q) = userAgent c
        /\ timeout (profile_GitHubAPI q) = timeout c
        /\ http (profile_GitHubAPI q) = http c).
Proof.
  intros resp c p. split; [|split].
  - eexists. split; [vm_compute; reflexivity|].
    repeat split; try discriminate. eexists. vm_compute. reflexivity.
  - eexists. split; [vm_compute; reflexivity|].
    repeat split. eexists. vm_compute. reflexivity.
  - eexists. split; [vm_compute; reflexivity|]. repeat split.
Qed.

End ClientCoreRuns.

Section RepoObjectsRuns.
Import Go githubapi Mock.

Lemma PreferredCloneURL_order_witness :
  let r := Mock.repo (mkResponse 200 "") in
  PreferredCloneURL r true = "git@x" /\ PreferredCloneURL r false = "https://x"
  /\ PreferredCloneURL r false = CloneURL r.
Proof.
  intros r.
  destruct (PreferredCloneURL_order r true) as (_ & _ & Hex).
  destruct (PreferredCloneURL_order r false) as (_ & Hrest & _).
  destruct (Hex eq_refl eq_refl) as [Hssh Hhttps].
  destruct (Hrest (or_introl eq_refl)) as (Hclone & _).
  split; [exact Hssh | split; [exact Hhttps | apply Hclone; discriminate]].
Defined.


(** The printed forms at both ends of a bucket, and where the conversion
    to float64 is no longer exact. *)
Example humanizeInt_samples :
  humanizeInt 0 = "0" /\ humanizeInt 1000 = "1.0k" /\ humanizeInt 1250 = "1.2k"
  /\ humanizeInt 999949 = "999.9k" /\ humanizeInt 999950 = "1000.0k"
  /\ humanizeInt 1000000 = "1.0M"
  /\ humanizeInt 90000000000049999 = "90000000000.1M"
  /\ StarsHuman (Mock.repo (mkResponse 200 "")) = "1.5k"
  /\ WatchersHuman (Mock.repo (mkResponse 200 "")) = "2.5M".
Proof. repeat split; vm_compute; reflexivity. Qed.


Lemma upload_contract_witness :
  let resp := mkResponse 422 "exists" in
  let r := Mock.repo resp in
  UploadMdFileWithToken r "   " "# notes" "" "" []
    = (Ret (None, Some (fmtError "filename is empty" [])), [])
  /\ result_of (UploadMdFileWithToken r " notes " "# notes" "" "") []
     = Ret (None, Some (fmtError "file %q already exists on branch %q: %s"
                          ["notes.md"; "main"; "exists"]))
  /\ (exists req body,
        log_of (UploadMdFileWithToken r " notes " "# notes" "" "") [] = [req]
        /\ ReqBody req = JSONObject body
        /\ body !! "content" = Some "IyBub3Rlcw=="
        /\ body !! "message" = Some "chore: add notes.md"
        /\ body !! "branch" = Some "main").
Proof.
  intros resp r.
  destruct (upload_contract r "   " "# notes" "" "" []) as (Hempty & _).
  destruct (upload_contract r " notes " "# notes" "" "" []) as (_ & Hsend & _).
  destruct (Hsend ltac:(vm_compute; discriminate) (Mock.canned resp) eq_refl eq_refl)
    as (req & body & Hlog & _ & _ & Hbody & Hc & _ & Hm & Hb & Hresp).
  destruct (Hresp resp eq_refl) as (H422 & _).
  split; [apply Hempty; reflexivity|].
  split; [exact (H422 eq_refl)|].
  exists req, body. repeat split; assumption.
Defined.

End RepoObjectsRuns.

Section CallbackRuns.
Import Go bot.

(** C3 (as written, refuted). With the clock at 1700000000000000000 ns the
    token of chat 42 is ["42_1700000000000000000"] whether the random
    source delivers bytes or fails: no token depends on the random
    source. *)
Lemma state_token_ignores_entropy :
  let amb1 := mkAmbient 1700000000000000000
                (fun n => Some (string_of_list_ascii (repeat "A"%char n))) in
  let amb2 := mkAmbient 1700000000000000000 (fun _ => None) in
  generateState amb1 42 = "42_1700000000000000000"
  /\ generateState amb2 42 = "42_1700000000000000000"
  /\ ~ token_uses_entropy.
Proof.
  repeat split.
  intros (a1 & a2 & chat & Hclock & Hdiff). apply Hdiff.
  unfold generateState. rewrite Hclock. reflexivity.
Qed.

Lemma state_token_from_chat_and_clock_witness :
  let amb := mkAmbient 1700000000000000000 (fun _ => None) in
  generateState amb 42 = "42_1700000000000000000"
  /\ (generateState (mkAmbient 1700000000000000000 (fun _ => Some "")) 42
      = generateState amb 42).
Proof.
  intros amb.
  destruct (state_token_from_chat_and_clock amb 42) as (Hfmt & Hsame & _).
  split; [exact Hfmt | apply Hsame; reflexivity].
Defined.

Lemma login_comparison_witness :
  let ext := MockBot.externals MockBot.Foo in
  let state := "42_1700000000000000000" in
  let run := handleGitHubCallback new_ResponseWriter "code" state
               (MockBot.world MockBot.session_bar) in
  run.1 = Write new_ResponseWriter failure_page
  /\ status_of run.1 = 200
  /\ bot_sends (events run.2) = [(42, mismatch_message "bar" "Foo")]
  /\ same_login "Foo" "foo" = true.
Proof.
  intros ext state run.
  edestruct (login_comparison (ext := ext) "code" state MockBot.session_bar
               (MockBot.world MockBot.session_bar))
    as (_ & Hdiff & _ & _ & _ & Hfoo).
  - discriminate.
  - discriminate.
  - reflexivity.
  - vm_compute. reflexivity.
  - vm_compute. reflexivity.
  - destruct (Hdiff eq_refl) as (_ & Hpage & Hstatus & Hev & _).
    split; [exact Hpage|]. split; [exact Hstatus|]. split; [|exact Hfoo].
    subst run. rewrite Hev. vm_compute. reflexivity.
Defined.

(** Logins that differ in the case of letters outside ASCII, or by the
    Kelvin sign, agree as well; other letters do not. *)
Example login_comparison_samples :
  let ext := MockBot.externals MockBot.Foo in
  same_login "École" "école" = true
  /\ same_login "K" "k" = true
  /\ same_login "Foo" "FOO" = true
  /\ same_login "Foo" "Fou" = false.
Proof. repeat split. Qed.

Lemma session_token_consumed_at_most_once_witness :
  let ext := MockBot.externals MockBot.Foo in
  let state := "42_1700000000000000000" in
  let wd0 := MockBot.world MockBot.session_foo in
  let pool := [Holding "code-1" state MockBot.session_foo;
               Rejected (http_Error new_ResponseWriter "Invalid state" StatusBadRequest)] in
  rtc step (wd0, [Arrived "code-1" state; Arrived "code-2" state])
           (mkWorld (delete state (authSessions wd0)) [], pool)
  /\ (forall i j ti tj,
        pool !! i = Some ti -> pool !! j = Some tj ->
        took state ti -> took state tj -> i = j)
  /\ status_of (http_Error new_ResponseWriter "Invalid state" StatusBadRequest)
     = StatusBadRequest.
Proof.
  intros ext state wd0 pool.
  assert (Hreach : rtc step (wd0, [Arrived "code-1" state; Arrived "code-2" state])
                     (mkWorld (delete state (authSessions wd0)) [], pool)).
  { set (wd1 := mkWorld (delete state (authSessions wd0)) []).
    set (pool0 := [Arrived "code-1" state; Arrived "code-2" state]).
    set (pool1 := [Holding "code-1" state MockBot.session_foo; Arrived "code-2" state]).
    assert (S1 : step (wd0, pool0)
                   (wd1, <[0%nat := after_entry "code-1" state (inr MockBot.session_foo)]> pool0))
      by (apply (step_entry (ext := ext)); reflexivity).
    assert (S2 : step (wd1, pool1)
                   (wd1, <[1%nat := after_entry "code-2" state
                            (inl (http_Error new_ResponseWriter "Invalid state"
                                    StatusBadRequest))]> pool1))
      by (apply (step_entry (ext := ext)); reflexivity).
    apply (rtc_l step _ (wd1, pool1)); [exact S1|].
    apply rtc_once. exact S2. }
  assert (Harr : Forall is_Arrived [Arrived "code-1" state; Arrived "code-2" state])
    by (repeat constructor).
  destruct (session_token_consumed_at_most_once (ext := ext) wd0 _ _ _ Harr Hreach)
    as (Huniq & _ & Hrej & _).
  split; [exact Hreach|]. split.
  - intros i j ti tj. apply Huniq.
  - apply (Hrej 1%nat). reflexivity.
Defined.

End CallbackRuns.

(* ===================================================================== *)
(** * Strings: prefixes, suffixes, splitting and joining                 *)
(* ===================================================================== *)

Section StringFacts.
Import Go.

Lemma append_cons x (a b : string) : String x a +:+ b = String x (a +:+ b).
Proof. reflexivity. Qed.

Lemma append_assoc (a b c : string) : (a +:+ b) +:+ c = a +:+ b +:+ c.
Proof.
  induction a as [|x a IH]; [reflexivity|]. rewrite !append_cons. f_equal. exact IH.
Qed.

Lemma append_nil_r (a : string) : a +:+ "" = a.
Proof. induction a as [|x a IH]; [reflexivity|]. rewrite append_cons, IH. reflexivity. Qed.

Lemma rev_string_acc_app s : forall acc,
  rev_string_acc s acc = rev_string_acc s "" +:+ acc.
Proof.
  induction s as [|a s IH]; intros acc; [reflexivity|].
  simpl. rewrite (IH (String a acc)), (IH (String a "")), append_assoc. reflexivity.
Qed.

Lemma rev_string_cons a s : rev_string (String a s) = rev_string s +:+ String a "".
Proof. unfold rev_string. simpl. apply rev_string_acc_app. Qed.

Lemma rev_string_app s t : rev_string (s +:+ t) = rev_string t +:+ rev_string s.
Proof.
  induction s as [|a s IH].
  - change ("" +:+ t) with t. change (rev_string "") with "". rewrite append_nil_r. reflexivity.
  - rewrite append_cons, !rev_string_cons, IH, append_assoc. reflexivity.
Qed.

Lemma rev_string_involutive s : rev_string (rev_string s) = s.
Proof.
  induction s as [|a s IH]; [reflexivity|].
  rewrite rev_string_cons, rev_string_app, IH. reflexivity.
Qed.

Lemma HasPrefix_empty s : HasPrefix s "" = true.
Proof. destruct s; reflexivity. Qed.

Lemma HasPrefix_spec s p : HasPrefix s p = true <-> exists t, s = p +:+ t.
Proof.
  revert s. induction p as [|b p IH]; intros s.
  - split; [intros _; exists s; reflexivity | intros _; apply HasPrefix_empty].
  - destruct s as [|a s]; simpl.
    + split; [discriminate | intros [t Ht]; discriminate].
    + rewrite andb_true_iff, IH. unfold eqb_byte. rewrite Ascii.eqb_eq. split.
      * intros [-> [t ->]]. exists t. reflexivity.
      * intros [t Ht]. rewrite append_cons in Ht. injection Ht as -> ->.
        split; [reflexivity | exists t; reflexivity].
Qed.

Lemma HasSuffix_spec s suffix : HasSuffix s suffix = true <-> exists pre, s = pre +:+ suffix.
Proof.
  unfold HasSuffix. rewrite HasPrefix_spec. split.
  - intros [t Ht]. exists (rev_string t).
    rewrite <- (rev_string_involutive s), Ht, rev_string_app, rev_string_involutive.
    reflexivity.
  - intros [pre ->]. exists (rev_string pre). apply rev_string_app.
Qed.

Lemma ToLower_app s t : ToLower (s +:+ t) = ToLower s +:+ ToLower t.
Proof.
  induction s as [|a s IH]; [reflexivity|].
  rewrite append_cons. simpl. rewrite IH. reflexivity.
Qed.

Lemma EqualFold_ToLower s t : EqualFold s t = String.eqb (ToLower s) (ToLower t).
Proof.
  revert t. induction s as [|a s IH]; intros [|b t]; simpl; try reflexivity.
  rewrite IH. reflexivity.
Qed.

Lemma ContainsByte_app s t c :
  ContainsByte (s +:+ t) c = ContainsByte s c || ContainsByte t c.
Proof.
  induction s as [|a s IH]; [reflexivity|].
  rewrite append_cons. simpl. rewrite IH. apply orb_assoc.
Qed.

Lemma Split_byte_nonempty s sep : Split_byte s sep <> [].
Proof.
  destruct s as [|a s]; simpl; [discriminate|].
  destruct (eqb_byte a sep); [discriminate|].
  destruct (Split_byte s sep); discriminate.
Qed.

Lemma Split_byte_app x t sep :
  ContainsByte x sep = false ->
  Split_byte (x +:+ String sep t) sep = x :: Split_byte t sep.
Proof.
  induction x as [|a x IH]; intros Hx.
  - simpl. unfold eqb_byte. rewrite Ascii.eqb_refl. reflexivity.
  - simpl in Hx. apply orb_false_elim in Hx as [Ha Hx].
    rewrite append_cons. simpl. rewrite Ha, (IH Hx). reflexivity.
Qed.

Lemma Split_byte_none x sep :
  ContainsByte x sep = false -> Split_byte x sep = [x].
Proof.
  induction x as [|a x IH]; intros Hx; [reflexivity|].
  simpl in Hx. apply orb_false_elim in Hx as [Ha Hx].
  simpl. rewrite Ha, (IH Hx). reflexivity.
Qed.

(** Splitting what [Join] made gives the parts back, if no part holds the
    separator. *)
Lemma Split_byte_Join l sep :
  l <> [] -> Forall (fun x => ContainsByte x sep = false) l ->
  Split_byte (Join l (String sep "")) sep = l.
Proof.
  induction l as [|x l IH]; intros Hne Hall; [contradiction|].
  apply Forall_cons in Hall as [Hx Hall].
  destruct l as [|y l].
  - simpl. apply Split_byte_none, Hx.
  - change (Join (x :: y :: l) (String sep ""))
      with (x +:+ String sep "" +:+ Join (y :: l) (String sep "")).
    change (String sep "" +:+ Join (y :: l) (String sep ""))
      with (String sep (Join (y :: l) (String sep ""))).
    rewrite Split_byte_app by assumption. f_equal. apply IH; [discriminate|assumption].
Qed.

(** What the two escapes never leave in their output. *)
Lemma QueryEscape_plain s c :
  c = "&"%char \/ c = "="%char \/ c = " "%char \/ c = "#"%char \/ c = "?"%char
  \/ c = "/"%char ->
  ContainsByte (QueryEscape s) c = false.
Proof.
  intros Hc. induction s as [|a s IH]; [reflexivity|].
  destruct a as [[] [] [] [] [] [] [] []];
    cbn -[ContainsByte]; (decompose [or] Hc; subst c; simpl; exact IH).
Qed.

Lemma PathEscape_plain s c :
  c = "/"%char \/ c = "?"%char \/ c = "#"%char \/ c = " "%char \/ c = ";"%char
  \/ c = ","%char ->
  ContainsByte (PathEscape s) c = false.
Proof.
  intros Hc. induction s as [|a s IH]; [reflexivity|].
  destruct a as [[] [] [] [] [] [] [] []];
    cbn -[ContainsByte]; (decompose [or] Hc; subst c; simpl; exact IH).
Qed.

Lemma PathEscape_uint d :
  PathEscape (NilEmpty.string_of_uint d) = NilEmpty.string_of_uint d.
Proof. induction d; simpl; try rewrite IHd; reflexivity. Qed.

(** A decimal rendering needs no escaping. *)
Lemma PathEscape_FormatInt n : PathEscape (FormatInt n) = FormatInt n.
Proof.
  unfold FormatInt, NilZero.string_of_int, NilZero.string_of_uint.
  destruct (Z.to_int n) as [d|d]; destruct d; simpl; try reflexivity;
    rewrite PathEscape_uint; reflexivity.
Qed.

Lemma trim_left_all_blank fuel : forall s,
  all_bytes asciiSpace s = true -> (String.length s <= fuel)%nat ->
  trim_left_space fuel s = "".
Proof.
  induction fuel as [|fuel IH]; intros [|a s] Hb Hlen; simpl in *;
    try reflexivity; try lia.
  apply andb_prop in Hb as [Ha Hs]. rewrite Ha. simpl. apply IH; [assumption|lia].
Qed.

(** Text made of ASCII white space trims to nothing. *)
Lemma TrimSpace_all_blank s : all_bytes asciiSpace s = true -> TrimSpace s = "".
Proof.
  intros Hb. unfold TrimSpace. rewrite trim_left_all_blank by (auto; lia). reflexivity.
Qed.

Lemma LimitReader_prefix body : forall n, exists rest, body = LimitReader body n +:+ rest.
Proof.
  induction body as [|a body IH]; intros n; simpl.
  - exists "". reflexivity.
  - destruct (N.eqb n 0); [eexists; reflexivity|].
    destruct (IH (N.pred n)) as [rest Hrest]. exists rest.
    rewrite append_cons. f_equal. exact Hrest.
Qed.

Lemma LimitReader_length body : forall n,
  Z.of_nat (String.length (LimitReader body n))
  = Z.min (Z.of_nat (String.length body)) (Z.of_N n).
Proof.
  induction body as [|a body IH]; intros n; simpl String.length.
  - simpl. lia.
  - simpl LimitReader. destruct (N.eqb_spec n 0) as [->|Hn]; simpl String.length; [lia|].
    rewrite !Nat2Z.inj_succ, IH. lia.
Qed.

End StringFacts.

(* ===================================================================== *)
(** * The client core: requests, failures and the authorization link     *)
(* ===================================================================== *)

Section ClientRequests.
Import Go githubapi.
Context {ext : Externals}.

Lemma newReq_plain_get c path req :
  newReq c "GET" path NoBody = inr req -> plain_get c (baseURL c +:+ path) req.
Proof.
  unfold newReq. destruct (NewRequest_error _ _); [discriminate|].
  intros [= <-]. unfold plain_get, Header_Set.
  destruct (String.eqb (userAgent c) ""); cbn [negb Method URL Header ReqBody];
    (split; [reflexivity|]); (split; [reflexivity|]); (split; [reflexivity|]).
  - split; [apply lookup_insert_eq|]. split.
    + rewrite lookup_insert_ne by discriminate. apply lookup_empty.
    + intros k Hk _. rewrite lookup_insert_ne by congruence. apply lookup_empty.
  - split; [rewrite lookup_insert_ne by discriminate; apply lookup_insert_eq|].
    split; [apply lookup_insert_eq|].
    intros k Ha Hu. rewrite !lookup_insert_ne by congruence. apply lookup_empty.
Qed.

Lemma newReq_accepted c method path body :
  NewRequest_error method (baseURL c +:+ path) = None ->
  exists req, newReq c method path body = inr req.
Proof. unfold newReq. intros ->. eexists. reflexivity. Qed.

(** Whatever follows [doJSON] without sending, the log grows by the one
    request. *)
Lemma log_of_bind_doJSON {T} `{JSONTarget T} {B} c req (out : option T) d sent
    (k : option error * option T -> M B) :
  http c = Some d ->
  (forall a, exists b, k a (sent ++ [req]) = (b, sent ++ [req])) ->
  log_of (x ← doJSON c req out; k x) sent = sent ++ [req].
Proof.
  intros Hd Hk. destruct (doJSON_sends c sent req out d Hd) as [a Ha].
  unfold log_of. erewrite run_bind by exact Ha.
  destruct (Hk a) as [b ->]. reflexivity.
Qed.

Ltac after_doJSON :=
  intros [[e|] o]; simpl;
  repeat match goal with
         | |- context [if ?b then _ else _] => destruct b
         end; eexists; reflexivity.

Ltac header_lookup :=
  repeat (rewrite lookup_insert_ne by discriminate);
  first [apply lookup_insert_eq | apply lookup_empty].

(** X1. A username that is empty or made of ASCII white space only is
    refused by the existence check and by the fetch with the error
    ["username is empty"]; no request is built or sent, so that this holds
    for every client, one without a transport included. *)
Theorem blank_username_is_refused (c : GitHubAPI) (username : string)
    (sent : list Request) :
  all_bytes asciiSpace username = true ->
  CheckUserExists c username sent
    = (Ret (false, Some (errorString "username is empty")), sent)
  /\ GetUserIfExists c username sent
    = (Ret (None, Some (errorString "username is empty")), sent).
Proof.
  intros Hb. unfold CheckUserExists, GetUserIfExists.
  rewrite (TrimSpace_all_blank _ Hb). split; reflexivity.
Qed.

(** X2. Each lookup by numeric id sends exactly one request: a GET without
    body of the base URL followed by [/user/] (users) or [/repositories/]
    (repositories) and the decimal id, which needs no escaping; it carries
    the [Accept] header of the API, the user agent of the client when there
    is one, and no other header, in particular no credentials. *)
Theorem id_lookups_send_one_plain_get (c : GitHubAPI) (d : Doer)
    (sent : list Request) (id : Z) :
  http c = Some d ->
  (NewRequest_error "GET" (baseURL c +:+ "/user/" +:+ FormatInt id) = None ->
   exists req,
     plain_get c (baseURL c +:+ "/user/" +:+ FormatInt id) req
     /\ log_of (CheckUserExistsById c id) sent = sent ++ [req]
     /\ log_of (GetUserByIdIfExist c id) sent = sent ++ [req])
  /\ (NewRequest_error "GET" (baseURL c +:+ "/repositories/" +:+ FormatInt id) = None ->
      exists req,
        plain_get c (baseURL c +:+ "/repositories/" +:+ FormatInt id) req
        /\ log_of (CheckIsRepoExistsById c id) sent = sent ++ [req]
        /\ log_of (GetRepoByIdIfExist c id) sent = sent ++ [req]).
Proof.
  intros Hd. split; intros Hacc.
  - destruct (newReq_accepted c "GET" ("/user/" +:+ FormatInt id) NoBody Hacc) as [req Hreq].
    exists req. split; [apply newReq_plain_get, Hreq|].
    unfold CheckUserExistsById, GetUserByIdIfExist.
    rewrite PathEscape_FormatInt, Hreq.
    split; apply (log_of_bind_doJSON _ _ _ d); try assumption; after_doJSON.
  - destruct (newReq_accepted c "GET" ("/repositories/" +:+ FormatInt id) NoBody Hacc)
      as [req Hreq].
    exists req. split; [apply newReq_plain_get, Hreq|].
    unfold CheckIsRepoExistsById, GetRepoByIdIfExist.
    rewrite PathEscape_FormatInt, Hreq.
    split; apply (log_of_bind_doJSON _ _ _ d); try assumption; after_doJSON.
Qed.

(** X3. [doJSON] reads at most the first 2^20 bytes of a response body.
    The body of the HTTP error it returns for a non-2xx answer is the
    prefix of the response body of that length (the whole body when it is
    shorter); and two answers with the same status whose bodies agree on
    their first 2^20 bytes give the same result, whatever the target and
    its decoder are. *)
Theorem response_body_is_capped {T} (decoder : JSONTarget T) (c1 c2 : GitHubAPI)
    (sent : list Request) (req : Request) (resp1 resp2 : Response) (out : option T) :
  answers c1 sent req resp1 -> answers c2 sent req resp2 ->
  (is_2xx resp1 = false ->
   exists b rest,
     doJSON c1 req out sent
       = (Ret (Some (HTTPError (StatusCode resp1) b), out), sent ++ [req])
     /\ Body resp1 = b +:+ rest
     /\ Z.of_nat (String.length b)
        = Z.min (Z.of_nat (String.length (Body resp1))) (2 ^ 20))
  /\ (StatusCode resp1 = StatusCode resp2 ->
      LimitReader (Body resp1) (N.shiftl 1 20) = LimitReader (Body resp2) (N.shiftl 1 20) ->
      doJSON c1 req out sent = doJSON c2 req out sent).
Proof.
  intros H1 H2. split.
  - intros Hno. destruct (LimitReader_prefix (Body resp1) (N.shiftl 1 20)) as [rest Hrest].
    exists (capped_body resp1), rest.
    rewrite (doJSON_any_answer _ _ _ _ _ H1).
    split; [|split; [exact Hrest|]].
    { destruct out as [v0|].
      - rewrite decoded_non_2xx by assumption. reflexivity.
      - rewrite status_error_non_2xx by assumption. reflexivity. }
    unfold capped_body. rewrite LimitReader_length. reflexivity.
  - intros Hcode Hbody.
    rewrite (doJSON_any_answer _ _ _ _ _ H1), (doJSON_any_answer _ _ _ _ _ H2).
    unfold decoded, status_error, is_2xx, capped_body. rewrite Hcode, Hbody. reflexivity.
Qed.

(** X4. A 2xx answer whose non-empty body the decoder refuses: the fetches
    of a user (by name and by id) and of a repository by id return no
    object and the decoder's error, unchanged; the existence checks of a
    user, which pass no target, do not decode and answer that the user
    exists. *)
Theorem decode_failure_reaches_caller (c : GitHubAPI) (sent : list Request)
    (resp : Response) (username : string) (id : Z) (e : error) :
  is_2xx resp = true -> capped_body resp <> "" ->
  is_HTTPError_with e StatusNotFound = false ->
  (Unmarshal_profile (capped_body resp) zero_profile = inl e ->
   (TrimSpace username <> "" ->
    replies c sent "GET" ("/users/" +:+ PathEscape (TrimSpace username)) resp ->
    result_of (GetUserIfExists c username) sent = Ret (None, Some e)
    /\ result_of (CheckUserExists c username) sent = Ret (true, None))
   /\ (replies c sent "GET" ("/user/" +:+ PathEscape (FormatInt id)) resp ->
       result_of (GetUserByIdIfExist c id) sent = Ret (None, Some e)
       /\ result_of (CheckUserExistsById c id) sent = Ret (true, None)))
  /\ (Unmarshal_repo (capped_body resp) zero_repo = inl e ->
      replies c sent "GET" ("/repositories/" +:+ PathEscape (FormatInt id)) resp ->
      result_of (GetRepoByIdIfExist c id) sent = Ret (None, Some e)).
Proof.
  intros H2xx Hbody Hnf.
  assert (Hlen : (String.length (capped_body resp) =? 0)%nat = false).
  { destruct (String.length (capped_body resp) =? 0)%nat eqn:E; [|reflexivity].
    apply length_zero_empty in E. contradiction. }
  assert (Hst : status_error resp = None) by (unfold status_error; rewrite H2xx; reflexivity).
  split.
  - intros Hdec.
    assert (Hd : decoded resp zero_profile = (Some e, zero_profile)).
    { unfold decoded. rewrite H2xx, Hlen. unfold Unmarshal, JSONTarget_profile.
      rewrite Hdec. reflexivity. }
    split.
    + intros Hne Hrep. split.
      * erewrite GetUserIfExists_reply by eassumption. rewrite Hd.
        unfold translate_404. rewrite Hnf. reflexivity.
      * erewrite CheckUserExists_reply by eassumption. rewrite Hst. reflexivity.
    + intros Hrep. split.
      * erewrite GetUserByIdIfExist_reply by eassumption. rewrite Hd.
        unfold translate_404. rewrite Hnf. reflexivity.
      * erewrite CheckUserExistsById_reply by eassumption. rewrite Hst. reflexivity.
  - intros Hdec Hrep.
    erewrite GetRepoByIdIfExist_reply by eassumption.
    unfold decoded. rewrite H2xx, Hlen. unfold Unmarshal, JSONTarget_repo.
    rewrite Hdec. unfold translate_404. rewrite Hnf. reflexivity.
Qed.

Lemma GetPublicRepos_reply p sent resp :
  replies (profile_GitHubAPI p) sent "GET" ("/users/" +:+ Login p +:+ "/repos") resp ->
  result_of (GetPublicRepos p) sent
  = Ret (match decoded resp [] with
         | (Some err, _) => (None, Some err)
         | (None, l) => (Some l, None)
         end).
Proof.
  intros (req & Hreq & Hans).
  unfold result_of, GetPublicRepos. rewrite Hreq.
  erewrite run_bind by (apply doJSON_answer; exact Hans). simpl.
  destruct (decoded resp []) as [[err|] l]; reflexivity.
Qed.

Lemma GetRepoTags_reply r sent resp :
  replies (repo_GitHubAPI r) sent "GET"
    ("/repos/" +:+ PathEscape (owner_Login (Owner r)) +:+ "/"
       +:+ PathEscape (repo_Name r) +:+ "/tags") resp ->
  result_of (GetRepoTags r) sent
  = Ret (match decoded resp [] with
         | (Some err, _) => (None, Some err)
         | (None, l) => (Some l, None)
         end).
Proof.
  intros (req & Hreq & Hans).
  unfold result_of, GetRepoTags. rewrite Hreq.
  erewrite run_bind by (apply doJSON_answer; exact Hans). simpl.
  destruct (decoded resp []) as [[err|] l]; reflexivity.
Qed.

(** X5. The two listings, of a profile's repositories and of a
    repository's tags, return every non-2xx answer as the HTTP error of its
    status and (capped) body and no list; a 404 is no exception: it comes
    back as that HTTP error and not as a not-found error. *)
Theorem listings_pass_errors_through (p : GitHubProfileAPI) (r : GitHubRepoAPI)
    (sent : list Request) (resp : Response) :
  is_2xx resp = false ->
  let err := HTTPError (StatusCode resp) (capped_body resp) in
  (replies (profile_GitHubAPI p) sent "GET" ("/users/" +:+ Login p +:+ "/repos") resp ->
   result_of (GetPublicRepos p) sent = Ret (None, Some err))
  /\ (replies (repo_GitHubAPI r) sent "GET"
        ("/repos/" +:+ PathEscape (owner_Login (Owner r)) +:+ "/"
           +:+ PathEscape (repo_Name r) +:+ "/tags") resp ->
      result_of (GetRepoTags r) sent = Ret (None, Some err))
  /\ err <> ProfileNotFoundError (Login p) /\ err <> RepoNotFoundError (repo_Name r).
Proof.
  intros Hno err. split; [|split; [|split; discriminate]]; intros Hrep.
  - rewrite (GetPublicRepos_reply _ _ _ Hrep), decoded_non_2xx by assumption. reflexivity.
  - rewrite (GetRepoTags_reply _ _ _ Hrep), decoded_non_2xx by assumption. reflexivity.
Qed.

Lemma WithOptions_no_token hc opts :
  Forall package_option opts -> accessToken (WithOptions hc opts) = "".
Proof.
  unfold WithOptions.
  generalize (NewDefaultGitHubAPI hc)
             (eq_refl : accessToken (NewDefaultGitHubAPI hc) = "").
  induction opts as [|o opts IH]; intros c Hc Hall; [exact Hc|].
  apply Forall_cons in Hall as [Ho Hall]. simpl. apply IH; [|exact Hall].
  destruct Ho; exact Hc.
Qed.

(** X6. The request of an upload carries the content type
    [application/json], the [Accept] header of the API, the user agent of
    the repository's client when there is one, and an [Authorization]
    header, [Bearer] and the access token, exactly when that client holds a
    non-empty access token.  A client built by [WithOptions] from the
    options of the package holds none, so that an upload through such a
    client is sent without credentials. *)
Theorem upload_headers (r : GitHubRepoAPI) (filename content commitMsg branch : string)
    (sent : list Request) (d : Doer) :
  let c := repo_GitHubAPI r in
  TrimSpace filename <> "" ->
  http c = Some d ->
  NewRequest_error "PUT" (baseURL c +:+ upload_path r (md_name (TrimSpace filename))) = None ->
  exists req,
    log_of (UploadMdFileWithToken r filename content commitMsg branch) sent = sent ++ [req]
    /\ Header req !! "Content-Type" = Some "application/json"
    /\ Header req !! "Accept" = Some "application/vnd.github.v3+json"
    /\ Header req !! "User-Agent"
       = (if String.eqb (userAgent c) "" then None else Some (userAgent c))
    /\ Header req !! "Authorization"
       = (if String.eqb (accessToken c) "" then None
          else Some ("Bearer " +:+ accessToken c))
    /\ (forall hc opts,
          Forall package_option opts -> c = WithOptions hc opts ->
          Header req !! "Authorization" = None).
Proof.
  intros c Hne Hd Hurl. apply String.eqb_neq in Hne.
  unfold UploadMdFileWithToken. rewrite Hne.
  set (fn := md_name (TrimSpace filename)) in *.
  set (msg := if String.eqb commitMsg "" then _ else _).
  set (br := if String.eqb branch "" then _ else _).
  unfold newReq. fold c. rewrite Hurl.
  set (req := if negb (String.eqb (accessToken c) "") then _ else _).
  exists req.
  assert (Hauth : Header req !! "Authorization"
            = (if String.eqb (accessToken c) "" then None
               else Some ("Bearer " +:+ accessToken c))).
  { unfold req, Header_Set.
    destruct (String.eqb (accessToken c) ""), (String.eqb (userAgent c) "");
      cbn [negb Header]; header_lookup. }
  split; [|split; [|split; [|split; [|split]]]].
  - destruct (doJSON_sends c sent req (Some zero_CreateContentResp) d Hd)
      as ([err out] & Hsend).
    unfold log_of. erewrite run_bind by exact Hsend.
    destruct err as [err|]; [|reflexivity].
    destruct (is_HTTPError_with err StatusUnprocessableEntity); reflexivity.
  - unfold req, Header_Set.
    destruct (String.eqb (accessToken c) ""), (String.eqb (userAgent c) "");
      cbn [negb Header]; header_lookup.
  - unfold req, Header_Set.
    destruct (String.eqb (accessToken c) ""), (String.eqb (userAgent c) "");
      cbn [negb Header]; header_lookup.
  - unfold req, Header_Set.
    destruct (String.eqb (accessToken c) ""), (String.eqb (userAgent c) "");
      cbn [negb Header]; header_lookup.
  - exact Hauth.
  - intros hc opts Hopts Hc. rewrite Hauth, Hc, WithOptions_no_token by assumption.
    reflexivity.
Qed.

End ClientRequests.

(* ===================================================================== *)
(** * The authorization link and the PKCE pair                           *)
(* ===================================================================== *)

Section Authorization.
Import Go githubapi.
Context {ext : Externals}.

Lemma length_pair_pos (a b : string) :
  (0 <? String.length (a +:+ "=" +:+ b))%nat = true.
Proof. destruct a; reflexivity. Qed.

Lemma length_pos_app (a b : string) :
  (0 <? String.length a)%nat = true -> (0 <? String.length (a +:+ b))%nat = true.
Proof. destruct a; [discriminate|reflexivity]. Qed.

Lemma enc_step_single v buf k x :
  v !! k = Some [x] -> (0 <? String.length buf)%nat = true ->
  enc_step v buf k = buf +:+ "&" +:+ encode_pair (k, x).
Proof.
  intros Hk Hbuf. unfold enc_step. rewrite Hk. cbn [default from_option id foldl].
  rewrite Hbuf. unfold encode_pair. cbn [fst snd]. apply append_assoc.
Qed.

Lemma Encode_loop (v : Values) pairs : forall buf,
  Forall (fun kv => v !! kv.1 = Some [kv.2]) pairs ->
  (0 <? String.length buf)%nat = true ->
  foldl (enc_step v) buf pairs.*1
  = buf +:+ foldr (fun kv rest => "&" +:+ encode_pair kv +:+ rest) "" pairs.
Proof.
  induction pairs as [|[k x] pairs IH]; intros buf Hall Hbuf.
  - cbn [fmap list_fmap foldl foldr]. symmetry. apply append_nil_r.
  - apply Forall_cons in Hall as [Hk Hall]. cbn [fst snd] in Hk.
    cbn [fmap list_fmap fst foldl foldr]. rewrite (enc_step_single _ _ _ _ Hk Hbuf).
    rewrite IH; [|assumption|apply length_pos_app, Hbuf].
    rewrite !append_assoc. reflexivity.
Qed.

Lemma Join_foldr x l :
  Join (x :: l) "&" = x +:+ foldr (fun y rest => "&" +:+ y +:+ rest) "" l.
Proof.
  revert x. induction l as [|y l IH]; intros x.
  - cbn [Join foldr]. symmetry. apply append_nil_r.
  - change (Join (x :: y :: l) "&") with (x +:+ "&" +:+ Join (y :: l) "&").
    rewrite IH. reflexivity.
Qed.

Lemma foldr_map_pairs pairs :
  foldr (fun kv rest => "&" +:+ encode_pair kv +:+ rest) "" pairs
  = foldr (fun y rest => "&" +:+ y +:+ rest) "" (map encode_pair pairs).
Proof. induction pairs as [|p pairs IH]; [reflexivity|]. simpl. rewrite IH. reflexivity. Qed.

(** [Encode] on values with one value per key: the pairs in the order of
    the keys, joined by [&]. *)
Lemma Values_Encode_pairs (v : Values) pairs :
  sort_strings (elements (dom v)) = pairs.*1 ->
  Forall (fun kv => v !! kv.1 = Some [kv.2]) pairs ->
  Values_Encode v = Join (map encode_pair pairs) "&".
Proof.
  intros Hkeys Hall.
  change (Values_Encode v) with (foldl (enc_step v) "" (sort_strings (elements (dom v)))).
  rewrite Hkeys.
  destruct pairs as [|[k x] pairs]; [reflexivity|].
  apply Forall_cons in Hall as [Hk Hall]. cbn [fst snd] in Hk.
  cbn [fmap list_fmap fst foldl map]. rewrite Join_foldr, <- foldr_map_pairs.
  assert (E : enc_step v "" k = encode_pair (k, x)).
  { unfold enc_step. rewrite Hk. reflexivity. }
  rewrite E. apply Encode_loop; [assumption|apply length_pair_pos].
Qed.

Lemma encode_pair_split kv :
  Split_byte (encode_pair kv) "=" = [QueryEscape kv.1; QueryEscape kv.2].
Proof.
  unfold encode_pair.
  change ("=" +:+ QueryEscape kv.2) with (String "=" (QueryEscape kv.2)).
  rewrite Split_byte_app by (apply QueryEscape_plain; tauto).
  rewrite Split_byte_none by (apply QueryEscape_plain; tauto). reflexivity.
Qed.

Lemma encode_pair_no_amp kv : ContainsByte (encode_pair kv) "&" = false.
Proof.
  unfold encode_pair. rewrite !ContainsByte_app, !QueryEscape_plain by tauto. reflexivity.
Qed.

(** X7. [AuthURL] never fails.  Its result is the authorize endpoint, a
    question mark and a query which, split at [&], gives exactly one part
    per parameter that was set, in the order of the keys: [allow_signup]
    (only when sign-up is not allowed), [client_id] (always),
    [code_challenge] and [code_challenge_method] (with a PKCE pair),
    [login], [redirect_uri], [scope] and [state] (each when non-empty).
    Each part, split at [=], is the escaped key and the escaped value:
    nothing in a user name, a state or a scope can add a parameter or end
    a value early. *)
Theorem AuthURL_parameters (c : GitHubAPI) (username state : string)
    (scopes : list string) (allowSignup : bool) (pkce : option PKCE) :
  let params := auth_params c username state scopes allowSignup pkce in
  exists query,
    AuthURL c username state scopes allowSignup pkce
      = ("https://github.com/login/oauth/authorize?" +:+ query, None)
    /\ query = Join (map encode_pair params) "&"
    /\ Split_byte query "&" = map encode_pair params
    /\ Forall (fun kv => Split_byte (encode_pair kv) "="
                         = [QueryEscape kv.1; QueryEscape kv.2]) params.
Proof.
  intros params. exists (Join (map encode_pair params) "&").
  split; [|split; [reflexivity|split]].
  - unfold AuthURL. f_equal. f_equal. subst params. unfold auth_params.
    destruct allowSignup, pkce as [pk|], (String.eqb username ""),
      (String.eqb (RedirectURI (oAuth c)) ""), scopes as [|sc scopes],
      (String.eqb state "");
      cbn [negb length Nat.ltb Nat.leb app];
      (apply Values_Encode_pairs;
       [vm_compute; reflexivity | repeat constructor]).
  - apply Split_byte_Join.
    + subst params. unfold auth_params. destruct allowSignup; discriminate.
    + apply List.Forall_map, Forall_forall. intros kv _. apply encode_pair_no_amp.
  - apply Forall_forall. intros kv _. apply encode_pair_split.
Qed.

Lemma url_alphabet_safe :
  forallb (fun i => url_safe_byte (encode_sextet RawURLEncoding (Z.of_nat i))) (seq 0 64)
  = true.
Proof. vm_compute. reflexivity. Qed.

Lemma url_alphabet_ok : alphabet_ok RawURLEncoding = true.
Proof. vm_compute. reflexivity. Qed.

Lemma sextet_url_safe val s :
  0 <= s -> url_safe_byte (sextet RawURLEncoding val s) = true.
Proof.
  intros Hs. unfold sextet. pose proof (sextet_range val s Hs) as Hr.
  pose proof url_alphabet_safe as Hall. rewrite forallb_forall in Hall.
  specialize (Hall (Z.to_nat (Z.land (Z.shiftr val s) 63))).
  rewrite Z2Nat.id in Hall by lia. apply Hall, in_seq. lia.
Qed.

Lemma sextet_url_inj v w :
  0 <= v < 64 -> 0 <= w < 64 ->
  encode_sextet RawURLEncoding v = encode_sextet RawURLEncoding w -> v = w.
Proof.
  intros Hv Hw Heq. pose proof url_alphabet_ok as Hall. unfold alphabet_ok in Hall.
  rewrite forallb_forall in Hall.
  pose proof (Hall (Z.to_nat v) ltac:(apply in_seq; lia)) as Hv'.
  pose proof (Hall (Z.to_nat w) ltac:(apply in_seq; lia)) as Hw'.
  rewrite Z2Nat.id in Hv', Hw' by lia. rewrite Heq in Hv'.
  destruct (decode_sextet RawURLEncoding (encode_sextet RawURLEncoding w)); [|discriminate].
  apply Z.eqb_eq in Hv', Hw'. lia.
Qed.

(** The unpadded URL encoding of [n] bytes has [ceil(4n/3)] characters, all
    letters, digits, [-] or [_]. *)
Lemma RawURL_shape : forall s,
  all_bytes url_safe_byte (EncodeToString RawURLEncoding s) = true
  /\ Z.of_nat (String.length (EncodeToString RawURLEncoding s))
     = (4 * Z.of_nat (String.length s) + 2) / 3.
Proof.
  fix IH 1. intros [|a [|b [|c rest]]].
  - split; reflexivity.
  - cbn [EncodeToString]. change (padding RawURLEncoding 2) with "".
    cbn [all_bytes]. rewrite !sextet_url_safe by lia. split; reflexivity.
  - cbn [EncodeToString]. change (padding RawURLEncoding 1) with "".
    cbn [all_bytes]. rewrite !sextet_url_safe by lia. split; reflexivity.
  - destruct (IH rest) as [Hsafe Hlen].
    cbn [EncodeToString all_bytes]. rewrite !sextet_url_safe by lia.
    split; [exact Hsafe|].
    cbn [String.length]. rewrite !Nat2Z.inj_succ, Hlen.
    Z.div_mod_to_equations. lia.
Qed.

Lemma sextet_url_eq val val' s :
  0 <= s -> sextet RawURLEncoding val s = sextet RawURLEncoding val' s ->
  (val / 2 ^ s) mod 64 = (val' / 2 ^ s) mod 64.
Proof.
  intros Hs Heq. unfold sextet in Heq. rewrite <- !sextet_value by assumption.
  apply sextet_url_inj; [apply sextet_range, Hs | apply sextet_range, Hs | exact Heq].
Qed.

Lemma byte_val_inj a b : byte_val a = byte_val b -> a = b.
Proof. intros H. rewrite <- (byte_of_val a), <- (byte_of_val b), H. reflexivity. Qed.

Ltac sextet_facts :=
  repeat match goal with
         | H : sextet RawURLEncoding _ ?s = sextet RawURLEncoding _ ?s |- _ =>
             apply sextet_url_eq in H; [|lia]
         end;
  change (2 ^ 18) with 262144 in *; change (2 ^ 12) with 4096 in *;
  change (2 ^ 6) with 64 in *; change (2 ^ 0) with 1 in *.

(** The unpadded URL encoding is one to one. *)
Lemma RawURL_inj : forall s t,
  EncodeToString RawURLEncoding s = EncodeToString RawURLEncoding t -> s = t.
Proof.
  fix IH 1. intros [|a [|b [|c rest]]] [|a' [|b' [|c' rest']]];
    cbn [EncodeToString]; change (padding RawURLEncoding 2) with "";
    change (padding RawURLEncoding 1) with ""; try discriminate; try reflexivity.
  - rewrite !Z.shiftl_mul_pow2 by lia. change (2 ^ 16) with 65536.
    pose proof (byte_val_range a). pose proof (byte_val_range a').
    intros [= E1 E2]. sextet_facts. f_equal. apply byte_val_inj.
    Z.div_mod_to_equations. lia.
  - pose proof (byte_val_range a). pose proof (byte_val_range a').
    pose proof (byte_val_range b). pose proof (byte_val_range b').
    rewrite !encode_val2 by assumption.
    intros [= E1 E2 E3]. sextet_facts.
    assert (byte_val a = byte_val a' /\ byte_val b = byte_val b') as [Ea Eb]
      by (Z.div_mod_to_equations; lia).
    apply byte_val_inj in Ea, Eb. congruence.
  - pose proof (byte_val_range a). pose proof (byte_val_range a').
    pose proof (byte_val_range b). pose proof (byte_val_range b').
    pose proof (byte_val_range c). pose proof (byte_val_range c').
    rewrite !encode_val3 by assumption.
    intros [= E1 E2 E3 E4 Hrest]. sextet_facts.
    assert (byte_val a = byte_val a' /\ byte_val b = byte_val b'
            /\ byte_val c = byte_val c') as (Ea & Eb & Ec)
      by (Z.div_mod_to_equations; lia).
    apply byte_val_inj in Ea, Eb, Ec. apply IH in Hrest. congruence.
Qed.

(** X8. [NewPKCE] fails exactly when the random source fails.  Otherwise
    the verifier is the unpadded URL-safe base64 of the bytes read: letters,
    digits, [-] and [_] only, 43 of them for the 32 bytes asked for; it
    determines those bytes, so that two pairs with the same verifier were
    made from the same random bytes.  The challenge is the same encoding of
    the SHA-256 digest of the verifier (43 characters for a digest of 32
    bytes) and the method is [S256]. *)
Theorem NewPKCE_verifier (amb amb' : Ambient) :
  (rand_Read amb 32 = None -> exists err, NewPKCE amb = (None, Some err))
  /\ (forall buf, rand_Read amb 32 = Some buf ->
      exists pkce,
        NewPKCE amb = (Some pkce, None)
        /\ Verifier pkce = EncodeToString RawURLEncoding buf
        /\ all_bytes url_safe_byte (Verifier pkce) = true
        /\ (String.length buf = 32%nat -> String.length (Verifier pkce) = 43%nat)
        /\ Challenge pkce = EncodeToString RawURLEncoding (sha256_Sum256 (Verifier pkce))
        /\ all_bytes url_safe_byte (Challenge pkce) = true
        /\ (String.length (sha256_Sum256 (Verifier pkce)) = 32%nat ->
            String.length (Challenge pkce) = 43%nat)
        /\ PKCE_Method pkce = "S256"
        /\ (forall buf' pkce',
              rand_Read amb' 32 = Some buf' -> NewPKCE amb' = (Some pkce', None) ->
              Verifier pkce' = Verifier pkce -> buf' = buf)).
Proof.
  split.
  - intros Hr. unfold NewPKCE. rewrite Hr. eexists. reflexivity.
  - intros buf Hr. unfold NewPKCE. rewrite Hr. eexists. split; [reflexivity|].
    cbn [Verifier Challenge PKCE_Method].
    assert (Hlen43 : forall s, String.length s = 32%nat ->
              String.length (EncodeToString RawURLEncoding s) = 43%nat).
    { intros s Hs. destruct (RawURL_shape s) as [_ Hl]. rewrite Hs in Hl.
      change ((4 * Z.of_nat 32 + 2) / 3) with (Z.of_nat 43) in Hl. lia. }
    repeat split; try apply RawURL_shape; try apply Hlen43.
    intros buf' pkce' Hr'. rewrite Hr'. intros [= <-]. cbn [Verifier].
    apply RawURL_inj.
Qed.

End Authorization.

(* ===================================================================== *)
(** * Repository objects: names, paths and visibility                    *)
(* ===================================================================== *)

Section RepoNames.
Import Go githubapi.

Lemma TrimLeft_no_slash s : HasPrefix (TrimLeft_byte s "/") "/" = false.
Proof.
  induction s as [|a s IH]; [reflexivity|]. simpl.
  destruct (eqb_byte a "/") eqn:E; [exact IH|]. simpl. rewrite E. reflexivity.
Qed.

Lemma TrimLeft_id s : HasPrefix s "/" = false -> TrimLeft_byte s "/" = s.
Proof.
  destruct s as [|a s]; [reflexivity|]. simpl.
  rewrite HasPrefix_empty, andb_true_r. intros ->. reflexivity.
Qed.

Lemma TrimLeft_keeps_md s :
  HasSuffix (ToLower s) ".md" = true ->
  HasSuffix (ToLower (TrimLeft_byte s "/")) ".md" = true.
Proof.
  induction s as [|a s IH]; intros Hs; [exact Hs|].
  simpl. destruct (eqb_byte a "/") eqn:E; [|exact Hs].
  apply IH. apply Ascii.eqb_eq in E. subst a.
  apply HasSuffix_spec in Hs as [pre Hpre]. apply HasSuffix_spec.
  destruct pre as [|x pre].
  - simpl in Hpre. discriminate.
  - rewrite append_cons in Hpre. simpl in Hpre. injection Hpre as _ Hpre.
    exists pre. exact Hpre.
Qed.

(** X9. The name under which [UploadMdFileWithToken] stores a file always
    ends in [.md] (in any case of the letters), never starts with a slash
    and is never empty; completing a name that was completed changes
    nothing. *)
Theorem md_name_shape (fn : string) :
  HasSuffix (ToLower (md_name fn)) ".md" = true
  /\ HasPrefix (md_name fn) "/" = false
  /\ md_name fn <> ""
  /\ md_name (md_name fn) = md_name fn.
Proof.
  assert (Hmd : HasSuffix (ToLower (md_name fn)) ".md" = true).
  { unfold md_name. apply TrimLeft_keeps_md.
    destruct (HasSuffix (ToLower fn) ".md") eqn:E; [exact E|].
    simpl. rewrite ToLower_app. apply HasSuffix_spec. eexists. reflexivity. }
  assert (Hsl : HasPrefix (md_name fn) "/" = false) by apply TrimLeft_no_slash.
  split; [exact Hmd|]. split; [exact Hsl|]. split.
  - intros Hempty. rewrite Hempty in Hmd. discriminate.
  - unfold md_name at 1. rewrite Hmd. simpl. apply TrimLeft_id, Hsl.
Qed.

Lemma pathEscapeSegments_split p :
  Split_byte (pathEscapeSegments p) "/" = map PathEscape (Split_byte p "/").
Proof.
  unfold pathEscapeSegments. apply Split_byte_Join.
  - destruct (Split_byte p "/") eqn:E; [|discriminate].
    exfalso. eapply Split_byte_nonempty. exact E.
  - apply List.Forall_map, Forall_forall. intros x _. apply PathEscape_plain. tauto.
Qed.

(** X10. Escaping a path segment by segment keeps the segments apart: the
    path of an upload, split at the slashes, is [repos], the escaped owner,
    the escaped repository name, [contents] and the escaped segments of the
    file name, one for one; the path of the tag listing is [repos], owner,
    name and [tags].  An escaped segment holds no slash, question mark,
    hash or blank, so that no owner, repository or file name can add a
    segment or start a query. *)
Theorem escaped_paths_keep_their_segments (r : GitHubRepoAPI) (fn : string) :
  let owner := PathEscape (owner_Login (Owner r)) in
  let name := PathEscape (repo_Name r) in
  Split_byte (upload_path r fn) "/"
    = [""; "repos"; owner; name; "contents"] ++ map PathEscape (Split_byte fn "/")
  /\ Split_byte ("/repos/" +:+ owner +:+ "/" +:+ name +:+ "/tags") "/"
     = [""; "repos"; owner; name; "tags"]
  /\ (forall s, ContainsByte (PathEscape s) "/" = false
                /\ ContainsByte (PathEscape s) "?" = false
                /\ ContainsByte (PathEscape s) "#" = false
                /\ ContainsByte (PathEscape s) " " = false).
Proof.
  intros owner name.
  assert (Ho : ContainsByte owner "/" = false) by (apply PathEscape_plain; tauto).
  assert (Hn : ContainsByte name "/" = false) by (apply PathEscape_plain; tauto).
  split; [|split].
  - unfold upload_path. fold owner. fold name.
    change ("/repos/" +:+ owner +:+ "/" +:+ name +:+ "/contents/" +:+ pathEscapeSegments fn)
      with ("" +:+ String "/" ("repos" +:+ String "/" (owner +:+ String "/"
              (name +:+ String "/" ("contents" +:+ String "/" (pathEscapeSegments fn)))))).
    rewrite !Split_byte_app by (assumption || reflexivity).
    rewrite pathEscapeSegments_split. reflexivity.
  - change ("/repos/" +:+ owner +:+ "/" +:+ name +:+ "/tags")
      with ("" +:+ String "/" ("repos" +:+ String "/" (owner +:+ String "/"
              (name +:+ String "/" "tags")))).
    rewrite !Split_byte_app by (assumption || reflexivity). reflexivity.
  - intros s. repeat split; apply PathEscape_plain; tauto.
Qed.

(** X11. A repository counts as public exactly when it is not private and
    its visibility reads [public] in any case of the letters; each of the
    two without the other is not enough. *)
Theorem IsPublic_needs_both (r : GitHubRepoAPI) :
  IsPublic r = true <-> Private r = false /\ ToLower (Visibility r) = "public".
Proof.
  unfold IsPublic. rewrite andb_true_iff, negb_true_iff, EqualFold_ToLower.
  rewrite String.eqb_eq. reflexivity.
Qed.

End RepoNames.

(* ===================================================================== *)
(** * The chat flow and the callback, end to end                         *)
(* ===================================================================== *)

Section ChatFlow.
Import Go bot.
Context {ext : Externals}.

Ltac header_lookup :=
  repeat (rewrite lookup_insert_ne by discriminate);
  first [apply lookup_insert_eq | apply lookup_empty].

(** The request of the existence check, once [http.NewRequest] built it. *)
Lemma checkUserExists_run username wd :
  NewRequest_error "GET" ("https://api.github.com/users/" +:+ username) = None ->
  checkUserExists username wd
  = (match client_Do (events wd) (user_check_request username) with
     | inl err => (false, Some err)
     | inr resp => (StatusCode resp =? StatusOK, None)
     end,
     mkWorld (authSessions wd) (events wd ++ [ClientDo (user_check_request username)])).
Proof.
  intros Hacc. unfold checkUserExists, NewRequest. rewrite Hacc.
  unfold mbind, MB_bind, bind, client_do. fold (user_check_request username).
  destruct (client_Do (events wd) _) as [err|resp]; [reflexivity|].
  destruct (Z.eqb_spec (StatusCode resp) StatusNotFound) as [E|E]; [|reflexivity].
  simpl. rewrite E. reflexivity.
Qed.

Lemma checkUserExists_refused username wd err :
  NewRequest_error "GET" ("https://api.github.com/users/" +:+ username) = Some err ->
  checkUserExists username wd = ((false, Some err), wd).
Proof. intros Hacc. unfold checkUserExists, NewRequest. rewrite Hacc. reflexivity. Qed.

Lemma NewRequest_cases method url body :
  match NewRequest method url body with
  | inl err => NewRequest_error method url = Some err
  | inr built => NewRequest_error method url = None
                 /\ built = mkRequest method url ∅ body
  end.
Proof. unfold NewRequest. destruct (NewRequest_error method url); auto. Qed.

(** X12. The bot's existence check hands [http.NewRequest] the text
    [https://api.github.com/users/] followed by the name as it is given.
    If that text is refused, the error is returned and nothing is sent.
    Otherwise the request built from it is sent once, as a GET with the
    [Accept] header of the API and the user agent [TelegramBot/1.0], and
    the sessions are left alone; the answer is true exactly for status 200:
    every other status, 404 or not, gives false without an error, and a
    failure of the transport gives its error. *)
Theorem checkUserExists_is_status_200 (username : string) (wd : World) :
  match NewRequest "GET" ("https://api.github.com/users/" +:+ username) NoBody with
  | inl err => checkUserExists username wd = ((false, Some err), wd)
  | inr built =>
      let req := Header_Set (Header_Set built "Accept" "application/vnd.github.v3+json")
                   "User-Agent" "TelegramBot/1.0" in
      Method req = "GET" /\ ReqBody req = NoBody
      /\ Header req !! "Accept" = Some "application/vnd.github.v3+json"
      /\ Header req !! "User-Agent" = Some "TelegramBot/1.0"
      /\ (forall k, k <> "Accept" -> k <> "User-Agent" -> Header req !! k = None)
      /\ (checkUserExists username wd).2
         = mkWorld (authSessions wd) (events wd ++ [ClientDo req])
      /\ (checkUserExists username wd).1
         = match client_Do (events wd) req with
           | inl err => (false, Some err)
           | inr resp => (StatusCode resp =? 200, None)
           end
  end.
Proof.
  pose proof (NewRequest_cases "GET" ("https://api.github.com/users/" +:+ username) NoBody)
    as Hcases.
  destruct (NewRequest "GET" _ NoBody) as [err|built].
  - apply checkUserExists_refused, Hcases.
  - destruct Hcases as [Hacc ->]. fold (user_check_request username).
    rewrite (checkUserExists_run _ _ Hacc).
    split; [reflexivity|]. split; [reflexivity|].
    split; [unfold user_check_request, Header_Set; cbn [Header]; header_lookup|].
    split; [unfold user_check_request, Header_Set; cbn [Header]; header_lookup|].
    split; [|split; reflexivity].
    intros k Ha Hu. unfold user_check_request, Header_Set. cbn [Header].
    rewrite !lookup_insert_ne by congruence. apply lookup_empty.
Qed.

(** X13. Submitting a username stores a session exactly when GitHub answers
    200 to the existence check of the trimmed name: the session is then
    stored under the state token, with the chat id, the token and the
    trimmed name, and the chat receives one message whose button links to
    the authorize endpoint with that token.  After any other status or a
    transport failure the session map is as before and the chat receives
    one message without a button; so it is, without any request, when
    [http.NewRequest] refuses the text of the URL. *)
Theorem session_is_stored_only_after_200 (amb : Ambient) (chatID : Z)
    (username : string) (wd : World) :
  let name := TrimSpace username in
  let state := generateState amb chatID in
  let run := handleUsernameInput amb chatID username wd in
  match NewRequest "GET" ("https://api.github.com/users/" +:+ name) NoBody with
  | inl err =>
      authSessions run.2 = authSessions wd
      /\ exists text, events run.2 = events wd ++ [CtxSend chatID text None]
  | inr built =>
      let req := Header_Set (Header_Set built "Accept" "application/vnd.github.v3+json")
                   "User-Agent" "TelegramBot/1.0" in
      match client_Do (events wd) req with
      | inr resp =>
          if StatusCode resp =? 200 then
            authSessions run.2
              = <[state := mkAuthSession chatID state name]> (authSessions wd)
            /\ exists text label,
                 events run.2
                 = events wd ++ [ClientDo req;
                      CtxSend chatID text
                        (Some (mkInlineButton label (authorize_link state)))]
          else
            authSessions run.2 = authSessions wd
            /\ exists text,
                 events run.2 = events wd ++ [ClientDo req; CtxSend chatID text None]
      | inl err =>
          authSessions run.2 = authSessions wd
          /\ exists text,
               events run.2 = events wd ++ [ClientDo req; CtxSend chatID text None]
      end
  end.
Proof.
  intros name state run.
  pose proof (NewRequest_cases "GET" ("https://api.github.com/users/" +:+ name) NoBody)
    as Hcases.
  subst run. unfold handleUsernameInput. fold name.
  unfold mbind, MB_bind, bind.
  destruct (NewRequest "GET" _ NoBody) as [err|built].
  - rewrite (checkUserExists_refused _ _ _ Hcases).
    unfold emit. cbn. split; [reflexivity|]. eexists. reflexivity.
  - destruct Hcases as [Hacc ->]. fold (user_check_request name).
    rewrite (checkUserExists_run _ _ Hacc).
    destruct (client_Do (events wd) (user_check_request name)) as [err|resp].
    + unfold emit. cbn. split; [reflexivity|]. eexists. rewrite <- app_assoc. reflexivity.
    + change (StatusCode resp =? 200) with (StatusCode resp =? StatusOK).
      destruct (StatusCode resp =? StatusOK).
      * unfold emit. cbn. split; [reflexivity|]. do 2 eexists.
        rewrite <- app_assoc. reflexivity.
      * unfold emit. cbn. split; [reflexivity|]. eexists.
        rewrite <- app_assoc. reflexivity.
Qed.

Lemma generateState_nonempty amb chatID : generateState amb chatID <> "".
Proof.
  unfold generateState. intros H.
  assert (Hc : ContainsByte (FormatInt chatID +:+ "_" +:+ FormatInt (UnixNano amb)) "_"
               = true).
  { rewrite ContainsByte_app. apply orb_true_r. }
  rewrite H in Hc. discriminate.
Qed.

(** X14. From the chat to the callback: when GitHub answers 200 to the
    existence check, the session stored for the submitted name is found by
    a callback that presents the issued state token with any non-empty
    code; the callback takes it out of the map, which is then as it was
    before the submission without that token; it holds the chat id and the
    trimmed name.  A further callback with the same token is answered 400.
    The token is never empty. *)
Theorem issued_token_is_accepted_once (amb : Ambient) (chatID : Z)
    (username code : string) (wd : World) (w : ResponseWriter) (resp : Response) :
  let name := TrimSpace username in
  let state := generateState amb chatID in
  let wd1 := (handleUsernameInput amb chatID username wd).2 in
  let session := mkAuthSession chatID state name in
  code <> "" ->
  NewRequest_error "GET" ("https://api.github.com/users/" +:+ name) = None ->
  client_Do (events wd) (user_check_request name) = inr resp ->
  StatusCode resp = StatusOK ->
  state <> ""
  /\ authSessions wd1 !! state = Some session
  /\ callback_entry w code state wd1
     = (inr session, mkWorld (delete state (authSessions wd)) (events wd1))
  /\ forall w' code',
       (callback_entry w' code' state
          (mkWorld (delete state (authSessions wd)) (events wd1))).1
       = inl (http_Error w' (if String.eqb code' "" then "Missing code or state"
                             else "Invalid state") StatusBadRequest).
Proof.
  intros name state wd1 session Hcode Hacc Hresp H200.
  pose proof (generateState_nonempty amb chatID) as Hstate. fold state in Hstate.
  assert (Hs : authSessions wd1 = <[state := session]> (authSessions wd)).
  { subst wd1. unfold handleUsernameInput. fold name.
    unfold mbind, MB_bind, bind. rewrite (checkUserExists_run _ _ Hacc), Hresp, H200.
    reflexivity. }
  assert (Hin : authSessions wd1 !! state = Some session).
  { rewrite Hs. apply lookup_insert_eq. }
  split; [exact Hstate|]. split; [exact Hin|]. split.
  - rewrite (callback_entry_present w code state wd1 session Hcode Hstate Hin).
    rewrite Hs, delete_insert_eq. reflexivity.
  - intros w' code'. unfold callback_entry.
    apply String.eqb_neq in Hstate. rewrite Hstate, orb_false_r.
    destruct (String.eqb code' ""); [reflexivity|].
    unfold mbind, MB_bind, bind, lookup_and_delete. cbn [authSessions].
    rewrite lookup_delete_eq. reflexivity.
Qed.

Lemma bot_sends_app a b : bot_sends (a ++ b) = bot_sends a ++ bot_sends b.
Proof.
  induction a as [|e a IH]; [reflexivity|]. destruct e; simpl; rewrite IH; reflexivity.
Qed.

Lemma ctx_sends_app a b : ctx_sends (a ++ b) = ctx_sends a ++ ctx_sends b.
Proof.
  induction a as [|e a IH]; [reflexivity|]. destruct e; simpl; rewrite IH; reflexivity.
Qed.

Lemma bot_sends_requests reqs : bot_sends (map ClientDo reqs) = [].
Proof. induction reqs; [reflexivity|exact IHreqs]. Qed.

Lemma ctx_sends_requests reqs : ctx_sends (map ClientDo reqs) = [].
Proof. induction reqs; [reflexivity|exact IHreqs]. Qed.

(** What the second part of the handler does, for a fresh writer: the one
    message that the chat of the session receives follows from what the two
    exchanges with GitHub returned. *)
Lemma callback_verify_outcome code session wd :
  let run := callback_verify new_ResponseWriter code session wd in
  authSessions run.2 = authSessions wd
  /\ exists new text,
       events run.2 = events wd ++ new
       /\ bot_sends new = [(ChatID session, text)]
       /\ ctx_sends new = []
       /\ match exchangeCodeForToken code wd with
          | (inl _, _) =>
              status_of run.1 = 500 /\ text = "❌ Ошибка авторизации"
          | (inr (token, _, _), wd1) =>
              match getGitHubUser token wd1 with
              | (inl _, _) =>
                  status_of run.1 = 500
                  /\ text = "❌ Не удалось получить информацию о пользователе"
              | (inr user, _) =>
                  status_of run.1 = 200
                  /\ text = (if same_login (Login user) (RequestedLogin session)
                             then success_message user
                             else mismatch_message (RequestedLogin session) (Login user))
                  /\ written run.1
                     = (if same_login (Login user) (RequestedLogin session)
                        then success_page (Login user) else failure_page)
              end
          end.
Proof.
  intros run. subst run. unfold callback_verify, mbind, MB_bind, bind, emit, ret.
  destruct (exchangeCodeForToken code wd) as [tok wd1] eqn:Hex.
  apply exchangeCodeForToken_effect in Hex as (Hs1 & reqs1 & He1).
  destruct tok as [err|[[token scopes] ttype]].
  - cbn. split; [exact Hs1|].
    exists (map ClientDo reqs1 ++ [LogPrintf ("exchange error: " +:+ Error err);
                                   BotSend (ChatID session) "❌ Ошибка авторизации"]).
    eexists. split; [rewrite He1, <- !app_assoc; reflexivity|].
    rewrite bot_sends_app, ctx_sends_app, bot_sends_requests, ctx_sends_requests.
    split; [reflexivity|]. split; [reflexivity|]. split; reflexivity.
  - destruct (getGitHubUser token wd1) as [u wd2] eqn:Hu.
    apply getGitHubUser_effect in Hu as (Hs2 & reqs2 & He2).
    destruct u as [err|user].
    + cbn. split; [congruence|].
      exists (map ClientDo reqs1 ++ map ClientDo reqs2
              ++ [LogPrintf ("user info error: " +:+ Error err);
                  BotSend (ChatID session)
                    "❌ Не удалось получить информацию о пользователе"]).
      eexists. split; [rewrite He2, He1, <- !app_assoc; reflexivity|].
      rewrite !bot_sends_app, !ctx_sends_app, !bot_sends_requests, !ctx_sends_requests.
      split; [reflexivity|]. split; [reflexivity|]. split; reflexivity.
    + destruct (same_login (Login user) (RequestedLogin session)) eqn:Hsame; cbn.
      * split; [congruence|]. eexists (map ClientDo reqs1 ++ map ClientDo reqs2 ++ [_; _]).
        eexists. split; [rewrite He2, He1, <- !app_assoc; reflexivity|].
        rewrite !bot_sends_app, !ctx_sends_app, !bot_sends_requests, !ctx_sends_requests.
        split; [reflexivity|]. split; [reflexivity|]. repeat split.
      * split; [congruence|]. eexists (map ClientDo reqs1 ++ map ClientDo reqs2 ++ [_]).
        eexists. split; [rewrite He2, He1, <- !app_assoc; reflexivity|].
        rewrite !bot_sends_app, !ctx_sends_app, !bot_sends_requests, !ctx_sends_requests.
        split; [reflexivity|]. split; [reflexivity|]. repeat split.
Qed.

(** X15. Every run of the callback handler ends in one of two ways.  The
    request is answered 400 and the world is exactly as before: no session
    is taken, nothing is sent; this is so when the code or the state is
    missing or the state has no session.  Or the session of the state is
    taken out of the map and its chat, and no other, receives exactly one
    message, which follows from the two exchanges with GitHub: the first
    failure message with status 500 when the exchange of the code fails;
    the second one with status 500 when the account cannot be fetched; and
    with status 200, for the account that was fetched, the success message
    and page when its login agrees with the requested one, the mismatch
    message and the failure page when it does not. *)
Theorem callback_notifies_the_session_chat (code state : string) (wd : World) :
  let run := handleGitHubCallback new_ResponseWriter code state wd in
  (status_of run.1 = 400 /\ run.2 = wd
   /\ (code = "" \/ state = "" \/ authSessions wd !! state = None))
  \/ (exists session new text,
        code <> "" /\ state <> "" /\ authSessions wd !! state = Some session
        /\ authSessions run.2 = delete state (authSessions wd)
        /\ events run.2 = events wd ++ new
        /\ bot_sends new = [(ChatID session, text)]
        /\ ctx_sends new = []
        /\ match exchangeCodeForToken code
                  (mkWorld (delete state (authSessions wd)) (events wd)) with
           | (inl _, _) =>
               status_of run.1 = 500 /\ text = "❌ Ошибка авторизации"
           | (inr (token, _, _), wd1) =>
               match getGitHubUser token wd1 with
               | (inl _, _) =>
                   status_of run.1 = 500
                   /\ text = "❌ Не удалось получить информацию о пользователе"
               | (inr user, _) =>
                   status_of run.1 = 200
                   /\ text = (if same_login (Login user) (RequestedLogin session)
                              then success_message user
                              else mismatch_message (RequestedLogin session)
                                     (Login user))
                   /\ written run.1
                      = (if same_login (Login user) (RequestedLogin session)
                         then success_page (Login user) else failure_page)
               end
           end).
Proof.
  intros run. subst run.
  destruct (String.eqb_spec code "") as [Hc|Hc].
  { left. subst code. repeat split. left. reflexivity. }
  destruct (String.eqb_spec state "") as [Hs|Hs].
  { left. subst state. unfold handleGitHubCallback, callback_entry, mbind, MB_bind, bind.
    rewrite orb_true_r. repeat split. right. left. reflexivity. }
  destruct (authSessions wd !! state) as [session|] eqn:Hin.
  - right.
    rewrite (handleGitHubCallback_present _ _ _ _ _ Hc Hs Hin).
    destruct (callback_verify_outcome code session
                (mkWorld (delete state (authSessions wd)) (events wd)))
      as (Hsess & new & text & Hev & Hb & Hx & Hstatus).
    exists session, new, text. repeat split; assumption.
  - left. destruct (callback_entry_absent new_ResponseWriter code state wd Hin)
      as (msg & Hentry).
    unfold handleGitHubCallback, mbind, MB_bind, bind. rewrite Hentry.
    repeat split. right. right. reflexivity.
Qed.

(** X16. The two exchanges with GitHub look at the body of the answer
    only, never at its status.  The token exchange posts exactly the client
    id, the client secret and the code as a form and asks for JSON; when
    the decoded answer names an error, the result is that error (with its
    description in brackets, if any) even if a token came with it;
    otherwise it is the token, the parsed scopes and the token type.  The
    user fetch sends the token as [Authorization: token ...] and returns
    what the decoder makes of the body. *)
Theorem github_exchanges_read_the_body_only (code accessToken : string) (wd : World) :
  (NewRequest_error "POST" "https://github.com/login/oauth/access_token" = None ->
   exists req fields,
     Method req = "POST" /\ URL req = "https://github.com/login/oauth/access_token"
     /\ ReqBody req = FormValues fields
     /\ fields !! "client_id" = Some GITHUB_CLIENT_ID
     /\ fields !! "client_secret" = Some GITHUB_CLIENT_SECRET
     /\ fields !! "code" = Some code
     /\ (forall k, k <> "client_id" -> k <> "client_secret" -> k <> "code" ->
           fields !! k = None)
     /\ Header req !! "Content-Type" = Some "application/x-www-form-urlencoded"
     /\ Header req !! "Accept" = Some "application/json"
     /\ (exchangeCodeForToken code wd).2
        = mkWorld (authSessions wd) (events wd ++ [ClientDo req])
     /\ forall resp tr,
          client_Do (events wd) req = inr resp -> ReadAll_error resp = None ->
          Unmarshal_token (Body resp) zero_TokenResponse = inr tr ->
          (exchangeCodeForToken code wd).1
          = if String.eqb (tr_Error tr) ""
            then inr (AccessToken tr, parse_scopes (Scope tr), TokenType tr)
            else inl (mkError ("GitHub error: " +:+ tr_Error tr
                         +:+ (if String.eqb (ErrorDesc tr) "" then ""
                              else " (" +:+ ErrorDesc tr +:+ ")"))))
  /\ (NewRequest_error "GET" "https://api.github.com/user" = None ->
      exists req,
        Method req = "GET" /\ URL req = "https://api.github.com/user"
        /\ ReqBody req = NoBody
        /\ Header req !! "Authorization" = Some ("token " +:+ accessToken)
        /\ Header req !! "Accept" = Some "application/vnd.github.v3+json"
        /\ (getGitHubUser accessToken wd).2
           = mkWorld (authSessions wd) (events wd ++ [ClientDo req])
        /\ forall resp,
             client_Do (events wd) req = inr resp -> ReadAll_error resp = None ->
             (getGitHubUser accessToken wd).1 = Unmarshal_user (Body resp) zero_GitHubUser).
Proof.
  split; intros Hacc.
  - unfold exchangeCodeForToken, NewRequest. rewrite Hacc.
    set (fields := <["code" := code]> _).
    set (req := Header_Set (Header_Set _ _ _) "Accept" "application/json").
    exists req, fields.
    split; [reflexivity|]. split; [reflexivity|]. split; [reflexivity|].
    split; [unfold fields; header_lookup|]. split; [unfold fields; header_lookup|].
    split; [unfold fields; header_lookup|].
    split; [intros k H1 H2 H3; unfold fields;
            rewrite !lookup_insert_ne by congruence; apply lookup_empty|].
    split; [unfold req, Header_Set; cbn [Header]; header_lookup|].
    split; [unfold req, Header_Set; cbn [Header]; header_lookup|].
    unfold mbind, MB_bind, bind, client_do.
    split.
    + destruct (client_Do (events wd) req) as [err|resp]; [reflexivity|].
      destruct (ReadAll_error resp); [reflexivity|].
      destruct (Unmarshal_token _ _) as [err|tr]; [reflexivity|].
      destruct (negb (String.eqb (tr_Error tr) "")); [|reflexivity].
      destruct (negb (String.eqb (ErrorDesc tr) "")); reflexivity.
    + intros resp tr -> Hread Hdec. rewrite Hread, Hdec.
      destruct (String.eqb (tr_Error tr) ""); [reflexivity|]. cbn [negb].
      destruct (String.eqb (ErrorDesc tr) ""); cbn [negb]; [|reflexivity].
      cbn [ret fst]. rewrite append_nil_r. reflexivity.
  - unfold getGitHubUser, NewRequest. rewrite Hacc.
    set (req := Header_Set (Header_Set _ _ _) "Accept" _).
    exists req.
    split; [reflexivity|]. split; [reflexivity|]. split; [reflexivity|].
    split; [unfold req, Header_Set; cbn [Header]; header_lookup|].
    split; [unfold req, Header_Set; cbn [Header]; header_lookup|].
    unfold mbind, MB_bind, bind, client_do.
    split.
    + destruct (client_Do (events wd) req) as [err|resp]; [reflexivity|].
      destruct (ReadAll_error resp); reflexivity.
    + intros resp -> ->. reflexivity.
Qed.

Lemma ContainsByte_rev s c : ContainsByte (rev_string s) c = ContainsByte s c.
Proof.
  induction s as [|a s IH]; [reflexivity|].
  rewrite rev_string_cons, ContainsByte_app, IH. simpl.
  rewrite orb_false_r. apply orb_comm.
Qed.

Lemma ContainsByte_drop n : forall s c,
  ContainsByte (drop_string n s) c = true -> ContainsByte s c = true.
Proof.
  induction n as [|n IH]; intros [|a s] c H; simpl in *; try assumption.
  rewrite (IH _ _ H). apply orb_true_r.
Qed.

Lemma ContainsByte_trim_left fuel : forall s c,
  ContainsByte (trim_left_space fuel s) c = true -> ContainsByte s c = true.
Proof.
  induction fuel as [|fuel IH]; intros s c H; [assumption|].
  cbn [trim_left_space] in H.
  destruct (leading_space s) as [|w]; [assumption|].
  apply IH in H. eapply ContainsByte_drop. exact H.
Qed.

Lemma ContainsByte_trim_right fuel : forall s c,
  ContainsByte (trim_right_space_rev fuel s) c = true -> ContainsByte s c = true.
Proof.
  induction fuel as [|fuel IH]; intros s c H; [assumption|].
  cbn [trim_right_space_rev] in H.
  destruct (trailing_space_rev s) as [|w]; [assumption|].
  apply IH in H. eapply ContainsByte_drop. exact H.
Qed.

(** Trimming adds no byte. *)
Lemma ContainsByte_TrimSpace s c :
  ContainsByte s c = false -> ContainsByte (TrimSpace s) c = false.
Proof.
  intros Hs. destruct (ContainsByte (TrimSpace s) c) eqn:H; [|reflexivity].
  unfold TrimSpace in H. rewrite ContainsByte_rev in H.
  apply ContainsByte_trim_right in H. rewrite ContainsByte_rev in H.
  apply ContainsByte_trim_left in H. congruence.
Qed.

Lemma Split_byte_parts s sep :
  Forall (fun x => ContainsByte x sep = false) (Split_byte s sep).
Proof.
  induction s as [|a s IH]; simpl; [repeat constructor|].
  destruct (eqb_byte a sep) eqn:E; [constructor; [reflexivity|exact IH]|].
  destruct (Split_byte s sep) as [|hd tl];
    [repeat constructor; simpl; rewrite E; reflexivity|].
  apply Forall_cons in IH as [Hhd Htl]. constructor; [|exact Htl].
  simpl. rewrite E, Hhd. reflexivity.
Qed.

End ChatFlow.

(* ===================================================================== *)
(** * Further runs against the mocked servers                            *)
(* ===================================================================== *)

Section ClientRequestsRuns.
Import Go githubapi Mock.

Lemma blank_username_is_refused_witness :
  CheckUserExists zero_GitHubAPI "   " []
    = (Ret (false, Some (errorString "username is empty")), [])
  /\ GetUserIfExists zero_GitHubAPI "" []
    = (Ret (None, Some (errorString "username is empty")), []).
Proof.
  split.
  - exact (proj1 (blank_username_is_refused zero_GitHubAPI "   " [] eq_refl)).
  - exact (proj2 (blank_username_is_refused zero_GitHubAPI "" [] eq_refl)).
Defined.

Lemma id_lookups_send_one_plain_get_witness :
  let c := Mock.client (mkResponse 200 "") in
  exists req,
    URL req = "https://api.github.com/user/109586143"
    /\ Header req !! "User-Agent" = Some "githubapi/1.0"
    /\ Header req !! "Authorization" = None
    /\ log_of (GetUserByIdIfExist c 109586143) [] = [req].
Proof.
  intros c.
  destruct (id_lookups_send_one_plain_get c (Mock.canned (mkResponse 200 "")) []
              109586143 eq_refl) as [Huser _].
  destruct (Huser eq_refl) as (req & (_ & Hurl & _ & _ & Hua & Hother) & _ & Hlog).
  exists req. split; [exact Hurl|]. split; [exact Hua|].
  split; [apply Hother; discriminate | exact Hlog].
Defined.

Lemma response_body_is_capped_witness :
  let resp := mkResponse 500 "boom" in
  let c := Mock.client resp in
  let req := mkRequest "GET" "https://api.github.com/repositories/1" ∅ NoBody in
  exists b,
    doJSON c req (Some zero_repo) []
      = (Ret (Some (HTTPError 500 b), Some zero_repo), [req])
    /\ Z.of_nat (String.length b) = 4.
Proof.
  intros resp c req.
  assert (Hans : answers c [] req resp).
  { exists (Mock.canned resp). split; reflexivity. }
  destruct (response_body_is_capped JSONTarget_repo c c [] req resp resp
              (Some zero_repo) Hans Hans) as [Hcap _].
  destruct (Hcap eq_refl) as (b & rest & Hrun & _ & Hlen).
  exists b. split; [exact Hrun | exact Hlen].
Defined.

Lemma decode_failure_reaches_caller_witness :
  let resp := mkResponse 200 "not json" in
  let c := Mock.client resp in
  result_of (GetUserByIdIfExist c 109586143) []
    = Ret (None, Some (foreignError "invalid character"))
  /\ result_of (CheckUserExistsById c 109586143) [] = Ret (true, None)
  /\ result_of (GetRepoByIdIfExist c 984280187) []
     = Ret (None, Some (foreignError "invalid character")).
Proof.
  intros resp c.
  destruct (decode_failure_reaches_caller c [] resp "DilemaFixer" 109586143
              (foreignError "invalid character") eq_refl
              ltac:(discriminate) eq_refl) as [Hprofile _].
  destruct (decode_failure_reaches_caller c [] resp "DilemaFixer" 984280187
              (foreignError "invalid character") eq_refl
              ltac:(discriminate) eq_refl) as [_ Hrepo].
  destruct (Hprofile eq_refl) as [_ Hid].
  destruct (Hid (mock_replies resp _ _)) as [Hget Hcheck].
  split; [exact Hget|]. split; [exact Hcheck|].
  exact (Hrepo eq_refl (mock_replies resp _ _)).
Defined.

Lemma listings_pass_errors_through_witness :
  let resp := mkResponse 404 "Not Found" in
  result_of (GetPublicRepos (Mock.profile "DilemaFixer" resp)) []
    = Ret (None, Some (HTTPError 404 "Not Found"))
  /\ result_of (GetRepoTags (Mock.repo resp)) []
     = Ret (None, Some (HTTPError 404 "Not Found")).
Proof.
  intros resp.
  destruct (listings_pass_errors_through (Mock.profile "DilemaFixer" resp)
              (Mock.repo resp) [] resp eq_refl) as (Hrepos & Htags & _).
  split; [apply Hrepos, mock_profile_replies | apply Htags, mock_replies].
Defined.

Lemma upload_headers_witness :
  let resp := mkResponse 201 "" in
  exists req,
    log_of (UploadMdFileWithToken (Mock.repo resp) "notes" "# notes" "" "") [] = [req]
    /\ Header req !! "Content-Type" = Some "application/json"
    /\ Header req !! "Authorization" = None.
Proof.
  intros resp.
  destruct (upload_headers (Mock.repo resp) "notes" "# notes" "" "" []
              (Mock.canned resp) ltac:(vm_compute; discriminate) eq_refl eq_refl)
    as (req & Hlog & Hct & _ & _ & _ & Hnone).
  exists req. split; [exact Hlog|]. split; [exact Hct|].
  apply (Hnone (fun _ => Mock.canned resp) [WithHTTP (Mock.canned resp)]);
    [repeat constructor | reflexivity].
Defined.

(** The link for a user name with a blank and an ampersand, two scopes and
    a state, sign-up not allowed. *)
Example AuthURL_sample :
  AuthURL (WithOAuth (mkOAuthApp "Iv1.abc" "secret" "http://localhost:8080/callback")
             (Mock.client (mkResponse 200 "")))
          "octo cat&x=1" "42_17" ["user:email"; "read:user"] false None
  = ("https://github.com/login/oauth/authorize?allow_signup=false&client_id=Iv1.abc"
       +:+ "&login=octo+cat%26x%3D1"
       +:+ "&redirect_uri=http%3A%2F%2Flocalhost%3A8080%2Fcallback"
       +:+ "&scope=user%3Aemail+read%3Auser&state=42_17", None).
Proof. vm_compute. reflexivity. Qed.

(** A pair made from 32 bytes [A]; the mocked hash is the identity, its
    digest is not 32 bytes long. *)
Example NewPKCE_sample :
  let amb := mkAmbient 0 (fun n => Some (string_of_list_ascii (repeat "A"%char n))) in
  exists pkce,
    NewPKCE amb = (Some pkce, None)
    /\ Verifier pkce = "QUFBQUFBQUFBQUFBQUFBQUFBQUFBQUFBQUFBQUFBQUE"
    /\ String.length (Verifier pkce) = 43%nat
    /\ PKCE_Method pkce = "S256".
Proof.
  intros amb.
  destruct (NewPKCE_verifier amb amb) as [_ Hok].
  destruct (Hok _ eq_refl) as (pkce & Hrun & Hv & _ & Hlen & _ & _ & _ & Hm & _).
  exists pkce. split; [exact Hrun|]. split; [rewrite Hv; vm_compute; reflexivity|].
  split; [apply Hlen; reflexivity | exact Hm].
Qed.

Example md_name_samples :
  map md_name ["notes"; "README.MD"; "/docs/a.md"; "/"; "a b.txt"]
  = ["notes.md"; "README.MD"; "docs/a.md"; ".md"; "a b.txt.md"]
  /\ upload_path (Mock.repo (mkResponse 200 "")) "docs/a b?.md"
     = "/repos/DilemaFixer/Annuum/contents/docs/a%20b%3F.md"
  /\ IsPublic (Mock.repo (mkResponse 200 "")) = true.
Proof. repeat split; vm_compute; reflexivity. Qed.

End ClientRequestsRuns.

Section ChatFlowRuns.
Import Go bot.

Lemma checkUserExists_is_status_200_witness :
  let ext := MockBot.externals MockBot.Foo in
  (exists req, checkUserExists "Foo" (mkWorld ∅ []) = ((true, None), mkWorld ∅ [ClientDo req]))
  /\ checkUserExists "50%" (mkWorld ∅ [])
     = ((false, Some (mkError "invalid URL escape")), mkWorld ∅ []).
Proof.
  intros ext. split.
  - pose proof (checkUserExists_is_status_200 (ext := ext) "Foo" (mkWorld ∅ [])) as Hrun.
    hnf in Hrun. destruct Hrun as (_ & _ & _ & _ & _ & Hwd & Hres).
    eexists.
    rewrite (surjective_pairing (checkUserExists "Foo" (mkWorld ∅ []))), Hwd, Hres.
    reflexivity.
  - exact (checkUserExists_is_status_200 (ext := ext) "50%" (mkWorld ∅ [])).
Defined.

Lemma session_is_stored_only_after_200_witness :
  let ext := MockBot.externals MockBot.Foo in
  let amb := mkAmbient 1700000000000000000 (fun _ => None) in
  authSessions (handleUsernameInput amb 42 " foo " (mkWorld ∅ [])).2
    !! "42_1700000000000000000" = Some MockBot.session_foo
  /\ authSessions (handleUsernameInput amb 42 " 50% " (mkWorld ∅ [])).2 = ∅.
Proof.
  intros ext amb. split.
  - pose proof (session_is_stored_only_after_200 (ext := ext) amb 42 " foo " (mkWorld ∅ []))
      as Hrun.
    hnf in Hrun. destruct Hrun as [Hs _]. rewrite Hs. reflexivity.
  - pose proof (session_is_stored_only_after_200 (ext := ext) amb 42 " 50% " (mkWorld ∅ []))
      as Hrun.
    hnf in Hrun. destruct Hrun as [Hs _]. rewrite Hs. reflexivity.
Defined.

Lemma issued_token_is_accepted_once_witness :
  let ext := MockBot.externals MockBot.Foo in
  let amb := mkAmbient 1700000000000000000 (fun _ => None) in
  let wd1 := (handleUsernameInput amb 42 " foo " (mkWorld ∅ [])).2 in
  (callback_entry new_ResponseWriter "code" "42_1700000000000000000" wd1).1
  = inr MockBot.session_foo.
Proof.
  intros ext amb wd1.
  destruct (issued_token_is_accepted_once (ext := ext) amb 42 " foo " "code"
              (mkWorld ∅ []) new_ResponseWriter (mkResponse 200 "{}")
              ltac:(discriminate) eq_refl eq_refl eq_refl) as (_ & _ & Htake & _).
  exact (f_equal fst Htake).
Defined.

(** The scopes of an answer with blanks and empty parts; the outcome of a
    callback for a session whose account matches. *)
Example chat_flow_samples :
  parse_scopes " user:email, read:user,, " = ["user:email"; "read:user"]
  /\ parse_scopes "   " = []
  /\ (let ext := MockBot.externals MockBot.Foo in
      let run := handleGitHubCallback new_ResponseWriter "code" "42_1700000000000000000"
                   (MockBot.world MockBot.session_foo) in
      status_of run.1 = StatusOK
      /\ bot_sends (events run.2) = [(42, success_message MockBot.Foo)]
      /\ authSessions run.2 = ∅).
Proof. repeat split; vm_compute; reflexivity. Qed.

End ChatFlowRuns.

(* ===================================================================== *)
(** * float64: rounding to the nearest, exactly                          *)
(* ===================================================================== *)

(** [binary_round_aux] rounds a quotient with the place of its rest to the
    nearest number of 53 bits, ties to even; the result therefore keeps the
    order with every number that 53 bits can hold.  From there: what the
    conversions, the division and the sum of [float64] do to the whole
    numbers and the fractions that [time.Duration] feeds them. *)
Section Float64Exact.
Import Go.


Lemma iter_pos_nat {A} (f : A -> A) p : forall x,
  SpecFloat.iter_pos f p x = Nat.iter (Pos.to_nat p) f x.
Proof.
  induction p as [p IH|p IH|]; intros x; simpl SpecFloat.iter_pos.
  - rewrite !IH. rewrite Pos2Nat.inj_xI.
    replace (S (2 * Pos.to_nat p)) with (Pos.to_nat p + (Pos.to_nat p + 1))%nat by lia.
    rewrite !Nat.iter_add. reflexivity.
  - rewrite !IH. rewrite Pos2Nat.inj_xO.
    replace (2 * Pos.to_nat p)%nat with (Pos.to_nat p + Pos.to_nat p)%nat by lia.
    rewrite Nat.iter_add. reflexivity.
  - reflexivity.
Qed.

Lemma tracks_of_loc N D :
  tracks N D (shr_record_of_loc (N / D) (locate (N mod D) D)).
Proof.
  unfold tracks. rewrite shr_m_of_loc. split; [reflexivity|].
  destruct (locate _ _) as [|[]]; reflexivity.
Qed.

Lemma tracks_shr_1 N D rec :
  0 <= N -> 0 < D -> tracks N D rec -> tracks N (D * 2) (shr_1 rec).
Proof.
  intros HN HD [Hm Hl].
  pose proof (Z.mod_pos_bound N D HD) as Hrho.
  assert (Hq : N / (D * 2) = (N / D) / 2) by (rewrite Z.div_div; lia).
  assert (Hr : N mod (D * 2) = N mod D + D * ((N / D) mod 2))
    by (apply Z.rem_mul_r; lia).
  assert (Hm0 : 0 <= N / D) by (apply Z.div_pos; lia).
  unfold tracks. rewrite Hq, Hr, <- Hm. rewrite <- Hm in Hm0.
  set (rho := N mod D) in *. clearbody rho.
  destruct rec as [m r s]. cbn [shr_m] in *.
  assert (Hs : orb r s = negb (rho =? 0)).
  { unfold locate in Hl. destruct (Z.eqb_spec rho 0), r, s; simpl in *;
      try reflexivity; try discriminate; destruct (2 * rho ?= D); discriminate. }
  unfold shr_1. rewrite Hs.
  destruct m as [|[p|p|]|p]; try lia; cbn [shr_m loc_of_shr_record].
  - (* zero *)
    split; [reflexivity|]. rewrite Z.mod_0_l by lia. rewrite Z.mul_0_r, Z.add_0_r.
    unfold locate. destruct (Z.eqb_spec rho 0); simpl; [reflexivity|].
    assert (E : (2 * rho ?= D * 2) = Lt) by (apply Z.compare_lt_iff; lia).
    rewrite E. reflexivity.
  - (* odd *)
    assert (E2 : Z.pos p~1 mod 2 = 1).
    { rewrite Pos2Z.inj_xI. rewrite Z.add_comm, Z.mul_comm, Z.mod_add by lia. reflexivity. }
    split.
    + rewrite Pos2Z.inj_xI. apply (Z.div_unique _ _ _ 1); lia.
    + rewrite E2. unfold locate.
      destruct (Z.eqb_spec (rho + D * 1) 0); [lia|].
      destruct (Z.eqb_spec rho 0); simpl.
      * subst rho. assert (E : (2 * (0 + D * 1) ?= D * 2) = Eq) by (apply Z.compare_eq_iff; lia).
        rewrite E. reflexivity.
      * assert (E : (2 * (rho + D * 1) ?= D * 2) = Gt) by (apply Z.compare_gt_iff; lia).
        rewrite E. reflexivity.
  - (* even *)
    assert (E2 : Z.pos p~0 mod 2 = 0).
    { rewrite Pos2Z.inj_xO. rewrite Z.mul_comm, Z.mod_mul by lia. reflexivity. }
    split.
    + rewrite Pos2Z.inj_xO. apply (Z.div_unique _ _ _ 0); lia.
    + rewrite E2, Z.mul_0_r, Z.add_0_r. unfold locate.
      destruct (Z.eqb_spec rho 0); simpl; [reflexivity|].
      assert (E : (2 * rho ?= D * 2) = Lt) by (apply Z.compare_lt_iff; lia).
      rewrite E. reflexivity.
  - (* one *)
    split; [reflexivity|]. change (1 mod 2) with 1. unfold locate.
    destruct (Z.eqb_spec (rho + D * 1) 0); [lia|].
    destruct (Z.eqb_spec rho 0); simpl.
    * subst rho. assert (E : (2 * (0 + D * 1) ?= D * 2) = Eq) by (apply Z.compare_eq_iff; lia).
      rewrite E. reflexivity.
    * assert (E : (2 * (rho + D * 1) ?= D * 2) = Gt) by (apply Z.compare_gt_iff; lia).
      rewrite E. reflexivity.
Qed.

Lemma tracks_iter N D rec (k : nat) :
  0 <= N -> 0 < D -> tracks N D rec ->
  tracks N (D * 2 ^ Z.of_nat k) (Nat.iter k shr_1 rec).
Proof.
  intros HN HD Ht. induction k as [|k IH].
  - simpl. rewrite Z.mul_1_r. exact Ht.
  - rewrite Nat2Z.inj_succ, Z.pow_succ_r by lia. cbn [Nat.iter].
    replace (D * (2 * 2 ^ Z.of_nat k)) with (D * 2 ^ Z.of_nat k * 2) by lia.
    apply tracks_shr_1; [assumption| |exact IH].
    pose proof (pow2_pos (Z.of_nat k) ltac:(lia)). lia.
Qed.

Lemma tracks_shr N D rec e k :
  0 <= N -> 0 < D -> tracks N D rec ->
  tracks N (D * 2 ^ Z.max 0 k) (fst (shr rec e k)) /\ snd (shr rec e k) = e + Z.max 0 k.
Proof.
  intros HN HD Ht. destruct k as [|p|p]; cbn [shr fst snd].
  - simpl. rewrite Z.mul_1_r. split; [exact Ht|lia].
  - rewrite iter_pos_nat. rewrite Z.max_r by lia.
    rewrite <- (positive_nat_Z p). split; [|reflexivity].
    apply tracks_iter; assumption.
  - rewrite Z.max_l by lia. simpl. rewrite Z.mul_1_r. split; [exact Ht|lia].
Qed.

Lemma round_tracks N D rec :
  0 < D -> tracks N D rec ->
  round_nearest_even (shr_m rec) (loc_of_shr_record rec) = round_half_even N D.
Proof.
  intros HD [-> ->]. unfold locate, round_half_even, round_nearest_even.
  destruct (Z.eqb_spec (N mod D) 0) as [E|E].
  - rewrite E. assert (C : (2 * 0 ?= D) = Lt) by (apply Z.compare_lt_iff; lia).
    rewrite C. reflexivity.
  - destruct (2 * (N mod D) ?= D); reflexivity.
Qed.

(** Rounding to nearest even, exactly: the quotient [N / P] with the place
    of its rest is rounded to the nearest multiple of [2^K], where [K] is
    the number of digits beyond 53. *)
Lemma round_exact N P ex :
  0 < P -> P <= N ->
  let q := N / P in
  let d := Zdigits2 q in
  let K := Z.max 0 (d - 53) in
  - 1074 <= d + ex - 53 -> ex + K + 1 <= 971 ->
  exists mf ef,
    binary_round_aux 53 1024 false q ex (locate (N mod P) P) = S754_finite false mf ef
    /\ (ef = ex + K \/ ef = ex + K + 1)
    /\ Z.pos mf * 2 ^ (ef - ex - K) = round_half_even N (P * 2 ^ K)
    /\ Zdigits2 (Z.pos mf) <= 53
    /\ (53 <= d -> Zdigits2 (Z.pos mf) = 53).
Proof.
  intros HP HN q d K Hlo Hhi.
  assert (Hq1 : 1 <= q) by (apply Z.div_le_lower_bound; lia).
  destruct q as [|p|p] eqn:Hqp; try lia. fold q in Hqp.
  assert (Hd : d = Zdigits2 (Z.pos p)) by reflexivity.
  pose proof (Zdigits2_bounds p) as [Hplo Hphi]. rewrite <- Hd in Hplo, Hphi.
  pose proof (Zdigits2_pos p) as Hdpos. rewrite <- Hd in Hdpos.
  assert (HK : 0 <= K) by lia.
  pose proof (pow2_pos K HK) as HpK.
  unfold binary_round_aux, shr_fexp, fexp, emin.
  rewrite <- Hd.
  replace (Z.max (d + ex - 53) (3 - 1024 - 53) - ex) with (d - 53) by lia.
  destruct (tracks_shr N P (shr_record_of_loc (Z.pos p) (locate (N mod P) P)) ex (d - 53))
    as [Ht He1]; [lia|lia|rewrite <- Hqp; apply tracks_of_loc|].
  fold K in Ht, He1.
  destruct (shr _ ex (d - 53)) as [mrs1 e1]. cbn [fst snd] in Ht, He1.
  rewrite (round_tracks N (P * 2 ^ K) mrs1 ltac:(lia) Ht).
  destruct Ht as [Hm1 _].
  assert (Hm1q : shr_m mrs1 = Z.pos p / 2 ^ K).
  { rewrite Hm1, <- Hqp. unfold q. rewrite Z.div_div by lia. reflexivity. }
  pose proof (div_pow2_bounds (Z.pos p) K HK) as [Hdiv1 Hdiv2].
  rewrite <- Hm1q in Hdiv1, Hdiv2.
  set (m1 := shr_m mrs1) in *.
  assert (Hm1b : 1 <= m1 /\ m1 < 2 ^ 53 /\ (53 <= d -> 2 ^ 52 <= m1)).
  { destruct (Z.le_gt_cases 53 d) as [Hge|Hlt].
    - assert (K = d - 53) by lia.
      assert (E1 : 2 ^ (d - 1) = 2 ^ 52 * 2 ^ K).
      { rewrite <- pow2_split by lia. f_equal. lia. }
      assert (E2 : 2 ^ d = 2 ^ 53 * 2 ^ K).
      { rewrite <- pow2_split by lia. f_equal. lia. }
      assert (2 ^ 52 <= m1).
      { rewrite Hm1q. apply Z.div_le_lower_bound; lia. }
      assert (m1 < 2 ^ 53).
      { rewrite Hm1q. apply Z.div_lt_upper_bound; lia. }
      repeat split; lia.
    - assert (HK0 : K = 0) by lia.
      assert (Hm : m1 = Z.pos p).
      { rewrite Hm1q, HK0. apply Z.div_1_r. }
      assert (2 ^ d <= 2 ^ 52) by (apply Z.pow_le_mono_r; lia).
      repeat split; lia. }
  destruct Hm1b as (Hm1pos & Hm1hi & Hm1lo).
  set (m2 := round_half_even N (P * 2 ^ K)).
  assert (Hm2 : m2 = m1 \/ m2 = m1 + 1).
  { unfold m2, round_half_even. fold m1. rewrite <- Hm1.
    destruct (2 * (N mod (P * 2 ^ K)) ?= P * 2 ^ K); [destruct (Z.even m1)| |]; auto. }
  destruct m2 as [|q2|q2] eqn:Hq2; try lia.
  set (d2 := Zdigits2 (Z.pos q2)).
  pose proof (Zdigits2_bounds q2) as [Hqlo Hqhi]. fold d2 in Hqlo, Hqhi.
  pose proof (Zdigits2_pos q2) as Hd2pos. fold d2 in Hd2pos.
  assert (Hd2 : d2 <= 54 /\ (53 <= d -> 53 <= d2)).
  { assert (Z.pos q2 <= 2 ^ 53) by lia.
    assert (d2 - 1 < 54).
    { apply pow2_lt_mono; [lia|]. change (2 ^ 54) with (2 * 2 ^ 53). lia. }
    split; [lia|].
    intros Hge. specialize (Hm1lo Hge).
    assert (52 < d2) by (apply pow2_lt_mono; lia). lia. }
  destruct Hd2 as (Hd2hi & Hd2ge).
  assert (Hd2lo : d <= 53 -> d - 1 < d2).
  { intros Hle. apply pow2_lt_mono; [lia|].
    assert (K = 0) by lia. assert (m1 = Z.pos p).
    { rewrite Hm1q. replace K with 0 by lia. apply Z.div_1_r. }
    lia. }
  assert (Hlo2 : - 1074 <= d2 + e1 - 53).
  { destruct (Z.le_gt_cases 53 d); [specialize (Hd2ge H); lia|].
    specialize (Hd2lo ltac:(lia)). lia. }
  pose proof (shr_fexp_spec q2 e1 loc_Exact Hlo2) as [Hmf Hef]. fold d2 in Hmf, Hef.
  unfold shr_fexp, fexp, emin in Hmf, Hef. fold d2 in Hmf, Hef.
  destruct (shr (shr_record_of_loc (Z.pos q2) loc_Exact) e1
              (Z.max (d2 + e1 - 53) (3 - 1024 - 53) - e1)) as [mrs2 e2].
  cbn [fst snd] in Hmf, Hef.
  set (k2 := Z.max 0 (d2 - 53)) in *.
  assert (Hk2 : k2 = 0 \/ k2 = 1) by lia.
  pose proof (div_pow2_bounds (Z.pos q2) k2 ltac:(lia)) as [Hdq1 Hdq2].
  rewrite <- Hmf in Hdq1, Hdq2.
  assert (Hmfpos : 1 <= shr_m mrs2).
  { destruct Hk2 as [E|E]; rewrite E in Hdq1, Hdq2;
      [rewrite Z.pow_0_r in Hdq1, Hdq2; lia|rewrite Z.pow_1_r in Hdq1, Hdq2].
    assert (E54 : d2 = 54) by lia. rewrite E54 in Hqlo.
    change (2 ^ (54 - 1)) with (2 ^ 53) in Hqlo. lia. }
  destruct (shr_m mrs2) as [|mf|mf] eqn:Hmfeq; try lia.
  assert (He2 : (e2 <=? 1024 - 53) = true) by (apply Z.leb_le; lia).
  rewrite He2. exists mf, e2.
  split; [reflexivity|].
  destruct Hk2 as [E|E]; rewrite E in Hmf, Hef.
  - (* the rounded mantissa fits *)
    rewrite Z.pow_0_r, Z.div_1_r in Hmf.
    split; [left; lia|]. split.
    + replace (e2 - ex - K) with 0 by lia. rewrite Z.pow_0_r. lia.
    + assert (Hd253 : d2 <= 53) by lia.
      rewrite Hmf. fold d2. split; [exact Hd253|]. intros Hge. specialize (Hd2ge Hge). lia.
  - (* the rounding carried into a 54th digit *)
    assert (Hd254 : d2 = 54) by lia.
    rewrite Hd254 in Hqlo. change (2 ^ (54 - 1)) with (2 ^ 53) in Hqlo.
    assert (Hq253 : Z.pos q2 = 2 ^ 53) by lia.
    assert (Hmf52 : Z.pos mf = 2 ^ 52).
    { rewrite Hmf, Hq253. reflexivity. }
    split; [right; lia|]. split.
    + replace (e2 - ex - K) with 1 by lia. rewrite Hmf52, Hq253. reflexivity.
    + assert (Zdigits2 (Z.pos mf) = 53).
      { apply Zdigits2_unique. rewrite Hmf52. simpl. lia. }
      split; [lia|]. intros _. assumption.
Qed.


Lemma round_half_even_le N D Z : 0 < D -> N <= Z * D -> round_half_even N D <= Z.
Proof.
  intros HD H. unfold round_half_even.
  pose proof (Z.div_mod N D ltac:(lia)) as Hdm.
  pose proof (Z.mod_pos_bound N D HD) as Hr.
  assert (Hq : N / D <= Z) by (apply Z.div_le_upper_bound; lia).
  destruct (Z.eq_dec (N / D) Z) as [E|E].
  - assert (Hr0 : N mod D = 0) by nia.
    rewrite Hr0. replace (2 * 0 ?= D) with Lt by (symmetry; apply Z.compare_lt_iff; lia).
    lia.
  - destruct (2 * (N mod D) ?= D); [destruct (Z.even (N / D))| |]; lia.
Qed.

Lemma round_half_even_ge N D Z : 0 < D -> Z * D <= N -> Z <= round_half_even N D.
Proof.
  intros HD H. unfold round_half_even.
  assert (Hq : Z <= N / D) by (apply Z.div_le_lower_bound; lia).
  destruct (2 * (N mod D) ?= D); [destruct (Z.even (N / D))| |]; lia.
Qed.

Lemma pow2_le_mono a b : 0 <= a -> a <= b -> 2 ^ a <= 2 ^ b.
Proof. intros. apply Z.pow_le_mono_r; lia. Qed.

(** Rounding keeps the order with every number that 53 bits can hold. *)
Lemma round_aux_mono N P ex :
  0 < P -> 0 <= N ->
  let q := N / P in
  let d := Zdigits2 q in
  53 <= d -> - 1074 <= d + ex - 53 -> ex + (d - 53) + 1 <= 971 ->
  exists mf ef,
    binary_round_aux 53 1024 false q ex (locate (N mod P) P) = S754_finite false mf ef
    /\ Zdigits2 (Z.pos mf) = 53
    /\ ex + d - 53 <= ef <= ex + d - 52
    /\ forall Y ey c, 0 < Y < 2 ^ 53 -> 0 <= ex + c -> 0 <= ey + c ->
         (N * 2 ^ (ex + c) <= Y * 2 ^ (ey + c) * P ->
            Z.pos mf * 2 ^ (ef + c) <= Y * 2 ^ (ey + c))
         /\ (Y * 2 ^ (ey + c) * P <= N * 2 ^ (ex + c) ->
            Y * 2 ^ (ey + c) <= Z.pos mf * 2 ^ (ef + c)).
Proof.
  intros HP HN0 q d Hd Hlo Hhi.
  assert (Hqpos : 0 < q).
  { destruct q as [|p|p] eqn:E; [| lia |].
    - subst d. simpl in Hd. lia.
    - unfold q in E. pose proof (Z.div_pos N P HN0 HP). lia. }
  assert (HN : P <= N).
  { destruct (Z.le_gt_cases P N); [assumption|].
    unfold q in Hqpos. rewrite Z.div_small in Hqpos by lia. lia. }
  destruct (round_exact N P ex HP HN) as (mf & ef & E & Hef & Hval & _ & Hdig).
  { fold q d. lia. } { fold q d. lia. }
  fold q d in Hef, Hval, Hdig.
  replace (Z.max 0 (d - 53)) with (d - 53) in Hef, Hval by lia.
  set (K := d - 53) in *. assert (HK : 0 <= K) by lia.
  exists mf, ef. split; [exact E|]. split; [apply Hdig; lia|]. split; [lia|].
  intros Y ey c HY Hexc Heyc.
  pose proof (pow2_pos K HK) as HpK.
  set (R0 := round_half_even N (P * 2 ^ K)) in *.
  assert (Hmf : Z.pos mf * 2 ^ (ef + c) = R0 * 2 ^ (ex + K + c)).
  { rewrite <- Hval. rewrite <- Z.mul_assoc. f_equal.
    rewrite <- pow2_split by lia. f_equal. lia. }
  rewrite Hmf.
  (* the quotient has [d] digits *)
  destruct q as [|p|p] eqn:Eq; try lia. fold q in Eq.
  pose proof (Zdigits2_bounds p) as [Hplo Hphi]. fold d in Hplo, Hphi.
  assert (Hq52 : 2 ^ 52 * 2 ^ K <= q).
  { rewrite <- pow2_split by lia. replace (52 + K) with (d - 1) by lia. lia. }
  assert (HNlow : 2 ^ 52 * (P * 2 ^ K) <= N).
  { pose proof (Z.mul_div_le N P HP). fold q in H. nia. }
  assert (HR52 : 2 ^ 52 <= R0) by (apply round_half_even_ge; lia).
  pose proof (pow2_pos (ex + c) Hexc) as Hpex.
  pose proof (pow2_pos (ey + c) Heyc) as Hpey.
  assert (Esplit : 2 ^ (ex + K + c) = 2 ^ K * 2 ^ (ex + c)).
  { rewrite <- pow2_split by lia. f_equal. lia. }
  destruct (Z.le_gt_cases (ex + K) ey) as [Hgrid|Hfine].
  - (* the bound is on the grid of the result *)
    set (Z0 := Y * 2 ^ (ey - ex - K)).
    assert (EY : Y * 2 ^ (ey + c) = Z0 * 2 ^ (ex + K + c)).
    { unfold Z0. rewrite <- Z.mul_assoc. f_equal.
      rewrite <- pow2_split by lia. f_equal. lia. }
    rewrite EY. pose proof (pow2_pos (ex + K + c) ltac:(lia)) as Hpg.
    split; intros H.
    + apply Z.mul_le_mono_nonneg_r; [lia|].
      apply round_half_even_le; [lia|].
      rewrite Esplit in H.
      apply (mul_le_cancel _ _ (2 ^ (ex + c)) Hpex). lia.
    + apply Z.mul_le_mono_nonneg_r; [lia|].
      apply round_half_even_ge; [lia|].
      rewrite Esplit in H.
      apply (mul_le_cancel _ _ (2 ^ (ex + c)) Hpex). lia.
  - (* a finer bound lies below the result's binade *)
    assert (Hbelow : Y * 2 ^ (ey + c) < 2 ^ 52 * 2 ^ (ex + K + c)).
    { apply Z.lt_le_trans with (2 ^ 53 * 2 ^ (ey + c)).
      - apply Z.mul_lt_mono_pos_r; lia.
      - rewrite <- !pow2_split by lia. apply pow2_le_mono; lia. }
    pose proof (pow2_pos (ex + K + c) ltac:(lia)) as Hpg.
    split; intros H.
    + exfalso. rewrite Esplit in Hbelow.
      assert (N * 2 ^ (ex + c) < 2 ^ 52 * (2 ^ K * 2 ^ (ex + c)) * P) by nia.
      assert (2 ^ 52 * (P * 2 ^ K) * 2 ^ (ex + c) <= N * 2 ^ (ex + c))
        by (apply Z.mul_le_mono_nonneg_r; lia).
      lia.
    + apply Z.le_trans with (2 ^ 52 * 2 ^ (ex + K + c)); [lia|].
      apply Z.mul_le_mono_nonneg_r; lia.
Qed.


Lemma new_location_locate P r :
  new_location P r = locate r P.
Proof.
  unfold new_location, locate.
  destruct (Z.even P) eqn:Hev.
  - reflexivity.
  - unfold new_location_odd.
    destruct (Z.eqb_spec r 0) as [E|E]; [reflexivity|].
    f_equal.
    assert (Hne : 2 * r <> P).
    { intros E2. rewrite <- E2 in Hev. rewrite Z.even_mul in Hev. discriminate. }
    destruct (2 * r + 1 ?= P) eqn:Hc.
    + apply Z.compare_eq in Hc. symmetry. apply Z.compare_lt_iff. lia.
    + rewrite Z.compare_lt_iff in Hc. symmetry. apply Z.compare_lt_iff. lia.
    + rewrite Z.compare_gt_iff in Hc. symmetry. apply Z.compare_gt_iff. lia.
Qed.

(** A positive integer [M] at exponent [E], brought to 53 bits. *)
Lemma binary_round_mono M E :
  let d := Zdigits2 (Z.pos M) in
  - 1074 <= d + E - 53 -> E + Z.max 0 (d - 53) + 1 <= 971 ->
  exists mf ef,
    binary_round 53 1024 false M E = S754_finite false mf ef
    /\ Zdigits2 (Z.pos mf) = 53
    /\ d + E - 53 <= ef <= d + E - 52
    /\ forall Y ey c, 0 < Y < 2 ^ 53 -> 0 <= E + c -> 0 <= d + E - 53 + c -> 0 <= ey + c ->
         (Z.pos M * 2 ^ (E + c) <= Y * 2 ^ (ey + c) ->
            Z.pos mf * 2 ^ (ef + c) <= Y * 2 ^ (ey + c))
         /\ (Y * 2 ^ (ey + c) <= Z.pos M * 2 ^ (E + c) ->
            Y * 2 ^ (ey + c) <= Z.pos mf * 2 ^ (ef + c)).
Proof.
  intros d Hlo Hhi.
  pose proof (Zdigits2_pos M) as Hdpos. fold d in Hdpos.
  pose proof (Zdigits2_bounds M) as [HMlo HMhi]. fold d in HMlo, HMhi.
  unfold binary_round.
  change (Z.pos (digits2_pos M)) with d.
  unfold fexp, emin.
  replace (Z.max (d + E - 53) (3 - 1024 - 53)) with (d + E - 53) by lia.
  unfold shl_align.
  destruct (d + E - 53 - E) as [|k|k] eqn:Hk.
  - (* 53 digits already *)
    destruct (round_aux_mono (Z.pos M) 1 E ltac:(lia) ltac:(lia))
      as (mf & ef & Eq & Hdig & Hef & Hmono).
    { rewrite Z.div_1_r. fold d. lia. }
    { rewrite Z.div_1_r. fold d. lia. }
    { rewrite Z.div_1_r. fold d. lia. }
    rewrite Z.div_1_r, Z.mod_1_r in Eq. change (locate 0 1) with loc_Exact in Eq.
    rewrite Z.div_1_r in Hef. fold d in Hef.
    exists mf, ef. split; [exact Eq|]. split; [exact Hdig|]. split; [lia|].
    intros Y ey c HY Hc1 Hc2 Hc3.
    destruct (Hmono Y ey c HY Hc1 Hc3) as [Hup Hdown].
    split; intros H; [apply Hup|apply Hdown]; lia.
  - (* more than 53 digits *)
    destruct (round_aux_mono (Z.pos M) 1 E ltac:(lia) ltac:(lia))
      as (mf & ef & Eq & Hdig & Hef & Hmono).
    { rewrite Z.div_1_r. fold d. lia. }
    { rewrite Z.div_1_r. fold d. lia. }
    { rewrite Z.div_1_r. fold d. lia. }
    rewrite Z.div_1_r, Z.mod_1_r in Eq. change (locate 0 1) with loc_Exact in Eq.
    rewrite Z.div_1_r in Hef. fold d in Hef.
    exists mf, ef. split; [exact Eq|]. split; [exact Hdig|]. split; [lia|].
    intros Y ey c HY Hc1 Hc2 Hc3.
    destruct (Hmono Y ey c HY Hc1 Hc3) as [Hup Hdown].
    split; intros H; [apply Hup|apply Hdown]; lia.
  - (* fewer: the mantissa is shifted left *)
    set (q := Pos.iter xO M k).
    assert (Hq : Z.pos q = Z.pos M * 2 ^ Z.pos k) by apply iter_xO_pow.
    assert (Hk' : Z.pos k = 53 - d) by lia.
    assert (Hdq : Zdigits2 (Z.pos q) = 53).
    { apply Zdigits2_unique. rewrite Hq, Hk'.
      assert (E52 : 2 ^ (53 - 1) = 2 ^ (d - 1) * 2 ^ (53 - d)).
      { rewrite <- pow2_split by lia. f_equal. lia. }
      assert (E53 : 2 ^ 53 = 2 ^ d * 2 ^ (53 - d)).
      { rewrite <- pow2_split by lia. f_equal. lia. }
      rewrite E52, E53. pose proof (pow2_pos (53 - d) ltac:(lia)). nia. }
    destruct (round_aux_mono (Z.pos q) 1 (d + E - 53) ltac:(lia) ltac:(lia))
      as (mf & ef & Eq & Hdig & Hef & Hmono).
    { rewrite Z.div_1_r, Hdq. lia. }
    { rewrite Z.div_1_r, Hdq. lia. }
    { rewrite Z.div_1_r, Hdq. lia. }
    rewrite Z.div_1_r, Z.mod_1_r in Eq. change (locate 0 1) with loc_Exact in Eq.
    rewrite Z.div_1_r, Hdq in Hef.
    exists mf, ef. split; [exact Eq|]. split; [exact Hdig|]. split; [lia|].
    intros Y ey c HY Hc1 Hc2 Hc3.
    destruct (Hmono Y ey c HY Hc2 Hc3) as [Hup Hdown].
    assert (EM : Z.pos q * 2 ^ (d + E - 53 + c) = Z.pos M * 2 ^ (E + c)).
    { rewrite Hq, Hk', <- Z.mul_assoc. f_equal.
      rewrite <- pow2_split by lia. f_equal. lia. }
    rewrite EM in Hup, Hdown.
    split; intros H; [apply Hup|apply Hdown]; lia.
Qed.


Lemma holds53_intro Y k : 0 < Y < 2 ^ 53 -> 0 <= k <= 1200 -> holds53 (Y * 2 ^ (1200 - k)).
Proof.
  intros HY Hk. exists Y, (- k). split; [exact HY|]. split; [lia|].
  f_equal. f_equal. lia.
Qed.

Lemma holds53_pos U : holds53 U -> 0 < U.
Proof.
  intros (Y & ey & HY & Hey & ->). pose proof (pow2_pos (ey + 1200) ltac:(lia)). nia.
Qed.

Lemma normal53_units r x : normal53 r x -> r <= 1200 -> 0 < float64_units x.
Proof.
  intros (m & e & -> & _ & He) Hr. simpl.
  pose proof (pow2_pos (e + 1200) ltac:(lia)). nia.
Qed.

Lemma normal53_weaken r r' x : normal53 r x -> r <= r' -> normal53 r' x.
Proof. intros (m & e & -> & Hd & He) Hr. exists m, e. repeat split; try assumption; lia. Qed.

(** An integer below [2^53] is converted without error. *)
Lemma float64_of_int_units n :
  0 < n < 2 ^ 53 ->
  normal53 53 (float64_of_int n) /\ float64_units (float64_of_int n) = n * 2 ^ 1200.
Proof.
  intros Hn. destruct n as [|p|p]; try lia.
  unfold float64_of_int, binary_normalize, prec64, emax64.
  pose proof (Zdigits2_pos p) as Hdpos.
  pose proof (Zdigits2_bounds p) as [Hplo Hphi].
  set (d := Zdigits2 (Z.pos p)) in *.
  assert (Hd : d <= 53).
  { assert (d - 1 < 53) by (apply pow2_lt_mono; lia). lia. }
  destruct (binary_round_mono p 0) as (mf & ef & E & Hdig & Hef & Hmono).
  { fold d. lia. } { fold d. lia. }
  fold d in Hef. rewrite E.
  split.
  - exists mf, ef. split; [reflexivity|]. split; [exact Hdig|]. lia.
  - simpl float64_units.
    destruct (Hmono (Z.pos p) 0 1200 ltac:(lia) ltac:(lia) ltac:(fold d; lia) ltac:(lia))
      as [Hup Hdown].
    change (0 + 1200) with 1200 in Hup, Hdown.
    specialize (Hup ltac:(lia)). specialize (Hdown ltac:(lia)). lia.
Qed.

Lemma float64_of_int_0 : float64_of_int 0 = S754_zero false.
Proof. reflexivity. Qed.

(** Division keeps the order with every number that 53 bits can hold. *)
Lemma float64_div_mono r x y :
  normal53 r x -> normal53 r y -> 0 <= r <= 400 ->
  normal53 (2 * r + 53) (float64_div x y)
  /\ forall U, holds53 U ->
       (float64_units x * 2 ^ 1200 <= U * float64_units y ->
          float64_units (float64_div x y) <= U)
       /\ (U * float64_units y <= float64_units x * 2 ^ 1200 ->
          U <= float64_units (float64_div x y)).
Proof.
  intros (m1 & e1 & -> & Hd1 & He1) (m2 & e2 & -> & Hd2 & He2) Hr.
  pose proof (Zdigits2_bounds m1) as [H1lo H1hi]. rewrite Hd1 in H1lo, H1hi.
  pose proof (Zdigits2_bounds m2) as [H2lo H2hi]. rewrite Hd2 in H2lo, H2hi.
  change (2 ^ (53 - 1)) with 4503599627370496 in *.
  change (2 ^ 53) with 9007199254740992 in *.
  unfold float64_div, SFdiv, SFdiv_core_binary, prec64, emax64.
  rewrite Hd1, Hd2. unfold fexp, emin.
  replace (Z.min (Z.max (53 + e1 - (53 + e2) - 53) (3 - 1024 - 53)) (e1 - e2))
    with (e1 - e2 - 53) by lia.
  replace (e1 - e2 - (e1 - e2 - 53)) with 53 by lia.
  rewrite Z.shiftl_mul_pow2 by lia.
  change (2 ^ 53) with 9007199254740992.
  set (a := Z.pos m1 * 9007199254740992).
  destruct (Z.div_eucl a (Z.pos m2)) as [q r0] eqn:Hqr.
  assert (Hq : q = a / Z.pos m2) by (unfold Z.div; rewrite Hqr; reflexivity).
  assert (Hr0 : r0 = a mod Z.pos m2) by (unfold Z.modulo; rewrite Hqr; reflexivity).
  assert (Hq52 : 4503599627370496 <= q).
  { rewrite Hq. apply Z.div_le_lower_bound; [lia|]. unfold a. nia. }
  assert (Hq54 : q < 18014398509481984).
  { rewrite Hq. apply Z.div_lt_upper_bound; [lia|]. unfold a. nia. }
  destruct q as [|qp|qp] eqn:Eqp; try lia.
  pose proof (Zdigits2_bounds qp) as [Hdlo Hdhi].
  pose proof (Zdigits2_pos qp) as Hdpos.
  set (dq := Zdigits2 (Z.pos qp)) in *.
  assert (Hdq : 53 <= dq <= 54).
  { assert (52 < dq).
    { apply pow2_lt_mono; [lia|]. change (2 ^ 52) with 4503599627370496. lia. }
    assert (dq - 1 < 54).
    { apply pow2_lt_mono; [lia|]. change (2 ^ 54) with 18014398509481984. lia. }
    lia. }
  destruct (round_aux_mono a (Z.pos m2) (e1 - e2 - 53) ltac:(lia) ltac:(unfold a; lia))
    as (mf & ef & E & Hdig & Hef & Hmono).
  { rewrite <- Hq. fold dq. lia. }
  { rewrite <- Hq. fold dq. lia. }
  { rewrite <- Hq. fold dq. lia. }
  rewrite <- Hq, <- Hr0, <- new_location_locate in E. fold dq in Hef.
  rewrite <- Hq in Hef. fold dq in Hef.
  simpl xorb. rewrite E. split.
  - exists mf, ef. split; [reflexivity|]. split; [exact Hdig|]. lia.
  - intros U (Y & ey & HY & Hey & ->). simpl float64_units.
    destruct (Hmono Y ey 1200 HY ltac:(lia) ltac:(lia)) as [Hup Hdown].
    assert (Ea : a * 2 ^ (e1 - e2 - 53 + 1200) * 2 ^ (e2 + 1200)
                 = Z.pos m1 * 2 ^ (e1 + 1200) * 2 ^ 1200).
    { unfold a. change 9007199254740992 with (2 ^ 53).
      rewrite <- !Z.mul_assoc. f_equal.
      rewrite <- !pow2_split by lia. f_equal. lia. }
    pose proof (pow2_pos (e2 + 1200) ltac:(lia)) as Hp2.
    split; intros H.
    + apply Hup. apply (mul_le_cancel _ _ (2 ^ (e2 + 1200)) Hp2). rewrite Ea. lia.
    + apply Hdown. apply (mul_le_cancel _ _ (2 ^ (e2 + 1200)) Hp2). rewrite Ea. lia.
Qed.


Lemma shl_align_down m e ez :
  ez <= e -> Z.pos (fst (shl_align m e ez)) = Z.pos m * 2 ^ (e - ez).
Proof.
  intros H. unfold shl_align.
  destruct (ez - e) as [|k|k] eqn:Hk; cbn [fst].
  - replace (e - ez) with 0 by lia. rewrite Z.pow_0_r. lia.
  - lia.
  - rewrite iter_xO_pow. f_equal. f_equal. lia.
Qed.

(** Addition keeps the order with every number that 53 bits can hold. *)
Lemma float64_add_mono r x y :
  normal53 r x -> normal53 r y -> 0 <= r <= 400 ->
  normal53 (r + 2) (float64_add x y)
  /\ forall U, holds53 U ->
       (float64_units x + float64_units y <= U -> float64_units (float64_add x y) <= U)
       /\ (U <= float64_units x + float64_units y -> U <= float64_units (float64_add x y)).
Proof.
  intros (m1 & e1 & -> & Hd1 & He1) (m2 & e2 & -> & Hd2 & He2) Hr.
  pose proof (Zdigits2_bounds m1) as [H1lo H1hi]. rewrite Hd1 in H1lo, H1hi.
  pose proof (Zdigits2_bounds m2) as [H2lo H2hi]. rewrite Hd2 in H2lo, H2hi.
  change (2 ^ (53 - 1)) with (2 ^ 52) in *.
  unfold float64_add, SFadd, prec64, emax64. cbn [cond_Zopp].
  set (ez := Z.min e1 e2).
  pose proof (shl_align_down m1 e1 ez ltac:(lia)) as Hs1.
  pose proof (shl_align_down m2 e2 ez ltac:(lia)) as Hs2.
  set (a1 := fst (shl_align m1 e1 ez)) in *.
  set (a2 := fst (shl_align m2 e2 ez)) in *.
  change (Z.pos a1 + Z.pos a2) with (Z.pos (a1 + a2)).
  unfold binary_normalize.
  assert (HM : Z.pos (a1 + a2) = Z.pos m1 * 2 ^ (e1 - ez) + Z.pos m2 * 2 ^ (e2 - ez)).
  { rewrite Pos2Z.inj_add. lia. }
  set (M := (a1 + a2)%positive) in *.
  pose proof (Zdigits2_bounds M) as [HMlo HMhi].
  pose proof (Zdigits2_pos M) as HMpos.
  set (d := Zdigits2 (Z.pos M)) in *.
  set (em := Z.max e1 e2).
  pose proof (pow2_pos (e1 - ez) ltac:(lia)) as Hp1.
  pose proof (pow2_pos (e2 - ez) ltac:(lia)) as Hp2.
  assert (Hlow : 2 ^ 52 * 2 ^ (em - ez) <= Z.pos M).
  { rewrite HM. unfold em. destruct (Z.max_spec e1 e2) as [[_ ->]|[_ ->]]; nia. }
  assert (Hhigh : Z.pos M < 2 ^ 54 * 2 ^ (em - ez)).
  { rewrite HM. change (2 ^ 54) with (2 ^ 53 + 2 ^ 53).
    assert (2 ^ (e1 - ez) <= 2 ^ (em - ez)) by (apply pow2_le_mono; lia).
    assert (2 ^ (e2 - ez) <= 2 ^ (em - ez)) by (apply pow2_le_mono; lia).
    nia. }
  rewrite <- pow2_split in Hlow, Hhigh by lia.
  assert (Hdlo : 52 + (em - ez) < d).
  { apply pow2_lt_mono; lia. }
  assert (Hdhi : d - 1 < 54 + (em - ez)).
  { apply pow2_lt_mono; lia. }
  destruct (binary_round_mono M ez) as (mf & ef & E & Hdig & Hef & Hmono).
  { fold d. lia. } { fold d. lia. }
  fold d in Hef, Hmono. rewrite E. split.
  - exists mf, ef. split; [reflexivity|]. split; [exact Hdig|]. lia.
  - intros U (Y & ey & HY & Hey & ->). simpl float64_units.
    destruct (Hmono Y ey 1200 HY ltac:(lia) ltac:(lia) ltac:(lia)) as [Hup Hdown].
    assert (EM : Z.pos M * 2 ^ (ez + 1200)
                 = Z.pos m1 * 2 ^ (e1 + 1200) + Z.pos m2 * 2 ^ (e2 + 1200)).
    { rewrite HM, Z.mul_add_distr_r, <- !Z.mul_assoc, <- !pow2_split by lia.
      f_equal; f_equal; f_equal; lia. }
    rewrite EM in Hup, Hdown. split; assumption.
Qed.

(** [int(x)] of a positive [float64] below [2^63]. *)
Lemma float64_to_int_units r x :
  normal53 r x -> r <= 1200 -> float64_units x < 2 ^ 63 * 2 ^ 1200 ->
  float64_to_int x = float64_units x / 2 ^ 1200.
Proof.
  intros (m & e & -> & _ & He) Hr Hlt. simpl float64_units in *.
  unfold float64_to_int. cbn [cond_Zopp].
  assert (Ht : (if 0 <=? e then Z.pos m * 2 ^ e else Z.pos m / 2 ^ (- e))
               = Z.pos m * 2 ^ (e + 1200) / 2 ^ 1200).
  { destruct (Z.leb_spec 0 e) as [H0|H0].
    - rewrite pow2_split by lia. rewrite Z.mul_assoc, Z.div_mul by lia. reflexivity.
    - replace (2 ^ 1200) with (2 ^ (- e) * 2 ^ (e + 1200)).
      + pose proof (pow2_pos (- e) ltac:(lia)). pose proof (pow2_pos (e + 1200) ltac:(lia)).
        rewrite Z.div_mul_cancel_r by lia. reflexivity.
      + rewrite <- pow2_split by lia. f_equal. lia. }
  rewrite Ht.
  assert (Hq : Z.pos m * 2 ^ (e + 1200) / 2 ^ 1200 < 2 ^ 63).
  { apply Z.div_lt_upper_bound; lia. }
  destruct (Z.ltb_spec (Z.pos m * 2 ^ (e + 1200) / 2 ^ 1200) (2 ^ 63)); [reflexivity|lia].
Qed.

End Float64Exact.

(* ===================================================================== *)
(** * package time: durations as float64                                 *)
(* ===================================================================== *)

Section Durations.
Import Go.

Lemma holds53_whole w : 0 < w < 2 ^ 53 -> holds53 (w * 2 ^ 1200).
Proof. intros Hw. exact (holds53_intro w 0 Hw ltac:(lia)). Qed.

(** A whole number plus a fraction of [C], as [Duration.Minutes] and
    [Duration.Hours] add them: never below the whole number, and at most
    what 53 bits can hold above the exact sum. *)
Lemma whole_fraction_units w nsec C :
  0 < w < 2 ^ 53 -> 0 <= nsec < C -> C < 2 ^ 53 ->
  let s := float64_add (float64_of_int w)
             (float64_div (float64_of_int nsec) (float64_of_int C)) in
  normal53 161 s
  /\ w * 2 ^ 1200 <= float64_units s
  /\ forall V U, holds53 V -> holds53 U ->
       nsec * 2 ^ 1200 <= V * C -> w * 2 ^ 1200 + V <= U -> float64_units s <= U.
Proof.
  intros Hw Hn HC s.
  destruct (float64_of_int_units w Hw) as [Na Ua].
  destruct (float64_of_int_units C ltac:(lia)) as [Nc Uc].
  pose proof (pow2_pos 1200 ltac:(lia)) as HB.
  destruct (Z.eq_dec nsec 0) as [E0|E0].
  - (* no fraction: the whole number alone *)
    assert (Es : s = float64_of_int w).
    { unfold s. rewrite E0, float64_of_int_0.
      destruct Nc as (mc & ec & -> & _). destruct Na as (ma & ea & -> & _).
      reflexivity. }
    rewrite Es, Ua. split; [apply (normal53_weaken 53); [exact Na|lia]|].
    split; [lia|]. intros V U HV HU _ Hsum.
    pose proof (holds53_pos V HV). lia.
  - destruct (float64_of_int_units nsec ltac:(lia)) as [Nb Ub].
    destruct (float64_div_mono 53 _ _ Nb Nc ltac:(lia)) as [Nq Hq].
    change (2 * 53 + 53) with 159 in Nq.
    destruct (float64_add_mono 159 _ _ (normal53_weaken 53 159 _ Na ltac:(lia)) Nq ltac:(lia))
      as [Ns Hs].
    fold s in Ns, Hs. change (159 + 2) with 161 in Ns.
    rewrite Ua in Hs.
    pose proof (normal53_units 159 _ Nq ltac:(lia)) as Hqpos.
    split; [exact Ns|]. split.
    + destruct (Hs (w * 2 ^ 1200) (holds53_whole w Hw)) as [_ Hdown]. apply Hdown. lia.
    + intros V U HV HU Hfrac Hsum.
      destruct (Hq V HV) as [Hup _]. rewrite Ub, Uc in Hup.
      specialize (Hup ltac:(nia)).
      destruct (Hs U HU) as [Hup' _]. apply Hup'. lia.
Qed.

(** The whole part comes back when the fraction is discarded. *)
Lemma whole_fraction_to_int w nsec C k :
  0 < w -> 1 <= k <= 52 -> (w + 1) * 2 ^ k <= 2 ^ 53 ->
  0 <= nsec < C -> C <= 2 ^ k ->
  float64_to_int (float64_add (float64_of_int w)
                    (float64_div (float64_of_int nsec) (float64_of_int C))) = w.
Proof.
  intros Hw Hk Hwk Hn HC.
  pose proof (pow2_pos k ltac:(lia)) as Hpk.
  assert (H2k : 2 ^ k < 2 ^ 53) by (apply Z.pow_lt_mono_r; lia).
  assert (Hw53 : 0 < w < 2 ^ 53) by nia.
  destruct (whole_fraction_units w nsec C Hw53 Hn ltac:(lia)) as (Ns & Hlow & Hup).
  set (s := float64_add _ _) in *.
  set (G := 2 ^ (1200 - k)).
  assert (HG : 0 < G) by (apply pow2_pos; lia).
  assert (EB : 2 ^ 1200 = 2 ^ k * G).
  { unfold G. rewrite <- pow2_split by lia. f_equal. lia. }
  assert (HV : holds53 ((2 ^ k - 1) * G)).
  { apply holds53_intro; [|lia]. split; [|lia].
    assert (2 ^ 1 <= 2 ^ k) by (apply pow2_le_mono; lia). change (2 ^ 1) with 2 in H. lia. }
  assert (HU : holds53 (((w + 1) * 2 ^ k - 1) * G)).
  { apply holds53_intro; [|lia].
    assert (2 * 1 <= (w + 1) * 2 ^ k) by (apply Z.mul_le_mono_nonneg; lia). lia. }
  specialize (Hup _ _ HV HU).
  rewrite EB in Hup, Hlow.
  assert (Hs : float64_units s <= ((w + 1) * 2 ^ k - 1) * G).
  { apply Hup; [|lia]. nia. }
  rewrite (float64_to_int_units 161 s Ns ltac:(lia)).
  - rewrite EB. symmetry. apply (Z.div_unique _ _ w (float64_units s - w * (2 ^ k * G))); nia.
  - rewrite EB.
    assert (w + 1 <= 2 ^ 53) by nia.
    assert (2 ^ 53 < 2 ^ 63) by (apply Z.pow_lt_mono_r; lia). nia.
Qed.


Lemma Time_Sub_range t u : minDuration <= Time_Sub t u <= maxDuration.
Proof. unfold Time_Sub, minDuration, maxDuration. lia. Qed.

Lemma Duration_Minutes_to_int d :
  Minute <= d < Hour -> float64_to_int (Duration_Minutes d) = d / Minute.
Proof.
  unfold Hour, Minute. intros Hd. unfold Duration_Minutes, Minute.
  rewrite Z.quot_div_nonneg, Z.rem_mod_nonneg by lia.
  change (60 * 1000000000) with 60000000000 in *.
  assert (1 <= d / 60000000000) by (apply Z.div_le_lower_bound; lia).
  assert (d / 60000000000 < 60) by (apply Z.div_lt_upper_bound; lia).
  pose proof (Z.mod_pos_bound d 60000000000 ltac:(lia)).
  apply (whole_fraction_to_int _ _ _ 36); lia.
Qed.

Lemma Duration_Hours_to_int d :
  Hour <= d < 24 * Hour -> float64_to_int (Duration_Hours d) = d / Hour.
Proof.
  unfold Hour, Minute. intros Hd. unfold Duration_Hours, Hour, Minute.
  rewrite Z.quot_div_nonneg, Z.rem_mod_nonneg by lia.
  change (60 * (60 * 1000000000)) with 3600000000000 in *.
  change (60 * 60 * 1000000000) with 3600000000000 in *.
  assert (1 <= d / 3600000000000) by (apply Z.div_le_lower_bound; lia).
  assert (d / 3600000000000 < 24) by (apply Z.div_lt_upper_bound; lia).
  pose proof (Z.mod_pos_bound d 3600000000000 ltac:(lia)).
  apply (whole_fraction_to_int _ _ _ 42); lia.
Qed.

(** The count of days [int(d.Hours() / 24)]: the whole days of [d], or one
    more; the whole days when [d] is below 30 days or at least 4000 ns
    before the next whole day. *)
Lemma days_of_duration d :
  24 * Hour <= d <= maxDuration ->
  let days := float64_to_int (float64_div (Duration_Hours d) (float64_of_int 24)) in
  let D := d / (24 * Hour) in
  D <= days <= D + 1
  /\ (d < 30 * (24 * Hour) \/ d mod (24 * Hour) <= 24 * Hour - 4000 -> days = D).
Proof.
  intros Hd. cbv zeta.
  unfold maxDuration, Duration_Hours, Hour, Minute in Hd |- *.
  change (24 * (60 * (60 * 1000000000))) with (3600000000000 * 24) in Hd |- *.
  change (2 ^ 63 - 1) with 9223372036854775807 in Hd.
  rewrite Z.quot_div_nonneg, Z.rem_mod_nonneg by lia.
  change (60 * (60 * 1000000000)) with 3600000000000.
  change (60 * 60 * 1000000000) with 3600000000000.
  set (D := d / (3600000000000 * 24)).
  set (days := float64_to_int _).
  set (hour := d / 3600000000000) in *.
  set (nsec := d mod 3600000000000) in *.
  assert (HD : D = hour / 24).
  { unfold D, hour. rewrite Z.div_div by lia. reflexivity. }
  pose proof (Z.div_mod d 3600000000000 ltac:(lia)) as Hdm. fold hour nsec in Hdm.
  pose proof (Z.mod_pos_bound d 3600000000000 ltac:(lia)) as Hnsec. fold nsec in Hnsec.
  pose proof (Z.div_mod hour 24 ltac:(lia)) as Hhm. rewrite <- HD in Hhm.
  pose proof (Z.mod_pos_bound hour 24 ltac:(lia)) as Hr.
  set (r := hour mod 24) in *.
  assert (Hmod : d mod (3600000000000 * 24) = r * 3600000000000 + nsec).
  { symmetry. apply (Z.mod_unique_pos _ _ D). lia. lia. }
  assert (Hhour : 24 <= hour <= 2562047).
  { split; [apply Z.div_le_lower_bound; lia|].
    assert (hour < 2562048) by (apply Z.div_lt_upper_bound; lia). lia. }
  assert (HDr : 1 <= D <= 106751) by lia.
  change (2 ^ 53) with 9007199254740992 in *.
  destruct (whole_fraction_units hour nsec 3600000000000) as (Ns & Hlow & Hup);
    [change (2 ^ 53) with 9007199254740992; lia|lia
    |change (2 ^ 53) with 9007199254740992; lia|].
  set (h := float64_add _ _) in *.
  destruct (float64_of_int_units 24 ltac:(change (2 ^ 53) with 9007199254740992; lia))
    as [N24 U24].
  destruct (float64_div_mono 161 _ _ Ns (normal53_weaken 53 161 _ N24 ltac:(lia)) ltac:(lia))
    as [Nw Hw].
  change (2 * 161 + 53) with 375 in Nw.
  set (w := float64_div h (float64_of_int 24)) in *.
  rewrite U24 in Hw.
  pose proof (pow2_pos 1200 ltac:(lia)) as HB.
  (* between the whole days and one more *)
  assert (Hwlo : D * 2 ^ 1200 <= float64_units w).
  { destruct (Hw (D * 2 ^ 1200)) as [_ Hdown].
    - apply holds53_whole. change (2 ^ 53) with 9007199254740992. lia.
    - apply Hdown. nia. }
  assert (Hh1 : float64_units h <= (hour + 1) * 2 ^ 1200).
  { apply (Hup (1 * 2 ^ 1200)).
    - apply holds53_whole. change (2 ^ 53) with 9007199254740992. lia.
    - apply holds53_whole. change (2 ^ 53) with 9007199254740992. lia.
    - nia.
    - lia. }
  assert (Hwhi : float64_units w <= (D + 1) * 2 ^ 1200).
  { destruct (Hw ((D + 1) * 2 ^ 1200)) as [Hup' _].
    - apply holds53_whole. change (2 ^ 53) with 9007199254740992. lia.
    - apply Hup'. nia. }
  assert (Hint : days = float64_units w / 2 ^ 1200).
  { apply (float64_to_int_units 375 w Nw); [lia|].
    change (2 ^ 63) with 9223372036854775808. nia. }
  split.
  - rewrite Hint. split.
    + apply Z.div_le_lower_bound; lia.
    + apply Z.div_le_upper_bound; lia.
  - (* the cases where the count is the whole days *)
    assert (Hsharp : forall k, 1 <= k <= 47 -> (D + 1) * 2 ^ (k + 5) <= 2 ^ 53 ->
              float64_units h <= (24 * (D + 1) * 2 ^ k - 1) * 2 ^ (1200 - k) -> days = D).
    { intros k Hk Hfit Hh.
      set (G := 2 ^ (1200 - (k + 5))).
      assert (HG : 0 < G) by (apply pow2_pos; lia).
      pose proof (pow2_pos k ltac:(lia)) as Hpk.
      assert (EG : 2 ^ (1200 - k) = 32 * G).
      { unfold G. change 32 with (2 ^ 5). rewrite <- pow2_split by lia. f_equal. lia. }
      assert (Ek5 : 2 ^ (k + 5) = 2 ^ k * 32).
      { change 32 with (2 ^ 5). apply pow2_split; lia. }
      assert (EB : 2 ^ 1200 = 2 ^ k * 32 * G).
      { unfold G. rewrite <- Ek5, <- pow2_split by lia. f_equal. lia. }
      assert (Hbelow : float64_units w <= ((D + 1) * 2 ^ (k + 5) - 1) * G).
      { destruct (Hw (((D + 1) * 2 ^ (k + 5) - 1) * G)) as [Hup' _].
        - apply holds53_intro; [|lia]. split; [|lia].
          rewrite Ek5. nia.
        - apply Hup'. rewrite EG in Hh. rewrite Ek5.
          apply Z.le_trans with ((24 * (D + 1) * 2 ^ k - 1) * (32 * G) * 2 ^ 1200).
          + apply Z.mul_le_mono_nonneg_r; lia.
          + rewrite (Z.mul_assoc _ 24 (2 ^ 1200)).
            apply Z.mul_le_mono_nonneg_r; [lia|]. lia. }
      rewrite Hint. symmetry.
      apply (Z.div_unique _ _ D (float64_units w - D * 2 ^ 1200)); [|lia].
      left. split; [lia|]. rewrite Ek5 in Hbelow. rewrite EB. rewrite EB in Hwlo. nia. }
    intros [Hshort|Hearly].
    + (* below 30 days *)
      assert (D < 30) by (apply Z.div_lt_upper_bound; lia).
      apply (Hsharp 42); [lia| |].
      * change (2 ^ (42 + 5)) with 140737488355328. lia.
      * apply Z.le_trans with (((hour + 1) * 2 ^ 42 - 1) * 2 ^ (1200 - 42)).
        -- apply (Hup ((2 ^ 42 - 1) * 2 ^ (1200 - 42))).
           ++ apply holds53_intro; [|lia]. change (2 ^ 42) with 4398046511104. lia.
           ++ apply holds53_intro; [|lia]. change (2 ^ 42) with 4398046511104. lia.
           ++ replace (2 ^ 1200) with (2 ^ 42 * 2 ^ (1200 - 42))
                by (rewrite <- pow2_split by lia; reflexivity).
              pose proof (pow2_pos (1200 - 42) ltac:(lia)).
              change (2 ^ 42) with 4398046511104. nia.
           ++ replace (2 ^ 1200) with (2 ^ 42 * 2 ^ (1200 - 42))
                by (rewrite <- pow2_split by lia; reflexivity).
              lia.
        -- apply Z.mul_le_mono_nonneg_r; [apply Z.lt_le_incl, pow2_pos; lia|].
           change (2 ^ 42) with 4398046511104. lia.
    + (* at least 4000 ns before the next whole day *)
      rewrite Hmod in Hearly.
      apply (Hsharp 30); [lia| |].
      * change (2 ^ (30 + 5)) with 34359738368. lia.
      * destruct (Z.eq_dec r 23) as [Er|Er].
        -- apply Z.le_trans with (((hour + 1) * 2 ^ 30 - 1) * 2 ^ (1200 - 30)).
           ++ apply (Hup ((2 ^ 30 - 1) * 2 ^ (1200 - 30))).
              ** apply holds53_intro; [|lia]. change (2 ^ 30) with 1073741824. lia.
              ** apply holds53_intro; [|lia]. change (2 ^ 30) with 1073741824. lia.
              ** replace (2 ^ 1200) with (2 ^ 30 * 2 ^ (1200 - 30))
                   by (rewrite <- pow2_split by lia; reflexivity).
                 pose proof (pow2_pos (1200 - 30) ltac:(lia)).
                 change (2 ^ 30) with 1073741824. nia.
              ** replace (2 ^ 1200) with (2 ^ 30 * 2 ^ (1200 - 30))
                   by (rewrite <- pow2_split by lia; reflexivity).
                 lia.
           ++ apply Z.mul_le_mono_nonneg_r; [apply Z.lt_le_incl, pow2_pos; lia|].
              change (2 ^ 30) with 1073741824. lia.
        -- apply Z.le_trans with ((hour + 1) * 2 ^ 1200); [exact Hh1|].
           replace (2 ^ 1200) with (2 ^ 30 * 2 ^ (1200 - 30))
             by (rewrite <- pow2_split by lia; reflexivity).
           pose proof (pow2_pos (1200 - 30) ltac:(lia)).
           change (2 ^ 30) with 1073741824. nia.
Qed.

End Durations.

(* ===================================================================== *)
(** * repo.go: the age of a timestamp                                    *)
(* ===================================================================== *)

Section Ages.
Import Go githubapi.

(** X18. Below a day [humanizeSince] is exact: a timestamp less than a
    minute old, or in the future, reads "just now"; from a minute on it
    reads the whole minutes that have passed, from an hour on the whole
    hours, always in the plural.  A zero [now] stands for the clock. *)
Theorem humanizeSince_below_a_day (clock t now : Time) :
  let d := Time_Sub (if Time_IsZero now then clock else now) t in
  (d < Minute -> humanizeSince clock t now = "just now")
  /\ (Minute <= d < Hour ->
        humanizeSince clock t now = FormatInt (d / Minute) +:+ " minutes ago")
  /\ (Hour <= d < 24 * Hour ->
        humanizeSince clock t now = FormatInt (d / Hour) +:+ " hours ago").
Proof.
  intros d. unfold humanizeSince. fold d.
  assert (HMH : Minute < Hour /\ Hour < 24 * Hour) by (unfold Hour, Minute; lia).
  split; [|split]; intros Hd.
  - destruct (Z.ltb_spec d Minute); [reflexivity|lia].
  - destruct (Z.ltb_spec d Minute); [lia|].
    destruct (Z.ltb_spec d Hour); [|lia].
    rewrite Duration_Minutes_to_int by assumption. reflexivity.
  - destruct (Z.ltb_spec d Minute); [lia|].
    destruct (Z.ltb_spec d Hour); [lia|].
    destruct (Z.ltb_spec d (24 * Hour)); [|lia].
    rewrite Duration_Hours_to_int by assumption. reflexivity.
Qed.

(** X19. From one day to below 30 days [humanizeSince] reads the whole
    days that have passed. *)
Theorem humanizeSince_days (clock t now : Time) :
  let d := Time_Sub (if Time_IsZero now then clock else now) t in
  24 * Hour <= d < 30 * (24 * Hour) ->
  humanizeSince clock t now = FormatInt (d / (24 * Hour)) +:+ " days ago".
Proof.
  intros d Hd. unfold humanizeSince. fold d.
  assert (HMH : Minute < Hour /\ Hour < 24 * Hour) by (unfold Hour, Minute; lia).
  destruct (Z.ltb_spec d Minute); [lia|].
  destruct (Z.ltb_spec d Hour); [lia|].
  destruct (Z.ltb_spec d (24 * Hour)); [lia|].
  pose proof (Time_Sub_range (if Time_IsZero now then clock else now) t) as Hr. fold d in Hr.
  destruct (days_of_duration d ltac:(lia)) as [_ Hexact].
  rewrite (Hexact (or_introl (proj2 Hd))).
  assert (d / (24 * Hour) < 30).
  { apply Z.div_lt_upper_bound; unfold Hour, Minute in *; lia. }
  destruct (Z.ltb_spec (d / (24 * Hour)) 30); [reflexivity|lia].
Qed.

(** X20. From 30 days on [humanizeSince] reads months of 30 days, and from
    12 such months on years of 12 months, of a count of days that is the
    whole days passed or one more; it is the whole days whenever the age
    is at least 4000 ns short of the next whole day. *)
Theorem humanizeSince_months_years (clock t now : Time) :
  let d := Time_Sub (if Time_IsZero now then clock else now) t in
  30 * (24 * Hour) <= d ->
  exists days,
    d / (24 * Hour) <= days <= d / (24 * Hour) + 1
    /\ (d mod (24 * Hour) <= 24 * Hour - 4000 -> days = d / (24 * Hour))
    /\ humanizeSince clock t now
       = if days / 30 <? 12 then FormatInt (days / 30) +:+ " months ago"
         else FormatInt (days / 30 / 12) +:+ " years ago".
Proof.
  intros d Hd. unfold humanizeSince. fold d.
  assert (HMH : Minute < Hour /\ Hour < 24 * Hour /\ 0 < 24 * Hour)
    by (unfold Hour, Minute; lia).
  destruct (Z.ltb_spec d Minute); [lia|].
  destruct (Z.ltb_spec d Hour); [lia|].
  destruct (Z.ltb_spec d (24 * Hour)); [lia|].
  pose proof (Time_Sub_range (if Time_IsZero now then clock else now) t) as Hr. fold d in Hr.
  destruct (days_of_duration d ltac:(lia)) as [Hnear Hexact].
  set (days := float64_to_int _) in *.
  assert (HD : 30 <= d / (24 * Hour)) by (apply Z.div_le_lower_bound; lia).
  exists days. split; [exact Hnear|]. split; [intros He; apply Hexact; right; exact He|].
  destruct (Z.ltb_spec days 30); [lia|].
  rewrite (Z.quot_div_nonneg days 30) by lia.
  assert (0 <= days / 30) by (apply Z.div_pos; lia).
  rewrite (Z.quot_div_nonneg (days / 30) 12) by lia.
  reflexivity.
Qed.

End Ages.

Section AgesRuns.
Import Go githubapi.

(** A parsed timestamp and later instants on the wall clock. *)
Lemma humanizeSince_below_a_day_witness :
  let t := mkTime 63000000000 0 None in
  humanizeSince t t (mkTime 63000000059 999999999 None) = "just now"
  /\ humanizeSince t t (mkTime 62999999000 0 None) = "just now"
  /\ humanizeSince t t (mkTime 63000000060 0 None) = "1 minutes ago"
  /\ humanizeSince t t (mkTime 63000003599 999999999 None) = "59 minutes ago"
  /\ humanizeSince t t (mkTime 63000086399 999999999 None) = "23 hours ago".
Proof.
  intros t.
  split; [apply (humanizeSince_below_a_day t t (mkTime 63000000059 999999999 None)); reflexivity|].
  split; [apply (humanizeSince_below_a_day t t (mkTime 62999999000 0 None)); reflexivity|].
  split; [apply (humanizeSince_below_a_day t t (mkTime 63000000060 0 None));
          vm_compute; split; [discriminate|reflexivity]|].
  split; [apply (humanizeSince_below_a_day t t (mkTime 63000003599 999999999 None));
          vm_compute; split; [discriminate|reflexivity]|].
  apply (humanizeSince_below_a_day t t (mkTime 63000086399 999999999 None)).
  vm_compute; split; [discriminate|reflexivity].
Defined.

Lemma humanizeSince_days_witness :
  let t := mkTime 63000000000 0 None in
  humanizeSince t t (mkTime 63000086400 0 None) = "1 days ago"
  /\ humanizeSince t t (mkTime 63002591999 999999999 None) = "29 days ago".
Proof.
  intros t. split.
  - apply (humanizeSince_days t t (mkTime 63000086400 0 None)).
    vm_compute; split; [discriminate|reflexivity].
  - apply (humanizeSince_days t t (mkTime 63002591999 999999999 None)).
    vm_compute; split; [discriminate|reflexivity].
Defined.

Lemma humanizeSince_months_years_witness :
  let t := mkTime 63000000000 0 None in
  let now := mkTime 63031103999 999990000 None in
  exists days,
    (days = 359 \/ days = 360)
    /\ humanizeSince t t now
       = if days / 30 <? 12 then FormatInt (days / 30) +:+ " months ago"
         else FormatInt (days / 30 / 12) +:+ " years ago".
Proof.
  intros t now.
  destruct (humanizeSince_months_years t t now) as (days & Hnear & Hexact & Hout).
  - vm_compute. discriminate.
  - exists days. split; [|exact Hout].
    left. apply Hexact. vm_compute. discriminate.
Defined.

(** One nanosecond short of 360 days reads as a year; a zero [now] is the
    clock; readings of the monotonic clock go before the wall clock. *)
Example humanizeSince_samples :
  let t := mkTime 63000000000 0 None in
  humanizeSince t t (mkTime 63031103999 999999999 None) = "1 years ago"
  /\ humanizeSince t t (mkTime 63031103999 999990000 None) = "11 months ago"
  /\ humanizeSince t t (mkTime 63002592000 0 None) = "1 months ago"
  /\ humanizeSince (mkTime 63000007200 0 (Some 5)) t (mkTime 0 0 None) = "2 hours ago"
  /\ humanizeSince t (mkTime 1 0 (Some 0)) (mkTime 2 0 (Some 120000000000)) = "2 minutes ago"
  /\ humanizeSince t (mkTime 0 0 None) (mkTime 63000000000 0 None) = "296 years ago".
Proof. vm_compute. repeat split. Qed.

End AgesRuns.

(* ===================================================================== *)
(** * Trimmed inputs, the timeout option, fetched repositories           *)
(* ===================================================================== *)

Section TrimTwice.
Import Go.

Lemma drop_string_length n : forall s,
  (String.length (drop_string n s) <= String.length s)%nat.
Proof.
  induction n as [|n IH]; intros [|a s]; simpl; try lia.
  specialize (IH s). lia.
Qed.

Lemma drop_string_suffix n : forall s, exists p, s = p +:+ drop_string n s.
Proof.
  induction n as [|n IH]; intros [|a s]; simpl; try (exists ""; reflexivity).
  destruct (IH s) as [p Hp]. exists (String a p). rewrite append_cons. f_equal. exact Hp.
Qed.

Lemma leading_space_nonempty s : leading_space s <> 0%nat -> s <> "".
Proof. intros H ->. apply H. reflexivity. Qed.

Lemma trailing_space_rev_nonempty s : trailing_space_rev s <> 0%nat -> s <> "".
Proof. intros H ->. apply H. reflexivity. Qed.

(** What is left of the left trim starts with no white space. *)
Lemma trim_left_space_done fuel : forall s,
  (String.length s <= fuel)%nat -> leading_space (trim_left_space fuel s) = 0%nat.
Proof.
  induction fuel as [|fuel IH]; intros s Hlen.
  - destruct s; [reflexivity|simpl in Hlen; lia].
  - cbn [trim_left_space]. destruct (leading_space s) as [|w] eqn:Hw; [exact Hw|].
    apply IH. destruct s as [|a s]; [discriminate Hw|].
    simpl. pose proof (drop_string_length w s). simpl in Hlen. lia.
Qed.

Lemma trim_right_space_done fuel : forall r,
  (String.length r <= fuel)%nat -> trailing_space_rev (trim_right_space_rev fuel r) = 0%nat.
Proof.
  induction fuel as [|fuel IH]; intros r Hlen.
  - destruct r; [reflexivity|simpl in Hlen; lia].
  - cbn [trim_right_space_rev]. destruct (trailing_space_rev r) as [|w] eqn:Hw; [exact Hw|].
    apply IH. destruct r as [|a r]; [discriminate Hw|].
    simpl. pose proof (drop_string_length w r). simpl in Hlen. lia.
Qed.

Lemma trim_left_space_fixed fuel s :
  leading_space s = 0%nat -> trim_left_space fuel s = s.
Proof. intros H. destruct fuel; [reflexivity|]. cbn [trim_left_space]. rewrite H. reflexivity. Qed.

Lemma trim_right_space_fixed fuel r :
  trailing_space_rev r = 0%nat -> trim_right_space_rev fuel r = r.
Proof. intros H. destruct fuel; [reflexivity|]. cbn [trim_right_space_rev]. rewrite H. reflexivity. Qed.

Lemma trim_right_space_suffix fuel : forall r, exists p, r = p +:+ trim_right_space_rev fuel r.
Proof.
  induction fuel as [|fuel IH]; intros r; [exists ""; reflexivity|].
  cbn [trim_right_space_rev]. destruct (trailing_space_rev r) as [|w]; [exists ""; reflexivity|].
  destruct (drop_string_suffix (S w) r) as [p1 Hp1].
  destruct (IH (drop_string (S w) r)) as [p2 Hp2].
  exists (p1 +:+ p2). rewrite append_assoc, <- Hp2. exact Hp1.
Qed.

Lemma rev_string_length s : String.length (rev_string s) = String.length s.
Proof.
  induction s as [|a s IH]; [reflexivity|].
  rewrite rev_string_cons. simpl.
  assert (H : forall x y, String.length (x +:+ y) = (String.length x + String.length y)%nat).
  { induction x as [|c x IHx]; intros y; [reflexivity|]. rewrite append_cons. simpl. rewrite IHx. reflexivity. }
  rewrite H, IH. simpl. lia.
Qed.

(** A white-space rune at the start stays one when the text goes on. *)
Lemma leading_space_extend p q :
  leading_space p = 0%nat \/ leading_space (p +:+ q) = leading_space p.
Proof.
  destruct p as [|a p1]; [left; reflexivity|].
  rewrite append_cons. unfold leading_space.
  destruct (asciiSpace a); [right; reflexivity|].
  destruct p1 as [|b [|c p3]]; rewrite ?append_cons;
    destruct (byte_val a) as [|pa|pa];
    try (left; reflexivity); try (right; reflexivity);
    repeat (destruct pa as [pa|pa|]; try (left; reflexivity); try (right; reflexivity)).
Qed.


(** [strings.TrimSpace] leaves nothing to trim. *)
Lemma TrimSpace_idempotent s : TrimSpace (TrimSpace s) = TrimSpace s.
Proof.
  unfold TrimSpace at 2 3.
  set (l := trim_left_space (String.length s) s).
  set (T := trim_right_space_rev (String.length l) (rev_string l)).
  assert (Hl : leading_space l = 0%nat) by (apply trim_left_space_done; lia).
  assert (HT : trailing_space_rev T = 0%nat).
  { apply trim_right_space_done. rewrite rev_string_length. lia. }
  assert (HR : leading_space (rev_string T) = 0%nat).
  { destruct (trim_right_space_suffix (String.length l) (rev_string l)) as [p Hp].
    fold T in Hp. apply (f_equal rev_string) in Hp.
    rewrite rev_string_involutive, rev_string_app in Hp.
    destruct (leading_space_extend (rev_string T) (rev_string p)) as [H|H]; [exact H|].
    rewrite <- Hp in H. congruence. }
  unfold TrimSpace.
  rewrite (trim_left_space_fixed _ _ HR), rev_string_involutive.
  rewrite (trim_right_space_fixed _ _ HT). reflexivity.
Qed.

End TrimTwice.

Section TrimmedInputs.
Import Go githubapi.
Context {ext : Externals}.

(** X21. White space around a username or a file name makes no difference:
    [CheckUserExists], [GetUserIfExists] and [UploadMdFileWithToken] run on
    the trimmed text exactly as on the text itself. *)
Theorem surrounding_space_is_ignored (c : GitHubAPI) (r : GitHubRepoAPI)
    (text content commitMsg branch : string) :
  CheckUserExists c (TrimSpace text) = CheckUserExists c text
  /\ GetUserIfExists c (TrimSpace text) = GetUserIfExists c text
  /\ UploadMdFileWithToken r (TrimSpace text) content commitMsg branch
     = UploadMdFileWithToken r text content commitMsg branch.
Proof.
  unfold CheckUserExists, GetUserIfExists, UploadMdFileWithToken.
  rewrite TrimSpace_idempotent. repeat split.
Qed.

End TrimmedInputs.

Section ChatTexts.
Import Go bot.
Context {ext : Externals}.

(** X22. The chat handlers.  A text that, once trimmed, is empty or starts
    with '/' is ignored: nothing is sent, asked or stored.  Every other
    text is handled as the username it is, white space around it making no
    difference; [/verify] takes its first argument alone. *)
Theorem chat_texts (amb : Ambient) (chatID : Z) (message : string)
    (args : list string) (wd : World) :
  (HasPrefix (TrimSpace message) "/" = true \/ TrimSpace message = "" ->
     onText amb chatID message wd = (tt, wd))
  /\ (HasPrefix (TrimSpace message) "/" = false -> TrimSpace message <> "" ->
     onText amb chatID message = handleUsernameInput amb chatID message)
  /\ handleUsernameInput amb chatID (TrimSpace message)
     = handleUsernameInput amb chatID message
  /\ onVerify amb chatID (message :: args) = handleUsernameInput amb chatID message.
Proof.
  split; [|split; [|split]].
  - intros [H|H]; unfold onText; cbv zeta; rewrite H.
    + reflexivity.
    + reflexivity.
  - intros H1 H2. unfold onText. cbv zeta. rewrite H1.
    destruct (String.eqb_spec (TrimSpace message) ""); [contradiction|].
    cbn [orb]. unfold handleUsernameInput. rewrite TrimSpace_idempotent. reflexivity.
  - unfold handleUsernameInput. rewrite TrimSpace_idempotent. reflexivity.
  - reflexivity.
Qed.

End ChatTexts.

Section TimeoutOption.
Import Go githubapi.
Context {ext : Externals}.

(** X23. The timeout of a client is never read: after [WithTimeout] the
    existence checks, the repository lookup and [AuthURL] are the same
    functions as before, and the profile lookups send the same requests and
    return the same answer, the returned profile carrying the new timeout. *)
Theorem timeout_is_never_read (c : GitHubAPI) (t : Z) :
  let c' := WithTimeout t c in
  CheckUserExists c' = CheckUserExists c
  /\ CheckUserExistsById c' = CheckUserExistsById c
  /\ CheckIsRepoExistsById c' = CheckIsRepoExistsById c
  /\ GetRepoByIdIfExist c' = GetRepoByIdIfExist c
  /\ AuthURL c' = AuthURL c
  /\ (forall username sent,
        GetUserIfExists c' username sent
        = (profile_timeout t (GetUserIfExists c username sent).1,
           (GetUserIfExists c username sent).2))
  /\ (forall id sent,
        GetUserByIdIfExist c' id sent
        = (profile_timeout t (GetUserByIdIfExist c id sent).1,
           (GetUserByIdIfExist c id sent).2)).
Proof.
  intros c'.
  split; [reflexivity|]. split; [reflexivity|]. split; [reflexivity|].
  split; [reflexivity|]. split; [reflexivity|].
  split.
  - intros username sent. unfold GetUserIfExists.
    destruct (String.eqb (TrimSpace username) ""); [reflexivity|].
    change (newReq c') with (newReq c).
    destruct (newReq c "GET" _ NoBody) as [err|req]; [reflexivity|].
    change (doJSON c' req (Some zero_profile)) with (doJSON c req (Some zero_profile)).
    unfold mbind, M_bind, bind.
    destruct (doJSON c req (Some zero_profile) sent) as [[[err out]|msg] log]; [|reflexivity].
    destruct err as [err|]; [|reflexivity].
    destruct (is_HTTPError_with err StatusNotFound); reflexivity.
  - intros id sent. unfold GetUserByIdIfExist.
    change (newReq c') with (newReq c).
    destruct (newReq c "GET" _ NoBody) as [err|req]; [reflexivity|].
    change (doJSON c' req (Some zero_profile)) with (doJSON c req (Some zero_profile)).
    unfold mbind, M_bind, bind.
    destruct (doJSON c req (Some zero_profile) sent) as [[[err out]|msg] log]; [|reflexivity].
    destruct err as [err|]; [|reflexivity].
    destruct (is_HTTPError_with err StatusNotFound); reflexivity.
Qed.

End TimeoutOption.

Section FetchedRepos.
Import Go githubapi.
Context {ext : Externals}.

(** What [doJSON] leaves behind a pointer to an empty repository carries
    the zero client, whatever the server answered. *)
Lemma doJSON_repo_client c req sent e out log :
  doJSON c req (Some zero_repo) sent = (Ret (e, out), log) ->
  repo_GitHubAPI (deref zero_repo out) = zero_GitHubAPI.
Proof.
  unfold doJSON, http_Do, mbind, M_bind, bind, panic, ret.
  destruct (http c) as [d|]; [|discriminate].
  destruct (d sent req) as [err|resp]; [intros [= _ <- _]; reflexivity|].
  destruct ((StatusCode resp <? 200) || (StatusCode resp >=? 300));
    [intros [= _ <- _]; reflexivity|].
  destruct (String.length _ =? 0)%nat; [intros [= _ <- _]; reflexivity|].
  unfold Unmarshal, JSONTarget_repo.
  destruct (Unmarshal_repo _ zero_repo) as [err|r']; intros [= _ <- _]; reflexivity.
Qed.

Lemma doJSON_repos_client c req sent e out log :
  doJSON c req (Some []) sent = (Ret (e, out), log) ->
  Forall (fun r => repo_GitHubAPI r = zero_GitHubAPI) (deref [] out).
Proof.
  unfold doJSON, http_Do, mbind, M_bind, bind, panic, ret.
  destruct (http c) as [d|]; [|discriminate].
  destruct (d sent req) as [err|resp]; [intros [= _ <- _]; constructor|].
  destruct ((StatusCode resp <? 200) || (StatusCode resp >=? 300));
    [intros [= _ <- _]; constructor|].
  destruct (String.length _ =? 0)%nat; [intros [= _ <- _]; constructor|].
  unfold Unmarshal, JSONTarget_repos.
  destruct (Unmarshal_repos _ []) as [err|l']; intros [= _ <- _]; [constructor|].
  cbn [deref]. apply Forall_map, Forall_forall. intros r _. reflexivity.
Qed.

(** X24. A repository returned by a fetch can send nothing.  The
    repositories that [GetRepoByIdIfExist], [GetRepoIfExist] and
    [GetPublicRepos] return carry the zero client, whatever the server
    answered; on such a repository [GetRepoTags] and
    [UploadMdFileWithToken] send no request: they panic on the missing
    transport, unless they return an error before. *)
Theorem fetched_repos_cannot_send :
  (forall c id sent r e,
     result_of (GetRepoByIdIfExist c id) sent = Ret (Some r, e) ->
     repo_GitHubAPI r = zero_GitHubAPI)
  /\ (forall p name sent r e,
        result_of (GetRepoIfExist p name) sent = Ret (Some r, e) ->
        repo_GitHubAPI r = zero_GitHubAPI)
  /\ (forall p sent rs e,
        result_of (GetPublicRepos p) sent = Ret (Some rs, e) ->
        Forall (fun r => repo_GitHubAPI r = zero_GitHubAPI) rs)
  /\ (forall r sent filename content commitMsg branch,
        repo_GitHubAPI r = zero_GitHubAPI ->
        (log_of (GetRepoTags r) sent = sent
         /\ ((exists why, result_of (GetRepoTags r) sent = Panic why)
             \/ exists err, result_of (GetRepoTags r) sent = Ret (None, Some err)))
        /\ log_of (UploadMdFileWithToken r filename content commitMsg branch) sent = sent
        /\ ((exists why,
               result_of (UploadMdFileWithToken r filename content commitMsg branch) sent
               = Panic why)
            \/ exists err,
               result_of (UploadMdFileWithToken r filename content commitMsg branch) sent
               = Ret (None, Some err))).
Proof.
  split; [|split; [|split]].
  - intros c id sent r e. unfold result_of, GetRepoByIdIfExist.
    destruct (newReq c "GET" _ NoBody) as [err|req]; [discriminate|].
    unfold mbind, M_bind, bind.
    destruct (doJSON c req (Some zero_repo) sent) as [[[err out]|why] log] eqn:Hdo;
      [|discriminate].
    destruct err as [err|].
    + destruct (is_HTTPError_with err StatusNotFound); discriminate.
    + cbn. intros [= <- _]. exact (doJSON_repo_client _ _ _ _ _ _ Hdo).
  - intros p name sent r e. unfold result_of, GetRepoIfExist.
    destruct (newReq (profile_GitHubAPI p) "GET" _ NoBody) as [err|req]; [discriminate|].
    unfold mbind, M_bind, bind.
    destruct (doJSON (profile_GitHubAPI p) req (Some zero_repo) sent)
      as [[[err out]|why] log] eqn:Hdo; [|discriminate].
    destruct err as [err|].
    + destruct (is_HTTPError_with err StatusNotFound); discriminate.
    + cbn. intros [= <- _]. exact (doJSON_repo_client _ _ _ _ _ _ Hdo).
  - intros p sent rs e. unfold result_of, GetPublicRepos.
    destruct (newReq (profile_GitHubAPI p) "GET" _ NoBody) as [err|req]; [discriminate|].
    unfold mbind, M_bind, bind.
    destruct (doJSON (profile_GitHubAPI p) req (Some []) sent)
      as [[[err out]|why] log] eqn:Hdo; [|discriminate].
    destruct err as [err|]; [discriminate|].
    cbn. intros [= <- _]. exact (doJSON_repos_client _ _ _ _ _ _ Hdo).
  - intros r sent filename content commitMsg branch Hzero.
    unfold log_of, result_of, GetRepoTags, UploadMdFileWithToken. rewrite Hzero.
    split; [|].
    + destruct (newReq zero_GitHubAPI "GET" _ NoBody) as [err|req].
      * split; [reflexivity|]. right. exists err. reflexivity.
      * split; [reflexivity|]. left. eexists. reflexivity.
    + destruct (String.eqb (TrimSpace filename) "").
      * split; [reflexivity|]. right. eexists. reflexivity.
      * cbv zeta.
        destruct (newReq zero_GitHubAPI "PUT" _ _) as [err|req].
        -- split; [reflexivity|]. right. exists err. reflexivity.
        -- split; [reflexivity|]. left. eexists. reflexivity.
Qed.

End FetchedRepos.

(* ===================================================================== *)
(** * net/url: escaping loses nothing                                    *)
(* ===================================================================== *)

Section Escapes.
Import Go.

Lemma unescape_PathEscape s : unescape false (PathEscape s) = s.
Proof.
  induction s as [|a s IH]; [reflexivity|].
  destruct a as [[] [] [] [] [] [] [] []]; simpl; rewrite IH; reflexivity.
Qed.

Lemma unescape_QueryEscape s : unescape true (QueryEscape s) = s.
Proof.
  induction s as [|a s IH]; [reflexivity|].
  destruct a as [[] [] [] [] [] [] [] []]; simpl; rewrite IH; reflexivity.
Qed.


Lemma PathEscape_inj s t : PathEscape s = PathEscape t -> s = t.
Proof.
  intros H. apply (f_equal (unescape false)) in H.
  rewrite !unescape_PathEscape in H. exact H.
Qed.

Lemma QueryEscape_inj s t : QueryEscape s = QueryEscape t -> s = t.
Proof.
  intros H. apply (f_equal (unescape true)) in H.
  rewrite !unescape_QueryEscape in H. exact H.
Qed.

Lemma append_inv_head (p a b : string) : p +:+ a = p +:+ b -> a = b.
Proof.
  induction p as [|x p IH]; [exact id|].
  rewrite !append_cons. intros [= H]. exact (IH H).
Qed.

End Escapes.

Section LookupURLs.
Import Go githubapi.
Context {ext : Externals}.

Ltac nothing_more_sent :=
  intros [[e|] o]; simpl;
  repeat match goal with
         | |- context [if ?b then _ else _] => destruct b
         end; eexists; reflexivity.

Lemma log_grows_by_one {A} (sent : list A) r : sent <> sent ++ [r].
Proof.
  intros H. apply (f_equal length) in H. rewrite length_app in H. simpl in H. lia.
Qed.

(** The one request that an existence check leaves on the log. *)
Lemma CheckUserExists_log c username sent r :
  log_of (CheckUserExists c username) sent = sent ++ [r] ->
  URL r = baseURL c +:+ "/users/" +:+ PathEscape (TrimSpace username).
Proof.
  unfold CheckUserExists.
  destruct (String.eqb (TrimSpace username) "");
    [intros H; exfalso; exact (log_grows_by_one _ _ H)|].
  destruct (newReq c "GET" _ NoBody) as [err|req] eqn:Hreq;
    [intros H; exfalso; exact (log_grows_by_one _ _ H)|].
  destruct (http c) as [d|] eqn:Hd.
  - rewrite (log_of_bind_doJSON c req None d sent _ Hd) by nothing_more_sent.
    intros H. apply app_inv_head in H. injection H as <-.
    exact (proj1 (proj2 (newReq_plain_get _ _ _ Hreq))).
  - unfold log_of, mbind, M_bind, bind, doJSON, http_Do. rewrite Hd.
    intros H; exfalso; exact (log_grows_by_one _ _ H).
Qed.

Lemma CheckUserExistsById_log c id sent r :
  log_of (CheckUserExistsById c id) sent = sent ++ [r] ->
  URL r = baseURL c +:+ "/user/" +:+ FormatInt id.
Proof.
  unfold CheckUserExistsById. rewrite PathEscape_FormatInt.
  destruct (newReq c "GET" _ NoBody) as [err|req] eqn:Hreq;
    [intros H; exfalso; exact (log_grows_by_one _ _ H)|].
  destruct (http c) as [d|] eqn:Hd.
  - rewrite (log_of_bind_doJSON c req None d sent _ Hd) by nothing_more_sent.
    intros H. apply app_inv_head in H. injection H as <-.
    exact (proj1 (proj2 (newReq_plain_get _ _ _ Hreq))).
  - unfold log_of, mbind, M_bind, bind, doJSON, http_Do. rewrite Hd.
    intros H; exfalso; exact (log_grows_by_one _ _ H).
Qed.

(** X25. Escaping loses nothing: [url.PathEscape] and [url.QueryEscape]
    send different texts to different texts.  Two existence checks by name
    that ask for the same URL are therefore about the same name once
    trimmed, and two checks by id about the same id. *)
Theorem lookup_urls_tell_names_apart :
  (forall s t, PathEscape s = PathEscape t -> s = t)
  /\ (forall s t, QueryEscape s = QueryEscape t -> s = t)
  /\ (forall c u v sent sent' r1 r2,
        log_of (CheckUserExists c u) sent = sent ++ [r1] ->
        log_of (CheckUserExists c v) sent' = sent' ++ [r2] ->
        URL r1 = URL r2 -> TrimSpace u = TrimSpace v)
  /\ (forall c i j sent sent' r1 r2,
        log_of (CheckUserExistsById c i) sent = sent ++ [r1] ->
        log_of (CheckUserExistsById c j) sent' = sent' ++ [r2] ->
        URL r1 = URL r2 -> i = j).
Proof.
  split; [exact PathEscape_inj|]. split; [exact QueryEscape_inj|]. split.
  - intros c u v sent sent' r1 r2 H1 H2 HU.
    rewrite (CheckUserExists_log _ _ _ _ H1), (CheckUserExists_log _ _ _ _ H2) in HU.
    apply append_inv_head, append_inv_head in HU. exact (PathEscape_inj _ _ HU).
  - intros c i j sent sent' r1 r2 H1 H2 HU.
    rewrite (CheckUserExistsById_log _ _ _ _ H1), (CheckUserExistsById_log _ _ _ _ H2) in HU.
    apply append_inv_head, append_inv_head in HU. exact (FormatInt_inj _ _ HU).
Qed.

End LookupURLs.

Section TrimRuns.
Import Go bot.

Lemma chat_texts_witness :
  let amb := mkAmbient 5 (fun _ => None) in
  let ext := MockBot.externals MockBot.Foo in
  onText (ext := ext) amb 42 "  /start now " (mkWorld ∅ []) = (tt, mkWorld ∅ [])
  /\ onText (ext := ext) amb 42 " octocat  "
     = handleUsernameInput (ext := ext) amb 42 " octocat  ".
Proof.
  intros amb ext. split.
  - destruct (chat_texts (ext := ext) amb 42 "  /start now " [] (mkWorld ∅ []))
      as (Hignored & _).
    apply Hignored. left. reflexivity.
  - destruct (chat_texts (ext := ext) amb 42 " octocat  " [] (mkWorld ∅ []))
      as (_ & Htext & _).
    apply Htext; [reflexivity|discriminate].
Defined.

End TrimRuns.

Section FetchedReposRuns.
Import Go githubapi Mock.

Lemma fetched_repos_cannot_send_witness :
  let resp := mkResponse 200 "Annuum" in
  let c := Mock.client resp in
  exists r,
    result_of (GetRepoByIdIfExist c 984280187) [] = Ret (Some r, None)
    /\ repo_GitHubAPI r = zero_GitHubAPI
    /\ log_of (GetRepoTags r) [] = []
    /\ log_of (UploadMdFileWithToken r "notes" "text" "" "") [] = [].
Proof.
  intros resp c.
  destruct (fetched_repos_cannot_send (ext := Mock.externals)) as (Hid & _ & _ & Hsend).
  eexists. split; [vm_compute; reflexivity|].
  assert (Hz := Hid c 984280187 [] _ None eq_refl).
  split; [exact Hz|].
  destruct (Hsend _ [] "notes" "text" "" "" Hz) as ((Htags & _) & Hup & _).
  split; [exact Htags|exact Hup].
Defined.

End FetchedReposRuns.

Section LookupURLsRuns.
Import Go githubapi Mock.

Example escapes_samples :
  PathEscape "a/b c?" = "a%2Fb%20c%3F"
  /\ QueryEscape "a/b c+d" = "a%2Fb+c%2Bd"
  /\ unescape false "a%2Fb%20c%3F" = "a/b c?"
  /\ unescape true "a%2Fb+c%2Bd" = "a/b c+d".
Proof. repeat split. Qed.

Lemma lookup_urls_tell_names_apart_witness :
  let c := Mock.client (mkResponse 200 "") in
  exists r1 r2,
    log_of (CheckUserExists c " a/b ") [] = [r1]
    /\ log_of (CheckUserExists c "a/b") [] = [r2]
    /\ URL r1 = "https://api.github.com/users/a%2Fb"
    /\ TrimSpace " a/b " = TrimSpace "a/b".
Proof.
  intros c.
  destruct (lookup_urls_tell_names_apart (ext := Mock.externals)) as (_ & _ & Hname & _).
  eexists _, _. split; [vm_compute; reflexivity|].
  split; [vm_compute; reflexivity|]. split; [reflexivity|].
  eapply (Hname c " a/b " "a/b" [] []);
    [vm_compute; reflexivity|vm_compute; reflexivity|reflexivity].
Defined.

End LookupURLsRuns.

(* ===================================================================== *)
(** * The scopes of a token                                               *)
(* ===================================================================== *)

Section Scopes.
Import Go bot.

(** An ASCII byte that is no white space starts no white-space rune. *)
Lemma leading_space_ascii a r :
  asciiSpace a = false -> (byte_val a <? 128) = true -> leading_space (String a r) = 0%nat.
Proof.
  intros Hs Hlt. apply Z.ltb_lt in Hlt. unfold leading_space. rewrite Hs.
  destruct (byte_val a) as [|pa|pa]; try reflexivity.
  repeat (destruct pa as [pa|pa|]; try reflexivity; try lia).
Qed.

Lemma all_bytes_app p s t : all_bytes p (s +:+ t) = all_bytes p s && all_bytes p t.
Proof.
  induction s as [|a s IH]; [reflexivity|].
  rewrite append_cons. simpl. rewrite IH. apply andb_assoc.
Qed.

Lemma all_bytes_rev p s : all_bytes p (rev_string s) = all_bytes p s.
Proof.
  induction s as [|a s IH]; [reflexivity|].
  rewrite rev_string_cons, all_bytes_app, IH. simpl.
  rewrite andb_true_r. apply andb_comm.
Qed.

Lemma all_bytes_impl (p q : ascii -> bool) s :
  (forall c, p c = true -> q c = true) -> all_bytes p s = true -> all_bytes q s = true.
Proof.
  intros Hpq. induction s as [|a s IH]; [reflexivity|]. simpl.
  intros H. apply andb_prop in H as [Ha Hs]. rewrite (Hpq _ Ha), (IH Hs). reflexivity.
Qed.

(** Text of ASCII bytes without white space has nothing to trim. *)
Lemma TrimSpace_ascii_words s :
  all_bytes (fun c => negb (asciiSpace c) && (byte_val c <? 128)) s = true ->
  TrimSpace s = s.
Proof.
  intros Hall. unfold TrimSpace.
  assert (Hl : leading_space s = 0%nat).
  { destruct s as [|a r]; [reflexivity|]. simpl in Hall.
    apply andb_prop in Hall as [Ha _]. apply andb_prop in Ha as [Hs Hlt].
    apply leading_space_ascii; [|exact Hlt]. destruct (asciiSpace a); [discriminate|reflexivity]. }
  rewrite (trim_left_space_fixed _ _ Hl).
  rewrite <- all_bytes_rev in Hall.
  assert (Ht : trailing_space_rev (rev_string s) = 0%nat).
  { destruct (rev_string s) as [|c r]; [reflexivity|].
    assert (Hbyte : forall x, negb (asciiSpace x) && (byte_val x <? 128) = true ->
              asciiSpace x = false /\ (byte_val x <? 128) = true).
    { intros x Hx. apply andb_prop in Hx as [Hs Hlt].
      split; [destruct (asciiSpace x); [discriminate|reflexivity]|exact Hlt]. }
    simpl in Hall. apply andb_prop in Hall as [Hc Hr].
    destruct (Hbyte _ Hc) as [Hcs _].
    unfold trailing_space_rev. rewrite Hcs.
    destruct r as [|b [|a0 r]]; [reflexivity| |].
    - simpl in Hr. apply andb_prop in Hr as [Hb _]. destruct (Hbyte _ Hb) as [Hbs Hbl].
      rewrite (leading_space_ascii b _ Hbs Hbl). reflexivity.
    - simpl in Hr. apply andb_prop in Hr as [Hb Hr]. apply andb_prop in Hr as [Ha0 _].
      destruct (Hbyte _ Hb) as [Hbs Hbl]. destruct (Hbyte _ Ha0) as [Has Hal].
      rewrite (leading_space_ascii a0 _ Has Hal), (leading_space_ascii b _ Hbs Hbl).
      reflexivity. }
  rewrite (trim_right_space_fixed _ _ Ht). apply rev_string_involutive.
Qed.

Lemma scope_byte_word c :
  scope_byte c = true -> negb (asciiSpace c) && (byte_val c <? 128) = true.
Proof. unfold scope_byte. intros H. apply andb_prop in H as [H _]. exact H. Qed.

Lemma scope_byte_no_comma s :
  all_bytes scope_byte s = true -> ContainsByte s "," = false.
Proof.
  induction s as [|a s IH]; [reflexivity|]. simpl. intros H.
  apply andb_prop in H as [Ha Hs]. rewrite (IH Hs), orb_false_r.
  unfold scope_byte in Ha. apply andb_prop in Ha as [_ Ha].
  destruct (eqb_byte a ","); [discriminate|reflexivity].
Qed.

Lemma Join_words l :
  Forall (fun p => all_bytes scope_byte p = true) l ->
  all_bytes (fun c => negb (asciiSpace c) && (byte_val c <? 128)) (Join l ",") = true.
Proof.
  induction l as [|x l IH]; intros Hall; [reflexivity|].
  apply Forall_cons in Hall as [Hx Hl].
  assert (Hxw := all_bytes_impl _ _ _ scope_byte_word Hx).
  destruct l as [|y l]; [exact Hxw|].
  change (Join (x :: y :: l) ",") with (x +:+ "," +:+ Join (y :: l) ",").
  rewrite !all_bytes_app, Hxw, (IH Hl). reflexivity.
Qed.

Lemma trimmed_scopes_kept l :
  Forall (fun p => p <> "" /\ all_bytes scope_byte p = true) l ->
  filter (fun p => p ≠ EmptyString) (map TrimSpace l) = l.
Proof.
  induction 1 as [|p l0 [Hne Hp] Hl IH]; [reflexivity|].
  change (map TrimSpace (p :: l0)) with (TrimSpace p :: map TrimSpace l0).
  rewrite (TrimSpace_ascii_words p (all_bytes_impl _ _ _ scope_byte_word Hp)).
  rewrite filter_cons_True by exact Hne. rewrite IH. reflexivity.
Qed.

(** X17. The scopes that the token exchange returns are exactly the trimmed
    parts that the commas cut out of the trimmed scope string of the
    answer, in their order, without the empty ones.  None is empty, none
    holds a comma, none has white space around it; a scope string that is
    empty or blank gives no scope at all; and a list of scopes written
    with commas between them, as GitHub writes it, is read back as it
    was. *)
Theorem parse_scopes_parts (scope : string) :
  parse_scopes scope
  = filter (fun p => p ≠ EmptyString) (map TrimSpace (Split_byte (TrimSpace scope) ","))
  /\ Forall (fun p => p <> "" /\ ContainsByte p "," = false /\ TrimSpace p = p)
            (parse_scopes scope)
  /\ (all_bytes asciiSpace scope = true -> parse_scopes scope = [])
  /\ (forall l, Forall (fun p => p <> "" /\ all_bytes scope_byte p = true) l ->
        parse_scopes (Join l ",") = l).
Proof.
  assert (Heq : forall s, parse_scopes s
            = filter (fun p => p ≠ EmptyString) (map TrimSpace (Split_byte (TrimSpace s) ","))).
  { intros s. unfold parse_scopes.
    destruct (String.eqb_spec (TrimSpace s) "") as [E|E]; [|reflexivity].
    rewrite E. reflexivity. }
  split; [apply Heq|]. split; [|split].
  - rewrite Heq. apply Forall_forall. intros p Hp.
    apply list_elem_of_filter in Hp as [Hne Hin].
    apply list_elem_of_fmap in Hin as (part & -> & Hpart).
    split; [exact Hne|]. split.
    + apply ContainsByte_TrimSpace.
      pose proof (Split_byte_parts (TrimSpace scope) ",") as Hall.
      rewrite Forall_forall in Hall. apply Hall, Hpart.
    + apply TrimSpace_idempotent.
  - intros Hb. rewrite Heq, (TrimSpace_all_blank _ Hb). reflexivity.
  - intros l Hl. rewrite Heq.
    assert (Hbytes : Forall (fun p => all_bytes scope_byte p = true) l).
    { eapply Forall_impl; [exact Hl|]. intros p [_ Hp]. exact Hp. }
    rewrite (TrimSpace_ascii_words _ (Join_words l Hbytes)).
    destruct l as [|x l]; [reflexivity|].
    assert (Hcommas : Forall (fun p => ContainsByte p "," = false) (x :: l)).
    { eapply Forall_impl; [exact Hbytes|]. intros p Hp. apply scope_byte_no_comma, Hp. }
    rewrite (Split_byte_Join (x :: l) "," ltac:(discriminate) Hcommas).
    apply trimmed_scopes_kept, Hl.
Qed.

End Scopes.

Section ScopesRuns.
Import Go bot.

Lemma parse_scopes_parts_witness :
  parse_scopes "user:email,read:user" = ["user:email"; "read:user"].
Proof.
  destruct (parse_scopes_parts "") as (_ & _ & _ & Hback).
  apply (Hback ["user:email"; "read:user"]).
  repeat constructor; discriminate.
Defined.

End ScopesRuns.
